(** * PII guardrails of litellm-app: detectors and interception hooks

    A shallow embedding of

    - [pii_regex_detection.py]    (class [PIIRegexDetection]),
    - [pii_regex_precall.py]      (class [PIIRegexPreCallGuardrail]),
    - [pii_regex_postcall.py]     (class [PIIRegexPostCallGuardrail]),
    - [pii_presidio_detection.py] (class [PIIPresidioDetection]),
    - [pii_presidio_precall.py]   (class [PIIPresidioPreCallGuardrail]),
    - [pii_presidio_postcall.py]  (class [PIIPresidioPostCallGuardrail]),

    followed by the properties of the specification that concern them.

    Conventions of the embedding.

    - A Python [str] is a [string]; its characters are read as the code
      points below 256, and the character tables that Python's [re] and
      [str] methods consult ([\d], [\s], [\w], [str.strip], [str.lower],
      [repr]) are written out for that range.
    - A Python [float] (score, threshold) is a rational of [Q]; the code only
      compares floats and prints them.
    - A Python [dict] is a [gmap string pyval].
    - Logging, printing, detector calls and recognizer calls are events of a
      trace that every effectful function threads, together with the number
      of recognizer calls made so far.  The recognizer (Presidio's
      [AnalyzerEngine.analyze]) is an oracle that may answer differently at
      every call and may raise. *)

From Stdlib Require Import String Ascii List ZArith QArith Bool Lia.
From stdpp Require Import gmap strings pretty.
Import ListNotations.

Local Open Scope string_scope.
Local Open Scope list_scope.

(** ** Characters *)

Definition ord (c : ascii) : nat := nat_of_ascii c.

Definition in_range (lo hi : nat) (c : ascii) : bool :=
  (lo <=? ord c)%nat && (ord c <=? hi)%nat.

(** Membership in an explicit set of characters, [[abc]] in a pattern. *)
Definition chr_in (set : string) (c : ascii) : bool :=
  existsb (Ascii.eqb c) (list_ascii_of_string set).

(** [[0-9]], [[A-Za-z]]. *)
Definition is_09 (c : ascii) : bool := in_range 48 57 c.
Definition is_AZaz (c : ascii) : bool := in_range 65 90 c || in_range 97 122 c.

(** [\d] of a [str] pattern: the decimal digits (category Nd); below 256
    these are 0-9 only. *)
Definition uni_digit (c : ascii) : bool := in_range 48 57 c.

(** [\s] of a [str] pattern and the characters [str.strip()] removes:
    TAB..CR, FS..US, SPACE, NEL (0x85) and NBSP (0xA0). *)
Definition uni_space (c : ascii) : bool :=
  in_range 9 13 c || in_range 28 32 c || (ord c =? 133)%nat || (ord c =? 160)%nat.

(** [str.isalnum] below 256: letters, decimal digits, the digits and numerics
    of Latin-1 (superscripts 1-3, vulgar fractions), feminine and masculine
    ordinal indicators, micro sign, and the accented letters. *)
Definition uni_alnum (c : ascii) : bool :=
  is_09 c || is_AZaz c
  || (ord c =? 170)%nat || (ord c =? 178)%nat || (ord c =? 179)%nat
  || (ord c =? 181)%nat || (ord c =? 185)%nat || (ord c =? 186)%nat
  || in_range 188 190 c
  || in_range 192 214 c || in_range 216 246 c || in_range 248 255 c.

(** [\w] of a [str] pattern: alphanumerics and the underscore. *)
Definition uni_word (c : ascii) : bool := uni_alnum c || (ord c =? 95)%nat.

(** ** Regular expressions

    The constructs the four patterns of [PIIRegexDetection] are built from:
    character classes, concatenation, alternation, counted repetition of a
    class ([{n}], [{n,}], [+]), the optional group [(...)?] and the word
    boundary [\b].  [re.search] is only tested for success, so the matcher
    answers whether some match exists; it tries the alternatives in the order
    of a backtracking engine (longer repetitions first, the left branch
    first) and stops at the first success. *)

Inductive regex : Type :=
| Eps
| Cls (p : ascii -> bool)
| Seq (r1 r2 : regex)
| Alt (r1 r2 : regex)
| Rep (p : ascii -> bool) (lo : nat) (hi : option nat)
| Opt (r : regex)
| WordBoundary.

(** [\b]: exactly one of the characters around the cursor is a word
    character; outside the text there is no word character. *)
Definition is_word_opt (o : option ascii) : bool :=
  match o with Some c => uni_word c | None => false end.

Definition at_boundary (prev : option ascii) (rest : list ascii) : bool :=
  xorb (is_word_opt prev) (is_word_opt (head rest)).

Definition may_take (hi : option nat) : bool :=
  match hi with Some O => false | _ => true end.

Definition hi_pred (hi : option nat) : option nat :=
  match hi with Some n => Some (Nat.pred n) | None => None end.

(** Repetition of a class, between [lo] and [hi] characters, then [k]. *)
Fixpoint rep_cls (p : ascii -> bool) (lo : nat) (hi : option nat)
    (prev : option ascii) (rest : list ascii)
    (k : option ascii -> list ascii -> bool) {struct rest} : bool :=
  let more :=
    match rest with
    | c :: rest' =>
        if may_take hi then
          if p c then rep_cls p (Nat.pred lo) (hi_pred hi) (Some c) rest' k else false
        else false
    | [] => false
    end in
  match lo with
  | O => if more then true else k prev rest
  | S _ => more
  end.

(** [accepts r prev rest k]: [r] matches a prefix of [rest] (the character
    before the cursor being [prev]) such that [k] accepts what follows. *)
Fixpoint accepts (r : regex) (prev : option ascii) (rest : list ascii)
    (k : option ascii -> list ascii -> bool) {struct r} : bool :=
  match r with
  | Eps => k prev rest
  | Cls p =>
      match rest with
      | c :: rest' => if p c then k (Some c) rest' else false
      | [] => false
      end
  | Seq r1 r2 => accepts r1 prev rest (fun prev' rest' => accepts r2 prev' rest' k)
  | Alt r1 r2 => if accepts r1 prev rest k then true else accepts r2 prev rest k
  | Rep p lo hi => rep_cls p lo hi prev rest k
  | Opt r1 => if accepts r1 prev rest k then true else k prev rest
  | WordBoundary => if at_boundary prev rest then k prev rest else false
  end.

(** [pattern.search(text)] tested for truth: a match starts at some
    position of the text, the end of the text included. *)
Fixpoint search_from (r : regex) (prev : option ascii) (rest : list ascii) : bool :=
  if accepts r prev rest (fun _ _ => true) then true
  else match rest with
       | c :: rest' => search_from r (Some c) rest'
       | [] => false
       end.

Definition search (r : regex) (text : string) : bool :=
  search_from r None (list_ascii_of_string text).

(** Pattern syntax. *)
Definition lit (c : ascii) : regex := Cls (Ascii.eqb c).
Definition exactly (p : ascii -> bool) (n : nat) : regex := Rep p n (Some n).
Definition at_least (p : ascii -> bool) (n : nat) : regex := Rep p n None.
Definition seqs (rs : list regex) : regex := fold_right Seq Eps rs.
Definition alts (r : regex) (rs : list regex) : regex := fold_left Alt rs r.

(** ** [pii_regex_detection.py] *)

Module PIIRegexDetection.

(** [[A-Za-z0-9._%+-]] *)
Definition email_local (c : ascii) : bool := is_AZaz c || is_09 c || chr_in "._%+-" c.
(** [[A-Za-z0-9.-]] *)
Definition email_domain (c : ascii) : bool := is_AZaz c || is_09 c || chr_in ".-" c.
(** [[-\s]] and [[\s-]] *)
Definition dash_space (c : ascii) : bool := chr_in "-" c || uni_space c.
(** [[-.\s]] *)
Definition dash_dot_space (c : ascii) : bool := chr_in "-." c || uni_space c.

(** [\b[A-Za-z0-9._%+-]+@[A-Za-z0-9.-]+\.[A-Za-z]{2,}\b] *)
Definition email_re : regex :=
  seqs [ WordBoundary; at_least email_local 1; lit "@"; at_least email_domain 1;
         lit "."; at_least is_AZaz 2; WordBoundary ].

(** [\b(?:\d{3}[-\s]?\d{2}[-\s]?\d{4}|\d{9})\b] *)
Definition ssn_re : regex :=
  seqs [ WordBoundary;
         Alt (seqs [ exactly uni_digit 3; Opt (Cls dash_space);
                     exactly uni_digit 2; Opt (Cls dash_space);
                     exactly uni_digit 4 ])
             (exactly uni_digit 9);
         WordBoundary ].

(** [\b(?:\+?1[-.\s]?)?\(?[0-9]{3}\)?[-.\s]?[0-9]{3}[-.\s]?[0-9]{4}\b] *)
Definition phone_re : regex :=
  seqs [ WordBoundary;
         Opt (seqs [ Opt (lit "+"); lit "1"; Opt (Cls dash_dot_space) ]);
         Opt (lit "("); exactly is_09 3; Opt (lit ")");
         Opt (Cls dash_dot_space); exactly is_09 3;
         Opt (Cls dash_dot_space); exactly is_09 4;
         WordBoundary ].

(** [4[0-9]{3}[\s-]?[0-9]{4}[\s-]?[0-9]{4}[\s-]?[0-9]{4}(?:[0-9]{3})?] *)
Definition visa_re : regex :=
  seqs [ lit "4"; exactly is_09 3; Opt (Cls dash_space); exactly is_09 4;
         Opt (Cls dash_space); exactly is_09 4; Opt (Cls dash_space);
         exactly is_09 4; Opt (exactly is_09 3) ].

(** [5[1-5][0-9]{2}[\s-]?[0-9]{4}[\s-]?[0-9]{4}[\s-]?[0-9]{4}] *)
Definition mastercard_re : regex :=
  seqs [ lit "5"; Cls (in_range 49 53); exactly is_09 2; Opt (Cls dash_space);
         exactly is_09 4; Opt (Cls dash_space); exactly is_09 4;
         Opt (Cls dash_space); exactly is_09 4 ].

(** [3[47][0-9]{2}[\s-]?[0-9]{6}[\s-]?[0-9]{5}] *)
Definition amex_re : regex :=
  seqs [ lit "3"; Cls (chr_in "47"); exactly is_09 2; Opt (Cls dash_space);
         exactly is_09 6; Opt (Cls dash_space); exactly is_09 5 ].

(** [6(?:011|5[0-9]{2})[\s-]?[0-9]{4}[\s-]?[0-9]{4}[\s-]?[0-9]{4}] *)
Definition discover_re : regex :=
  seqs [ lit "6";
         Alt (seqs [ lit "0"; lit "1"; lit "1" ]) (seqs [ lit "5"; exactly is_09 2 ]);
         Opt (Cls dash_space); exactly is_09 4; Opt (Cls dash_space);
         exactly is_09 4; Opt (Cls dash_space); exactly is_09 4 ].

(** [\b(?:visa|mastercard|amex|discover)\b] *)
Definition credit_card_re : regex :=
  seqs [ WordBoundary;
         alts visa_re [ mastercard_re; amex_re; discover_re ];
         WordBoundary ].

Record t : Type := Build {
  email_pattern : regex;
  ssn_pattern : regex;
  phone_pattern : regex;
  credit_card_pattern : regex
}.

(** [__init__] *)
Definition init : t :=
  {| email_pattern := email_re;
     ssn_pattern := ssn_re;
     phone_pattern := phone_re;
     credit_card_pattern := credit_card_re |}.

(** [has_pii]: [not text] holds of the empty string only. *)
Definition has_pii (self : t) (text : string) : bool :=
  match text with
  | EmptyString => false
  | _ =>
      search (email_pattern self) text
      || search (ssn_pattern self) text
      || search (phone_pattern self) text
      || search (credit_card_pattern self) text
  end.

(** [get_detected_types]: the list [detected] after the four appends. *)
Definition get_detected_types (self : t) (text : string) : list string :=
  match text with
  | EmptyString => []
  | _ =>
      (if search (email_pattern self) text then ["email"] else [])
      ++ (if search (ssn_pattern self) text then ["ssn"] else [])
      ++ (if search (phone_pattern self) text then ["phone"] else [])
      ++ (if search (credit_card_pattern self) text then ["credit_card"] else [])
  end.

End PIIRegexDetection.

(** ** Python values and built-ins *)

(** The values a request payload is made of.  A [float] is a rational. *)
#[warnings="-register-all"]
Inductive pyval : Type :=
| VNone
| VBool (b : bool)
| VInt (z : Z)
| VFloat (q : Q)
| VStr (s : string)
| VList (l : list pyval)
| VDict (d : gmap string pyval).

(** Truth value of an object: [None], [False], zero and the empty
    containers are false. *)
Definition truthy (v : pyval) : bool :=
  match v with
  | VNone => false
  | VBool b => b
  | VInt z => negb (z =? 0)%Z
  | VFloat q => negb (Qeq_bool q 0)
  | VStr s => negb (String.eqb s "")
  | VList l => match l with [] => false | _ => true end
  | VDict d => negb (bool_decide (d = ∅))
  end.

(** [d.get(key)]: the value, or [None] when the key is absent. *)
Definition dict_get (d : gmap string pyval) (key : string) : pyval :=
  default VNone (d !! key).

(** [str.strip()]: leading and trailing whitespace removed. *)
Fixpoint lstrip (cs : list ascii) : list ascii :=
  match cs with
  | c :: cs' => if uni_space c then lstrip cs' else cs
  | [] => []
  end.

Definition py_strip (s : string) : string :=
  string_of_list_ascii (rev (lstrip (rev (lstrip (list_ascii_of_string s))))).

(** [str.lower()] below 256: A-Z and the accented capitals move up by 32. *)
Definition lower_char (c : ascii) : ascii :=
  if in_range 65 90 c || in_range 192 214 c || in_range 216 222 c
  then ascii_of_nat (ord c + 32) else c.

Definition py_lower (s : string) : string :=
  string_of_list_ascii (map lower_char (list_ascii_of_string s)).

(** [s[start:stop]] with Python's treatment of negative and out-of-range
    bounds. *)
Definition slice_bound (len i : Z) : Z :=
  if (i <? 0)%Z then Z.max (i + len) 0 else Z.min i len.

Definition py_slice (s : string) (start stop : Z) : string :=
  let len := Z.of_nat (String.length s) in
  let a := slice_bound len start in
  let b := slice_bound len stop in
  String.substring (Z.to_nat a) (Z.to_nat (b - a)) s.

(** [sep.join(parts)] *)
Definition join (sep : string) (parts : list string) : string :=
  String.concat sep parts.

(** [repr] of a [str]: quoted, with the quote, the backslash and the
    non-printable characters escaped. *)
Definition hex_digit (n : nat) : ascii :=
  if (n <? 10)%nat then ascii_of_nat (48 + n) else ascii_of_nat (87 + n).

Definition printable (c : ascii) : bool :=
  negb (in_range 0 31 c || in_range 127 160 c || (ord c =? 173)%nat).

Definition double_quote : ascii := ascii_of_nat 34.

Definition repr_char (quote : ascii) (c : ascii) : string :=
  if Ascii.eqb c quote then String "\" (String quote "")
  else if Ascii.eqb c "\" then "\\"
  else if (ord c =? 9)%nat then "\t"
  else if (ord c =? 10)%nat then "\n"
  else if (ord c =? 13)%nat then "\r"
  else if printable c then String c ""
  else String "\" (String "x" (String (hex_digit (ord c / 16))
                                (String (hex_digit (ord c mod 16)) ""))).

Definition repr_str (s : string) : string :=
  let cs := list_ascii_of_string s in
  let quote : ascii :=
    if existsb (Ascii.eqb "'") cs && negb (existsb (Ascii.eqb double_quote) cs)
    then double_quote else "'"%char in
  String quote (String.concat "" (map (repr_char quote) cs)) +:+ String quote "".

(** [repr] of a list of [str], as an f-string prints it. *)
Definition repr_list (l : list string) : string :=
  "[" +:+ join ", " (map repr_str l) +:+ "]".

(** What the interpreter leaves open: the order in which the elements of a
    [set] of strings are listed, and the decimal text of a float. *)
Class PyRuntime : Type := {
  set_list : list string -> list string;
  set_list_NoDup : forall l, NoDup (set_list l);
  set_list_elem : forall l x, x ∈ set_list l <-> x ∈ l;
  float_str : Q -> string
}.

(** ** litellm objects the hooks receive *)

(** [litellm.Choices] carries [message.content]; a streaming choice is not
    an instance of it. *)
Inductive choice : Type :=
| Choices (content : pyval)
| StreamingChoices (delta : pyval).

Inductive response : Type :=
| ModelResponse (choices : list choice)
| OtherResponse (body : pyval).

Inductive call_type : Type :=
| completion | text_completion | embeddings | image_generation
| moderation | audio_transcription | pass_through_endpoint | rerank.

(** [UserAPIKeyAuth] and [DualCache] are passed through untouched. *)
Record UserAPIKeyAuth : Type := { api_key : string }.
Record DualCache : Type := { cache_name : string }.

(** Keyword arguments of the guardrail constructors. *)
Module Kwargs.
Record t : Type := Build {
  language : option string;
  threshold : option Q;
  entities : option (list string);
  block_on_detection : option bool
}.
Definition empty : t := Build None None None None.
End Kwargs.

(** ** Effects *)

Inductive level : Type := DEBUG | INFO | WARNING | ERROR.

Inductive detector_method : Type :=
| m_has_pii | m_get_detected_types | m_get_detected_entities | m_get_analysis_summary.

Inductive logarg : Type :=
| ArgValue (v : pyval)
| ArgResponse (r : response)
| ArgChoice (c : choice).

Inductive event : Type :=
| Log (lv : level) (msg : string)
| LogArgs (lv : level) (fmt : string) (args : list logarg)
| Print (msg : string)
| DetectorCall (m : detector_method) (text : string)
| Analyze (text : string) (entities : list string) (language : string).

Inductive exn : Type :=
| ValueError (msg : string)
| AttributeError
| TypeError
| Exception (msg : string).

Record world : Type := World {
  trace : list event;
  analyses : nat
}.

Inductive outcome (A : Type) : Type :=
| Ok (a : A)
| Raise (e : exn).
Arguments Ok {A} a.
Arguments Raise {A} e.

Definition M (A : Type) : Type := world -> outcome A * world.

Definition ret {A} (a : A) : M A := fun w => (Ok a, w).

Definition bind {A B} (m : M A) (f : A -> M B) : M B :=
  fun w =>
    match m w with
    | (Ok a, w') => f a w'
    | (Raise e, w') => (Raise e, w')
    end.

Definition raise {A} (e : exn) : M A := fun w => (Raise e, w).

Definition emit (e : event) : M unit :=
  fun w => (Ok tt, World (trace w ++ [e]) (analyses w)).

Notation "x <- m ;; k" := (bind m (fun x => k))
  (at level 100, m at next level, right associativity).
Notation "m ;; k" := (bind m (fun _ => k))
  (at level 100, right associativity).

(** ** The recognizer *)

Module RecognizerResult.
Record t : Type := Build {
  entity_type : string;
  start : Z;
  end_ : Z;
  score : Q
}.
End RecognizerResult.

(** What one call of [AnalyzerEngine.analyze] does: return results or raise. *)
Inductive analysis : Type :=
| Results (results : list RecognizerResult.t)
| Failure (what : string).

(** An engine answers the [n]-th call made to it; the answer may depend on
    [n], on the text, on the entity list and on the language. *)
Definition AnalyzerEngine : Type := nat -> string -> list string -> string -> analysis.

Definition analyze (engine : AnalyzerEngine) (text : string)
    (entities : list string) (language : string) : M analysis :=
  fun w =>
    (Ok (engine (analyses w) text entities language),
     World (trace w ++ [Analyze text entities language]) (S (analyses w))).

(** [score >= threshold] *)
Definition score_ge (score threshold : Q) : bool := Qle_bool threshold score.

(** Every detector method leaves a [DetectorCall] event when entered. *)
Definition called {A} (m : detector_method) (text : string) (body : M A) : M A :=
  emit (DetectorCall m text) ;; body.

(** ** [pii_presidio_detection.py] *)

Module Entity.
(** The dictionary [get_detected_entities] builds for one finding. *)
Record t : Type := Build {
  entity_type : string;
  start : Z;
  end_ : Z;
  score : Q;
  text : string
}.
End Entity.

Module Summary.
(** The dictionary [get_analysis_summary] returns. *)
Record t : Type := Build {
  has_pii : bool;
  entity_count : nat;
  entity_types : list string;
  entities : list Entity.t
}.
End Summary.

Module PIIPresidioDetection.

Record t : Type := Build {
  language : string;
  entities_to_detect : list string;
  analyzer : AnalyzerEngine
}.

Definition default_entities : list string :=
  [ "PERSON"; "EMAIL_ADDRESS"; "PHONE_NUMBER"; "US_SSN"; "CREDIT_CARD";
    "LOCATION"; "ORGANIZATION"; "DATE_TIME"; "IP_ADDRESS"; "URL";
    "US_DRIVER_LICENSE"; "US_PASSPORT"; "IBAN_CODE"; "US_BANK_NUMBER";
    "CRYPTO"; "MEDICAL_LICENSE"; "NRP" ].

Definition default_threshold : Q := 7 # 10.

(** [__init__]: [spacy_engine] is the engine built on the spaCy model, or
    the error raised while building it; [default_engine] is
    [AnalyzerEngine()], or the error it raises. *)
Definition init (language : string) (entities_to_detect : option (list string))
    (spacy_engine default_engine : string + AnalyzerEngine) : M t :=
  let entities := default default_entities entities_to_detect in
  match spacy_engine with
  | inr engine => ret (Build language entities engine)
  | inl e =>
      emit (Print ("Warning: Could not load spaCy model, using default: " +:+ e)) ;;
      match default_engine with
      | inr engine => ret (Build language entities engine)
      | inl e' => raise (Exception e')
      end
  end.

(** [not text or not text.strip()] *)
Definition blank (text : string) : bool :=
  negb (truthy (VStr text)) || negb (truthy (VStr (py_strip text))).

Definition has_pii (self : t) (text : string) (threshold : Q) : M bool :=
  called m_has_pii text (
    if blank text then ret false
    else
      outcome <- analyze (analyzer self) text (entities_to_detect self) (language self) ;;
      match outcome with
      | Results results =>
          ret (existsb (fun result => score_ge (RecognizerResult.score result) threshold)
                       results)
      | Failure e =>
          emit (Print ("Error during Presidio analysis: " +:+ e)) ;;
          ret false
      end).

(** The loop that filters by threshold and formats the results. *)
Definition detected (text : string) (threshold : Q)
    (results : list RecognizerResult.t) : list Entity.t :=
  map (fun result =>
         Entity.Build (RecognizerResult.entity_type result)
                      (RecognizerResult.start result)
                      (RecognizerResult.end_ result)
                      (RecognizerResult.score result)
                      (py_slice text (RecognizerResult.start result)
                                     (RecognizerResult.end_ result)))
      (List.filter (fun result => score_ge (RecognizerResult.score result) threshold)
                   results).

Definition get_detected_entities (self : t) (text : string) (threshold : Q)
    : M (list Entity.t) :=
  called m_get_detected_entities text (
    if blank text then ret []
    else
      outcome <- analyze (analyzer self) text (entities_to_detect self) (language self) ;;
      match outcome with
      | Results results => ret (detected text threshold results)
      | Failure e =>
          emit (Print ("Error during Presidio analysis: " +:+ e)) ;;
          ret []
      end).

Definition get_detected_types {rt : PyRuntime} (self : t) (text : string) (threshold : Q)
    : M (list string) :=
  called m_get_detected_types text (
    entities <- get_detected_entities self text threshold ;;
    ret (set_list (map (fun entity => py_lower (Entity.entity_type entity)) entities))).

Definition get_analysis_summary {rt : PyRuntime} (self : t) (text : string) (threshold : Q)
    : M Summary.t :=
  called m_get_analysis_summary text (
    entities <- get_detected_entities self text threshold ;;
    ret (Summary.Build (0 <? length entities)%nat
                       (length entities)
                       (set_list (map Entity.entity_type entities))
                       entities)).

End PIIPresidioDetection.

(** ** What the hooks share *)

(** [for x in v]: the elements a [for] loop visits, or [TypeError] when the
    object is not iterable.  A string yields its characters, a dictionary
    its keys. *)
Definition iterate (v : pyval) : M (list pyval) :=
  match v with
  | VList l => ret l
  | VStr s => ret (map (fun c => VStr (String c "")) (list_ascii_of_string s))
  | VDict d => ret (map (fun kv => VStr (fst kv)) (map_to_list d))
  | VNone | VBool _ | VInt _ | VFloat _ => raise TypeError
  end.

(** [for i, x in enumerate(xs): body]: the body runs on each element in
    order; an exception it raises ends the loop. *)
Fixpoint for_each {X} (body : nat -> X -> M unit) (i : nat) (xs : list X) : M unit :=
  match xs with
  | [] => ret tt
  | x :: rest => body i x ;; for_each body (S i) rest
  end.

(** [obj.get(key)]: only a dictionary has the method. *)
Definition get_method (obj : pyval) (key : string) : M pyval :=
  match obj with
  | VDict d => ret (dict_get d key)
  | _ => raise AttributeError
  end.

(** [try: m except Exception as e: handler(e)] *)
Definition try_except {A} (m : M A) (handler : exn -> M A) : M A :=
  fun w =>
    match m w with
    | (Ok a, w') => (Ok a, w')
    | (Raise e, w') => handler e w'
    end.

(** [str(e)] *)
Definition exn_str (e : exn) : string :=
  match e with
  | ValueError msg => msg
  | Exception msg => msg
  | AttributeError => "AttributeError"
  | TypeError => "TypeError"
  end.

(** ** [pii_regex_precall.py] *)

Module PIIRegexPreCallGuardrail.

Record t : Type := Build {
  optional_params : Kwargs.t;
  detector : PIIRegexDetection.t
}.

Definition init (kwargs : Kwargs.t) : t := Build kwargs PIIRegexDetection.init.

Definition violation (detected_types : list string) : exn :=
  ValueError ("Pre-call guardrail blocked PII detected: " +:+ join ", " detected_types).

(** The body of [for message in _messages]. *)
Definition check_message (self : t) (message : pyval) : M unit :=
  _content <- get_method message "content" ;;
  match _content with
  | VStr content =>
      found <- called m_has_pii content
                 (ret (PIIRegexDetection.has_pii (detector self) content)) ;;
      if (found : bool) then
        detected_types <- called m_get_detected_types content
                 (ret (PIIRegexDetection.get_detected_types (detector self) content)) ;;
        raise (violation detected_types)
      else ret tt
  | _ => ret tt
  end.

Definition async_pre_call_hook (self : t) (user_api_key_dict : UserAPIKeyAuth)
    (cache : DualCache) (data : gmap string pyval) (ct : call_type)
    : M (gmap string pyval) :=
  let _messages := dict_get data "messages" in
  (if truthy _messages
   then messages <- iterate _messages ;;
        for_each (fun _ => check_message self) 0 messages
   else ret tt) ;;
  emit (LogArgs DEBUG "Pre-call PII check passed for messages %s" [ArgValue _messages]) ;;
  ret data.

End PIIRegexPreCallGuardrail.

(** ** [pii_regex_postcall.py] *)

Module PIIRegexPostCallGuardrail.

Record t : Type := Build {
  optional_params : Kwargs.t;
  detector : PIIRegexDetection.t
}.

Definition init (kwargs : Kwargs.t) : t := Build kwargs PIIRegexDetection.init.

Definition violation (detected_types : list string) : exn :=
  ValueError ("Post-call guardrail blocked PII detected: " +:+ join ", " detected_types).

(** The body of [for choice in response.choices]. *)
Definition check_choice (self : t) (c : choice) : M unit :=
  match c with
  | Choices content =>
      emit (LogArgs DEBUG "Post-call PII check choice: %s" [ArgChoice c]) ;;
      match content with
      | VStr text =>
          if truthy content then
            found <- called m_has_pii text
                       (ret (PIIRegexDetection.has_pii (detector self) text)) ;;
            if (found : bool) then
              detected_types <- called m_get_detected_types text
                       (ret (PIIRegexDetection.get_detected_types (detector self) text)) ;;
              raise (violation detected_types)
            else ret tt
          else ret tt
      | _ => ret tt
      end
  | StreamingChoices _ => ret tt
  end.

(** Returns [None]. *)
Definition async_post_call_success_hook (self : t) (data : gmap string pyval)
    (user_api_key_dict : UserAPIKeyAuth) (resp : response) : M unit :=
  emit (LogArgs DEBUG "Post-call PII check response: %s" [ArgResponse resp]) ;;
  match resp with
  | ModelResponse choices => for_each (fun _ => check_choice self) 0 choices
  | OtherResponse _ => ret tt
  end.

End PIIRegexPostCallGuardrail.

(** The dictionary [get_guardrail_info] returns. *)
Module GuardrailInfo.
Record t : Type := Build {
  guardrail_type : string;
  language : string;
  threshold : Q;
  entities_monitored : nat;
  entity_types : list string;
  block_on_detection : bool
}.
End GuardrailInfo.

(** ** [pii_presidio_precall.py] *)

Module PIIPresidioPreCallGuardrail.

Record t : Type := Build {
  optional_params : Kwargs.t;
  language : string;
  threshold : Q;
  entities : option (list string);
  block_on_detection : bool;
  detector : PIIPresidioDetection.t
}.

Definition init {rt : PyRuntime} (kwargs : Kwargs.t)
    (spacy_engine default_engine : string + AnalyzerEngine) : M t :=
  let language := default "en" (Kwargs.language kwargs) in
  let threshold := default (7 # 10) (Kwargs.threshold kwargs) in
  let entities := Kwargs.entities kwargs in
  let block_on_detection := default true (Kwargs.block_on_detection kwargs) in
  try_except
    (detector <- PIIPresidioDetection.init language entities spacy_engine default_engine ;;
     emit (Log INFO ("Presidio Pre-call Guardrail initialized: language=" +:+ language
                     +:+ ", threshold=" +:+ float_str threshold
                     +:+ ", entities="
                     +:+ pretty (length (PIIPresidioDetection.entities_to_detect detector)))) ;;
     ret (Build kwargs language threshold entities block_on_detection detector))
    (fun e =>
       emit (Log ERROR ("Failed to initialize Presidio detector: " +:+ exn_str e)) ;;
       raise e).

Definition violation {rt : PyRuntime} (self : t) (entity_types : list string) : exn :=
  ValueError ("Pre-call Presidio guardrail blocked PII detected: "
              +:+ join ", " entity_types
              +:+ " (confidence >= " +:+ float_str (threshold self) +:+ ")").

Definition detected_warning (i : nat) (analysis : Summary.t) : event :=
  Log WARNING ("Presidio pre-call: PII detected in message " +:+ pretty i
               +:+ ". Entities: " +:+ repr_list (Summary.entity_types analysis)
               +:+ ", Count: " +:+ pretty (Summary.entity_count analysis)).

Definition not_blocking_warning (analysis : Summary.t) : event :=
  Log WARNING ("PII detected but not blocking: "
               +:+ repr_list (Summary.entity_types analysis)).

(** The body of [for i, message in enumerate(_messages)]. *)
Definition check_message {rt : PyRuntime} (self : t) (i : nat) (message : pyval)
    : M unit :=
  _content <- get_method message "content" ;;
  match _content with
  | VStr content =>
      emit (Log DEBUG ("Analyzing message " +:+ pretty i +:+ ": "
                       +:+ py_slice content 0 100 +:+ "...")) ;;
      found <- PIIPresidioDetection.has_pii (detector self) content (threshold self) ;;
      if (found : bool) then
        analysis <- PIIPresidioDetection.get_analysis_summary
                      (detector self) content (threshold self) ;;
        emit (detected_warning i analysis) ;;
        if block_on_detection self then
          raise (violation self (Summary.entity_types analysis))
        else
          emit (not_blocking_warning analysis)
      else ret tt
  | _ => ret tt
  end.

Definition async_pre_call_hook {rt : PyRuntime} (self : t)
    (user_api_key_dict : UserAPIKeyAuth) (cache : DualCache)
    (data : gmap string pyval) (ct : call_type) : M (gmap string pyval) :=
  emit (Log DEBUG "Presidio pre-call guardrail: Starting PII analysis") ;;
  let _messages := dict_get data "messages" in
  if negb (truthy _messages) then
    emit (Log DEBUG "No messages found in request data") ;;
    ret data
  else
    messages <- iterate _messages ;;
    for_each (check_message self) 0 messages ;;
    emit (Log DEBUG "Presidio pre-call guardrail: PII analysis passed") ;;
    ret data.

Definition get_guardrail_info (self : t) : GuardrailInfo.t :=
  GuardrailInfo.Build "presidio_precall" (language self) (threshold self)
    (length (PIIPresidioDetection.entities_to_detect (detector self)))
    (PIIPresidioDetection.entities_to_detect (detector self))
    (block_on_detection self).

End PIIPresidioPreCallGuardrail.

(** ** [pii_presidio_postcall.py] *)

Module PIIPresidioPostCallGuardrail.

Record t : Type := Build {
  optional_params : Kwargs.t;
  language : string;
  threshold : Q;
  entities : option (list string);
  block_on_detection : bool;
  detector : PIIPresidioDetection.t
}.

Definition init {rt : PyRuntime} (kwargs : Kwargs.t)
    (spacy_engine default_engine : string + AnalyzerEngine) : M t :=
  let language := default "en" (Kwargs.language kwargs) in
  let threshold := default (7 # 10) (Kwargs.threshold kwargs) in
  let entities := Kwargs.entities kwargs in
  let block_on_detection := default true (Kwargs.block_on_detection kwargs) in
  try_except
    (detector <- PIIPresidioDetection.init language entities spacy_engine default_engine ;;
     emit (Log INFO ("Presidio Post-call Guardrail initialized: language=" +:+ language
                     +:+ ", threshold=" +:+ float_str threshold
                     +:+ ", entities="
                     +:+ pretty (length (PIIPresidioDetection.entities_to_detect detector)))) ;;
     ret (Build kwargs language threshold entities block_on_detection detector))
    (fun e =>
       emit (Log ERROR ("Failed to initialize Presidio detector: " +:+ exn_str e)) ;;
       raise e).

Definition violation {rt : PyRuntime} (self : t) (entity_types : list string) : exn :=
  ValueError ("Post-call Presidio guardrail blocked PII detected: "
              +:+ join ", " entity_types
              +:+ " (confidence >= " +:+ float_str (threshold self) +:+ ")").

Definition detected_warning (choice_idx : nat) (analysis : Summary.t) : event :=
  Log WARNING ("Presidio post-call: PII detected in choice " +:+ pretty choice_idx
               +:+ ". Entities: " +:+ repr_list (Summary.entity_types analysis)
               +:+ ", Count: " +:+ pretty (Summary.entity_count analysis)).

Definition not_blocking_warning (analysis : Summary.t) : event :=
  Log WARNING ("PII detected but not blocking: "
               +:+ repr_list (Summary.entity_types analysis)).

(** The body of [for choice_idx, choice in enumerate(response.choices)]. *)
Definition check_choice {rt : PyRuntime} (self : t) (choice_idx : nat) (c : choice)
    : M unit :=
  match c with
  | Choices (VStr content) =>
      if truthy (VStr content) then
        emit (Log DEBUG ("Analyzing choice " +:+ pretty choice_idx +:+ ": "
                         +:+ py_slice content 0 100 +:+ "...")) ;;
        found <- PIIPresidioDetection.has_pii (detector self) content (threshold self) ;;
        if (found : bool) then
          analysis <- PIIPresidioDetection.get_analysis_summary
                        (detector self) content (threshold self) ;;
          emit (detected_warning choice_idx analysis) ;;
          if block_on_detection self then
            raise (violation self (Summary.entity_types analysis))
          else
            emit (not_blocking_warning analysis)
        else ret tt
      else ret tt
  | _ => ret tt
  end.

(** Returns [None]. *)
Definition async_post_call_success_hook {rt : PyRuntime} (self : t)
    (data : gmap string pyval) (user_api_key_dict : UserAPIKeyAuth)
    (resp : response) : M unit :=
  emit (Log DEBUG "Presidio post-call guardrail: Starting PII analysis on response") ;;
  match resp with
  | ModelResponse choices =>
      for_each (check_choice self) 0 choices ;;
      emit (Log DEBUG "Presidio post-call guardrail: PII analysis completed")
  | OtherResponse _ =>
      emit (Log DEBUG "Response is not a ModelResponse, skipping PII check")
  end.

Definition get_guardrail_info (self : t) : GuardrailInfo.t :=
  GuardrailInfo.Build "presidio_postcall" (language self) (threshold self)
    (length (PIIPresidioDetection.entities_to_detect (detector self)))
    (PIIPresidioDetection.entities_to_detect (detector self))
    (block_on_detection self).

End PIIPresidioPostCallGuardrail.

(** ** Vocabulary of the statements *)

(** The character before the cursor once [taken] has been read. *)
Definition last_seen (prev : option ascii) (taken : list ascii) : option ascii :=
  match last taken with
  | Some c => Some c
  | None => prev
  end.

Definition within (hi : option nat) (n : nat) : Prop :=
  match hi with
  | Some h => (n <= h)%nat
  | None => True
  end.

(** [matches r prev rest prev' rest']: read with [prev] before the cursor,
    [r] matches the prefix of [rest] that ends where [rest'] begins. *)
Inductive matches : regex -> option ascii -> list ascii ->
                    option ascii -> list ascii -> Prop :=
| matches_Eps prev rest :
    matches Eps prev rest prev rest
| matches_Cls p prev c rest :
    p c = true ->
    matches (Cls p) prev (c :: rest) (Some c) rest
| matches_Seq r1 r2 prev rest prev1 rest1 prev2 rest2 :
    matches r1 prev rest prev1 rest1 ->
    matches r2 prev1 rest1 prev2 rest2 ->
    matches (Seq r1 r2) prev rest prev2 rest2
| matches_Alt_l r1 r2 prev rest prev' rest' :
    matches r1 prev rest prev' rest' ->
    matches (Alt r1 r2) prev rest prev' rest'
| matches_Alt_r r1 r2 prev rest prev' rest' :
    matches r2 prev rest prev' rest' ->
    matches (Alt r1 r2) prev rest prev' rest'
| matches_Rep p lo hi prev taken rest :
    Forall (fun c => p c = true) taken ->
    (lo <= length taken)%nat ->
    within hi (length taken) ->
    matches (Rep p lo hi) prev (taken ++ rest) (last_seen prev taken) rest
| matches_Opt_some r prev rest prev' rest' :
    matches r prev rest prev' rest' ->
    matches (Opt r) prev rest prev' rest'
| matches_Opt_none r prev rest :
    matches (Opt r) prev rest prev rest
| matches_WordBoundary prev rest :
    at_boundary prev rest = true ->
    matches WordBoundary prev rest prev rest.

(** [matched] is a match of [r] in [text], between [before] and [after]. *)
Definition occurrence (r : regex) (text : string)
    (before matched after : list ascii) : Prop :=
  list_ascii_of_string text = before ++ matched ++ after
  /\ matches r (last before) (matched ++ after)
               (last_seen (last before) matched) after.

(** [text] contains a match of [r]. *)
Definition occurs (r : regex) (text : string) : Prop :=
  exists before matched after, occurrence r text before matched after.

(** All characters, and inclusion of one class in another. *)
Definition all_ascii : list ascii := map ascii_of_nat (seq 0 256).

Definition class_within (p q : ascii -> bool) : bool :=
  forallb (fun c => implb (p c) (q c)) all_ascii.

(** [needs q r]: by its shape, every match of [r] reads a character of
    class [q]. *)
Fixpoint needs (q : ascii -> bool) (r : regex) : bool :=
  match r with
  | Eps | WordBoundary | Opt _ => false
  | Cls p => class_within p q
  | Seq r1 r2 => needs q r1 || needs q r2
  | Alt r1 r2 => needs q r1 && needs q r2
  | Rep p lo _ => (1 <=? lo)%nat && class_within p q
  end.

(** [s] occurs in [t] as a contiguous piece. *)
Definition str_infix (s t : string) : Prop :=
  exists before after, t = before +:+ s +:+ after.

(** A character that is not whitespace: every match of one of the four
    patterns holds one. *)
Definition not_space (c : ascii) : bool := negb (uni_space c).

(** A text made of whitespace only (the empty text included). *)
Definition whitespace_only (text : string) : Prop :=
  Forall (fun c => uni_space c = true) (list_ascii_of_string text).

(** The events of a trace that are detector or recognizer calls. *)
Definition is_detection (e : event) : bool :=
  match e with
  | DetectorCall _ _ | Analyze _ _ _ => true
  | _ => false
  end.

(** The result of running a computation. *)
Definition result_of {A} (m : M A) (w : world) : outcome A := fst (m w).

(** *** A runtime and engines to evaluate with *)

(** Decimal text of a rational with a finite expansion, as Python prints the
    float written with those digits: 7/10 is 0.7, 1 is 1.0. *)
Fixpoint fraction_digits (fuel : nat) (num den : Z) : string :=
  match fuel with
  | O => ""
  | S fuel' =>
      if (num =? 0)%Z then ""
      else pretty (Z.to_nat (10 * num / den))
           +:+ fraction_digits fuel' ((10 * num) mod den) den
  end.

Definition decimal_str (q : Q) : string :=
  let n := Z.abs (Qnum q) in
  let d := Z.pos (Qden q) in
  let frac := fraction_digits 17 (n mod d) d in
  (if (Qnum q <? 0)%Z then "-" else "")
  +:+ pretty (Z.to_nat (n / d)) +:+ "."
  +:+ (if String.eqb frac "" then "0" else frac).

Program Definition reference_runtime : PyRuntime :=
  {| set_list := remove_dups;
     float_str := decimal_str |}.
Next Obligation. intros l. apply NoDup_remove_dups. Qed.
Next Obligation. intros l x. apply elem_of_remove_dups. Qed.

(** An engine that answers every call with the same results. *)
Definition constant_engine (results : list RecognizerResult.t) : AnalyzerEngine :=
  fun _ _ _ _ => Results results.

(** An engine that is down: every call raises. *)
Definition failing_engine (what : string) : AnalyzerEngine :=
  fun _ _ _ _ => Failure what.

(** An engine that finds what [table] lists for the text, and nothing in a
    text the table does not list. *)
Definition table_engine (table : list (string * list RecognizerResult.t))
    : AnalyzerEngine :=
  fun _ text _ _ =>
    Results (default [] (snd <$> List.find (fun row => String.eqb (fst row) text) table)).

Definition initial_world : world := World [] 0.

(** An email address as the specification words it: a local part over
    [[A-Za-z0-9._%+-]], an [@], domain labels over [[A-Za-z0-9-]] separated
    by dots, and a final label of at least two letters. *)
Definition email_address (addr : list ascii) : Prop :=
  exists local domain final,
    addr = local ++ "@"%char :: domain ++ "."%char :: final
    /\ local <> [] /\ Forall (fun c => PIIRegexDetection.email_local c = true) local
    /\ domain <> [] /\ Forall (fun c => PIIRegexDetection.email_domain c = true) domain
    /\ (2 <= length final)%nat /\ Forall (fun c => is_AZaz c = true) final.

(** The four structured formats of the pattern detector. *)
Definition structured_formats : list regex :=
  [ PIIRegexDetection.email_re; PIIRegexDetection.ssn_re;
    PIIRegexDetection.phone_re; PIIRegexDetection.credit_card_re ].

(** The names [get_detected_types] can report, in the order it appends them. *)
Definition type_order : list string := [ "email"; "ssn"; "phone"; "credit_card" ].

(** Messages as the hooks read them. *)
Definition is_dict (v : pyval) : bool :=
  match v with VDict _ => true | _ => false end.

(** The text of a message: its content when that is a string. *)
Definition text_content (message : pyval) : option string :=
  match message with
  | VDict d => match dict_get d "content" with VStr c => Some c | _ => None end
  | _ => None
  end.

(** A message whose content is absent or not a string. *)
Definition no_text_content (message : pyval) : Prop :=
  is_dict message = true /\ text_content message = None.

(** The texts [has_pii] was called on, in the order of the calls. *)
Definition has_pii_calls (events : list event) : list string :=
  omap (fun e => match e with DetectorCall m_has_pii text => Some text | _ => None end)
       events.

(** A run that returns [value], adds only events that are neither detector
    nor recognizer calls, and leaves the count of recognizer calls as it was. *)
Definition passes_without_detection {A} (m : M A) (value : A) (w : world) : Prop :=
  exists events,
    m w = (Ok value, World (trace w ++ events) (analyses w))
    /\ Forall (fun e => is_detection e = false) events.

(** The world after one more event. *)
Definition logged (e : event) (w : world) : world :=
  World (trace w ++ [e]) (analyses w).

(** [w'] is [w] with more events at the end of its trace. *)
Definition extends (w w' : world) : Prop :=
  exists events, trace w' = trace w ++ events.

(** The text of a choice: its content when that is a non-empty string. *)
Definition choice_text (c : choice) : option string :=
  match c with
  | Choices (VStr s) => if truthy (VStr s) then Some s else None
  | _ => None
  end.

(** Between [w] and [w'], [has_pii] has been called on [texts], in that
    order, and on nothing else. *)
Definition calls_since (w w' : world) (texts : list string) : Prop :=
  exists events, trace w' = trace w ++ events /\ has_pii_calls events = texts.

(** Sample requests and responses. *)
Definition sample_user : UserAPIKeyAuth := {| api_key := "sk-1234" |}.
Definition sample_cache : DualCache := {| cache_name := "default" |}.

Definition user_message (content : pyval) : pyval :=
  VDict (<["role" := VStr "user"]> (<["content" := content]> ∅)).

Definition payload (messages : list pyval) : gmap string pyval :=
  <["model" := VStr "llama3.2-3b"]> (<["messages" := VList messages]> ∅).

Definition content_dict (content : pyval) : gmap string pyval :=
  <["role" := VStr "user"]> (<["content" := content]> ∅).

(** A recognizer that finds an email address, a person and a phone number
    in three sample sentences. *)
Definition sample_engine : AnalyzerEngine :=
  table_engine
    [ ("My email is john.doe@company.com",
       [ RecognizerResult.Build "EMAIL_ADDRESS" 12 32 1 ]);
      ("My name is Sarah Johnson",
       [ RecognizerResult.Build "PERSON" 11 24 (85 # 100) ]);
      ("Call me at 555-123-4567",
       [ RecognizerResult.Build "PHONE_NUMBER" 11 23 (75 # 100) ]) ].

Definition sample_detector : PIIPresidioDetection.t :=
  PIIPresidioDetection.Build "en" PIIPresidioDetection.default_entities sample_engine.

Definition sample_presidio_precall (block : bool) : PIIPresidioPreCallGuardrail.t :=
  PIIPresidioPreCallGuardrail.Build
    (Kwargs.Build None None None (Some block)) "en" (7 # 10) None block sample_detector.

Definition sample_presidio_postcall (block : bool) : PIIPresidioPostCallGuardrail.t :=
  PIIPresidioPostCallGuardrail.Build
    (Kwargs.Build None None None (Some block)) "en" (7 # 10) None block sample_detector.

(** A digit or an at-sign: every match of one of the four patterns holds
    one. *)
Definition digit_or_at (c : ascii) : bool := is_09 c || Ascii.eqb c "@".

Definition no_digit_or_at (s : string) : bool :=
  forallb (fun c => negb (digit_or_at c)) (list_ascii_of_string s).

(** *** Shapes of the structured formats *)

(** [n] characters of class [p]. *)
Definition run (p : ascii -> bool) (n : nat) (l : list ascii) : Prop :=
  length l = n /\ Forall (fun c => p c = true) l.

(** At most one character, of class [p]. *)
Definition optional (p : ascii -> bool) (l : list ascii) : Prop :=
  l = [] \/ exists c, l = [c] /\ p c = true.

(** A social security number as the pattern reads it: 3, 2 and 4 digits with
    an optional hyphen or whitespace character between the groups, or 9
    digits in a row. *)
Definition ssn_number (l : list ascii) : Prop :=
  (exists a s1 b s2 c,
      l = a ++ s1 ++ b ++ s2 ++ c
      /\ run uni_digit 3 a /\ optional PIIRegexDetection.dash_space s1
      /\ run uni_digit 2 b /\ optional PIIRegexDetection.dash_space s2
      /\ run uni_digit 4 c)
  \/ run uni_digit 9 l.

(** The optional country code of a phone number: an optional plus sign, the
    digit 1, an optional separator. *)
Definition country_code (l : list ascii) : Prop :=
  l = []
  \/ exists plus sep,
       l = plus ++ "1"%char :: sep
       /\ optional (Ascii.eqb "+") plus
       /\ optional PIIRegexDetection.dash_dot_space sep.

(** A phone number as the pattern reads it: country code, area code of 3
    digits with an optional parenthesis on either side, then 3 and 4 digits,
    the groups set apart by an optional hyphen, dot or whitespace
    character. *)
Definition phone_number (l : list ascii) : Prop :=
  exists code opening area closing s1 exchange s2 subscriber,
    l = code ++ opening ++ area ++ closing ++ s1 ++ exchange ++ s2 ++ subscriber
    /\ country_code code
    /\ optional (Ascii.eqb "(") opening
    /\ run is_09 3 area
    /\ optional (Ascii.eqb ")") closing
    /\ optional PIIRegexDetection.dash_dot_space s1
    /\ run is_09 3 exchange
    /\ optional PIIRegexDetection.dash_dot_space s2
    /\ run is_09 4 subscriber.

(** [addr] stands in [text] between two word boundaries. *)
Definition stands_in (text : string) (piece : list ascii) : Prop :=
  exists before after,
    list_ascii_of_string text = before ++ piece ++ after
    /\ at_boundary (last before) (piece ++ after) = true
    /\ at_boundary (last_seen (last before) piece) after = true.

(** The country code of the phone pattern, [(?:\+?1[-.\s]?)?]. *)
Definition country_code_re : regex :=
  Opt (seqs [ Opt (lit "+"); lit "1"; Opt (Cls PIIRegexDetection.dash_dot_space) ]).

(** The calls made to the recognizer, with their arguments, in order. *)
Definition recognizer_calls (events : list event) : list (string * list string * string) :=
  omap (fun e => match e with
                 | Analyze text entities language => Some (text, entities, language)
                 | _ => None
                 end) events.

(** *** Questions put to the recognizer *)

(** A run of [m] from [w] that returns a value and, on the way, puts exactly
    the questions [calls] to the recognizer. *)
Definition consults {A} (m : M A) (w : world)
    (calls : list (string * list string * string)) : Prop :=
  exists value events,
    m w = (Ok value, World (trace w ++ events) (analyses w + length calls))
    /\ recognizer_calls events = calls.

(** The question a detector puts to the recognizer about [text]. *)
Definition question (self : PIIPresidioDetection.t) (text : string)
    : string * list string * string :=
  (text, PIIPresidioDetection.entities_to_detect self, PIIPresidioDetection.language self).

(** The finding of the recognizer an entity was built from. *)
Definition finding_of (entity : Entity.t) : RecognizerResult.t :=
  RecognizerResult.Build (Entity.entity_type entity) (Entity.start entity)
                         (Entity.end_ entity) (Entity.score entity).

(** Every method of the detector, run on [text] from [w], puts the questions
    [calls] to the recognizer and returns. *)
Definition every_method_consults {rt : PyRuntime} (self : PIIPresidioDetection.t)
    (text : string) (threshold : Q) (w : world)
    (calls : list (string * list string * string)) : Prop :=
  consults (PIIPresidioDetection.has_pii self text threshold) w calls
  /\ consults (PIIPresidioDetection.get_detected_entities self text threshold) w calls
  /\ consults (PIIPresidioDetection.get_detected_types self text threshold) w calls
  /\ consults (PIIPresidioDetection.get_analysis_summary self text threshold) w calls.

(** *** Recognizers that answer the same every time *)

(** A recognizer whose answer does not depend on the calls made before. *)
Definition stable (engine : AnalyzerEngine) : Prop :=
  forall n m text entities language,
    engine n text entities language = engine m text entities language.

(** What a detector finds in [text] at [threshold] when its recognizer gives
    the answer of its first call. *)
Definition findings (self : PIIPresidioDetection.t) (text : string) (threshold : Q)
    : list Entity.t :=
  if PIIPresidioDetection.blank text then []
  else match PIIPresidioDetection.analyzer self 0 text
               (PIIPresidioDetection.entities_to_detect self)
               (PIIPresidioDetection.language self) with
       | Results results => PIIPresidioDetection.detected text threshold results
       | Failure _ => []
       end.

(** The texts in which such a detector finds something. *)
Definition flagged (self : PIIPresidioDetection.t) (threshold : Q) (text : string) : bool :=
  match findings self text threshold with
  | [] => false
  | _ :: _ => true
  end.

(** A recognizer that is out of service: every call raises. *)
Definition out_of_service (engine : AnalyzerEngine) : Prop :=
  forall n text entities language, exists what,
    engine n text entities language = Failure what.



(** What [for message in _messages] followed by [message.get] raises when
    [_messages] is not a list: a string yields characters and a dictionary
    yields keys, which have no [get]; the other values are not iterable. *)
Definition iteration_error (messages : pyval) : exn :=
  match messages with
  | VStr _ | VDict _ => AttributeError
  | _ => TypeError
  end.

Definition is_list (v : pyval) : bool :=
  match v with VList _ => true | _ => false end.

(** *** Building a contextual guardrail *)

(** The engine a detector ends up with: the one built on the spaCy model,
    else the default one, when it can be built. *)
Definition available (spacy_engine default_engine : string + AnalyzerEngine)
    : option AnalyzerEngine :=
  match spacy_engine, default_engine with
  | inr engine, _ => Some engine
  | inl _, inr engine => Some engine
  | inl _, inl _ => None
  end.

(** What [get_guardrail_info] is to report for the keyword arguments
    [kwargs]: the arguments given, and the documented defaults for the
    others. *)
Definition configured (guardrail_type : string) (kwargs : Kwargs.t) : GuardrailInfo.t :=
  let entity_types :=
    default PIIPresidioDetection.default_entities (Kwargs.entities kwargs) in
  GuardrailInfo.Build guardrail_type
    (default "en" (Kwargs.language kwargs))
    (default (7 # 10) (Kwargs.threshold kwargs))
    (length entity_types) entity_types
    (default true (Kwargs.block_on_detection kwargs)).

(** The warning printed when the spaCy model cannot be loaded. *)
Definition spacy_warning (spacy_engine : string + AnalyzerEngine) : list event :=
  match spacy_engine with
  | inl e => [ Print ("Warning: Could not load spaCy model, using default: " +:+ e) ]
  | inr _ => []
  end.

(** *** Payment card numbers *)

(** Nothing, or [n] characters of class [p]. *)
Definition optional_run (p : ascii -> bool) (n : nat) (l : list ascii) : Prop :=
  l = [] \/ run p n l.

(** Visa: a 4 and 15 more digits in groups of 4, or 18 more in groups of 4
    and a last group of 7, with an optional whitespace character or hyphen
    between the groups of 4. *)
Definition visa_number (l : list ascii) : Prop :=
  exists a s1 b s2 c s3 d e,
    l = "4"%char :: a ++ s1 ++ b ++ s2 ++ c ++ s3 ++ d ++ e
    /\ run is_09 3 a /\ optional PIIRegexDetection.dash_space s1
    /\ run is_09 4 b /\ optional PIIRegexDetection.dash_space s2
    /\ run is_09 4 c /\ optional PIIRegexDetection.dash_space s3
    /\ run is_09 4 d /\ optional_run is_09 3 e.

(** Mastercard: 51 to 55, then 14 digits, in groups of 4. *)
Definition mastercard_number (l : list ascii) : Prop :=
  exists x a s1 b s2 c s3 d,
    l = "5"%char :: x :: a ++ s1 ++ b ++ s2 ++ c ++ s3 ++ d
    /\ in_range 49 53 x = true
    /\ run is_09 2 a /\ optional PIIRegexDetection.dash_space s1
    /\ run is_09 4 b /\ optional PIIRegexDetection.dash_space s2
    /\ run is_09 4 c /\ optional PIIRegexDetection.dash_space s3
    /\ run is_09 4 d.

(** American Express: 34 or 37, then 13 digits, in groups of 4, 6 and 5. *)
Definition amex_number (l : list ascii) : Prop :=
  exists x a s1 b s2 c,
    l = "3"%char :: x :: a ++ s1 ++ b ++ s2 ++ c
    /\ chr_in "47" x = true
    /\ run is_09 2 a /\ optional PIIRegexDetection.dash_space s1
    /\ run is_09 6 b /\ optional PIIRegexDetection.dash_space s2
    /\ run is_09 5 c.

(** The issuer digits of Discover after the 6: 011, or a 5 and two digits. *)
Definition discover_issuer (l : list ascii) : Prop :=
  l = [ "0"; "1"; "1" ]%char \/ exists a, l = "5"%char :: a /\ run is_09 2 a.

(** Discover: 6011 or 65 and two digits, then 12 digits, in groups of 4. *)
Definition discover_number (l : list ascii) : Prop :=
  exists issuer s1 b s2 c s3 d,
    l = "6"%char :: issuer ++ s1 ++ b ++ s2 ++ c ++ s3 ++ d
    /\ discover_issuer issuer /\ optional PIIRegexDetection.dash_space s1
    /\ run is_09 4 b /\ optional PIIRegexDetection.dash_space s2
    /\ run is_09 4 c /\ optional PIIRegexDetection.dash_space s3
    /\ run is_09 4 d.

(** A card number as the pattern reads it. *)
Definition card_number (l : list ascii) : Prop :=
  visa_number l \/ mastercard_number l \/ amex_number l \/ discover_number l.

(** The four alternatives of the card pattern, without the word boundaries. *)
Definition card_issuers_re : regex :=
  alts PIIRegexDetection.visa_re
    [ PIIRegexDetection.mastercard_re; PIIRegexDetection.amex_re;
      PIIRegexDetection.discover_re ].

(** What the pattern detector looks for: an email address, a social security
    number, a phone number or a card number. *)
Definition pii_piece (l : list ascii) : Prop :=
  email_address l \/ ssn_number l \/ phone_number l \/ card_number l.

(** *** Traces of the pattern hooks *)

(** The events the pattern pre-call hook leaves for a message it lets
    pass. *)
Definition regex_precall_events (m : pyval) : list event :=
  match text_content m with
  | Some text => [ DetectorCall m_has_pii text ]
  | None => []
  end.

(** The events the pattern post-call hook leaves for a choice it lets
    pass. *)
Definition regex_postcall_events (c : choice) : list event :=
  match c with
  | Choices _ =>
      LogArgs DEBUG "Post-call PII check choice: %s" [ArgChoice c]
      :: match choice_text c with
         | Some text => [ DetectorCall m_has_pii text ]
         | None => []
         end
  | StreamingChoices _ => []
  end.

(** * Properties *)

(** ** The matcher computes [matches] *)

Lemma last_seen_nil prev : last_seen prev [] = prev.
Proof. reflexivity. Qed.

Lemma last_seen_cons prev c taken :
  last_seen prev (c :: taken) = last_seen (Some c) taken.
Proof.
  unfold last_seen. destruct taken as [|c' taken']; [reflexivity|].
  change (last (c :: c' :: taken')) with (last (c' :: taken')).
  destruct (last (c' :: taken')) eqn:E; [reflexivity|].
  apply last_None in E. discriminate.
Qed.

Lemma last_seen_app prev xs ys :
  last_seen prev (xs ++ ys) = last_seen (last_seen prev xs) ys.
Proof.
  revert prev. induction xs as [|x xs IH]; intros prev; [reflexivity|].
  rewrite <- app_comm_cons, !last_seen_cons. apply IH.
Qed.

Lemma last_seen_None taken : last_seen None taken = last taken.
Proof. unfold last_seen. destruct (last taken); reflexivity. Qed.

Ltac fold_bool :=
  repeat match goal with
  | |- context [if ?a then ?b else false] => change (if a then b else false) with (a && b)
  | |- context [if ?a then true else ?b] => change (if a then true else b) with (a || b)
  end.

Lemma within_step hi n :
  within hi (S n) <-> may_take hi = true /\ within (hi_pred hi) n.
Proof.
  destruct hi as [[|h]|]; simpl; split; try lia; intuition (try discriminate; lia).
Qed.

Lemma rep_cls_spec p k rest : forall lo hi prev,
  rep_cls p lo hi prev rest k = true <->
  exists taken rest',
    rest = taken ++ rest'
    /\ Forall (fun c => p c = true) taken
    /\ (lo <= length taken)%nat
    /\ within hi (length taken)
    /\ k (last_seen prev taken) rest' = true.
Proof.
  induction rest as [|c rest IH]; intros lo hi prev.
  - destruct lo as [|lo]; simpl; split.
    + intros Hk. exists [], []. repeat split; auto.
      destruct hi; simpl; lia.
    + intros (taken & rest' & E & _ & _ & _ & Hk).
      symmetry in E. apply app_eq_nil in E as [-> ->]. exact Hk.
    + discriminate.
    + intros (taken & rest' & E & _ & Hlo & _).
      symmetry in E. apply app_eq_nil in E as [-> ->]. simpl in Hlo. lia.
  - assert (Hmore :
      may_take hi && (p c && rep_cls p (Nat.pred lo) (hi_pred hi) (Some c) rest k) = true <->
      exists taken rest',
        c :: rest = (c :: taken) ++ rest'
        /\ Forall (fun c => p c = true) (c :: taken)
        /\ (lo <= length (c :: taken))%nat
        /\ within hi (length (c :: taken))
        /\ k (last_seen prev (c :: taken)) rest' = true).
    { rewrite !andb_true_iff, IH. split.
      - intros [Hhi [Hp (taken & rest' & -> & Hall & Hlo & Hw & Hk)]].
        exists taken, rest'. rewrite last_seen_cons. simpl.
        repeat split; auto; [lia|]. apply within_step. auto.
      - intros (taken & rest' & E & Hall & Hlo & Hw & Hk).
        simpl in E. injection E as ->. simpl in Hlo, Hw.
        apply within_step in Hw as [Hhi Hw]. rewrite last_seen_cons in Hk.
        inversion Hall; subst.
        split; [assumption|]. split; [assumption|]. exists taken, rest'.
        repeat split; auto. lia. }
    destruct lo as [|lo].
    + change (rep_cls p 0 hi prev (c :: rest) k)
        with (may_take hi && (p c && rep_cls p (Nat.pred 0) (hi_pred hi) (Some c) rest k)
              || k prev (c :: rest)).
      rewrite orb_true_iff, Hmore. split.
      * intros [(taken & rest' & H)|Hk].
        -- exists (c :: taken), rest'. exact H.
        -- exists [], (c :: rest). repeat split; auto.
           destruct hi; simpl; lia.
      * intros (taken & rest' & E & Hall & Hlo & Hw & Hk).
        destruct taken as [|c' taken].
        -- right. simpl in E. subst rest'. exact Hk.
        -- left. simpl in E. injection E as <- ->.
           exists taken, rest'. repeat split; auto.
    + change (rep_cls p (S lo) hi prev (c :: rest) k)
        with (may_take hi
              && (p c && rep_cls p (Nat.pred (S lo)) (hi_pred hi) (Some c) rest k)).
      rewrite Hmore. split.
      * intros (taken & rest' & H). exists (c :: taken), rest'. exact H.
      * intros (taken & rest' & E & Hall & Hlo & Hw & Hk).
        destruct taken as [|c' taken]; [simpl in Hlo; lia|].
        simpl in E. injection E as <- ->.
        exists taken, rest'. repeat split; auto.
Qed.

Lemma accepts_spec r : forall prev rest k,
  accepts r prev rest k = true <->
  exists prev' rest', matches r prev rest prev' rest' /\ k prev' rest' = true.
Proof.
  induction r as [|p|r1 IH1 r2 IH2|r1 IH1 r2 IH2|p lo hi|r IH|]; intros prev rest k;
    simpl; fold_bool.
  - split.
    + intros Hk. exists prev, rest. split; [constructor|exact Hk].
    + intros (prev' & rest' & Hm & Hk). inversion Hm; subst. exact Hk.
  - destruct rest as [|c rest].
    + split; [discriminate|]. intros (prev' & rest' & Hm & _). inversion Hm.
    + fold_bool. rewrite andb_true_iff. split.
      * intros [Hp Hk]. exists (Some c), rest. split; [constructor; exact Hp|exact Hk].
      * intros (prev' & rest' & Hm & Hk). inversion Hm; subst. auto.
  - rewrite IH1. split.
    + intros (prev1 & rest1 & Hm1 & H2). apply IH2 in H2 as (prev2 & rest2 & Hm2 & Hk).
      exists prev2, rest2. split; [econstructor; eassumption|exact Hk].
    + intros (prev2 & rest2 & Hm & Hk). inversion Hm; subst.
      eexists _, _. split; [eassumption|]. apply IH2. eauto.
  - rewrite orb_true_iff, IH1, IH2. split.
    + intros [(prev' & rest' & Hm & Hk)|(prev' & rest' & Hm & Hk)];
        exists prev', rest'; split; auto using matches_Alt_l, matches_Alt_r.
    + intros (prev' & rest' & Hm & Hk). inversion Hm; subst; [left|right]; eauto.
  - rewrite rep_cls_spec. split.
    + intros (taken & rest' & -> & Hall & Hlo & Hw & Hk).
      eexists _, _. split; [apply matches_Rep; eassumption|exact Hk].
    + intros (prev' & rest' & Hm & Hk). inversion Hm; subst.
      eexists _, _. repeat split; eauto.
  - rewrite orb_true_iff, IH. split.
    + intros [(prev' & rest' & Hm & Hk)|Hk].
      * exists prev', rest'. split; [apply matches_Opt_some; exact Hm|exact Hk].
      * exists prev, rest. split; [apply matches_Opt_none|exact Hk].
    + intros (prev' & rest' & Hm & Hk). inversion Hm; subst; [left|right]; eauto.
  - rewrite andb_true_iff. split.
    + intros [Hb Hk]. exists prev, rest. split; [constructor; exact Hb|exact Hk].
    + intros (prev' & rest' & Hm & Hk). inversion Hm; subst. auto.
Qed.

(** A match reads a prefix of the text and ends on its last character. *)
Lemma matches_consumes r prev rest prev' rest' :
  matches r prev rest prev' rest' ->
  exists taken, rest = taken ++ rest' /\ prev' = last_seen prev taken.
Proof.
  induction 1 as [prev rest|p prev c rest Hp
                  |r1 r2 prev rest prev1 rest1 prev2 rest2 _ IH1 _ IH2
                  |r1 r2 prev rest prev' rest' _ IH|r1 r2 prev rest prev' rest' _ IH
                  |p lo hi prev taken rest Hall Hlo Hw
                  |r prev rest prev' rest' _ IH|r prev rest|prev rest Hb].
  - exists []. auto.
  - exists [c]. auto.
  - destruct IH1 as (t1 & -> & ->), IH2 as (t2 & -> & ->).
    exists (t1 ++ t2). rewrite last_seen_app, app_assoc. auto.
  - exact IH.
  - exact IH.
  - exists taken. auto.
  - exact IH.
  - exists []. auto.
  - exists []. auto.
Qed.

Lemma search_from_spec r rest : forall prev,
  search_from r prev rest = true <->
  exists skipped rest1 prev' rest',
    rest = skipped ++ rest1
    /\ matches r (last_seen prev skipped) rest1 prev' rest'.
Proof.
  induction rest as [|c rest IH]; intros prev;
    [ change (search_from r prev [])
        with (accepts r prev [] (fun _ _ => true) || false)
    | change (search_from r prev (c :: rest))
        with (accepts r prev (c :: rest) (fun _ _ => true) || search_from r (Some c) rest) ];
    rewrite orb_true_iff, accepts_spec.
  - split.
    + intros [(prev' & rest' & Hm & _)|?]; [|discriminate].
      exists [], [], prev', rest'. auto.
    + intros (skipped & rest1 & prev' & rest' & E & Hm).
      symmetry in E. apply app_eq_nil in E as [-> ->]. left. eauto.
  - rewrite IH. split.
    + intros [(prev' & rest' & Hm & _)|(skipped & rest1 & prev' & rest' & -> & Hm)].
      * exists [], (c :: rest), prev', rest'. auto.
      * exists (c :: skipped), rest1, prev', rest'.
        rewrite last_seen_cons. auto.
    + intros (skipped & rest1 & prev' & rest' & E & Hm).
      destruct skipped as [|c' skipped].
      * left. simpl in E. subst rest1. eauto.
      * right. simpl in E. injection E as <- ->.
        rewrite last_seen_cons in Hm. eauto 6.
Qed.

(** [pattern.search(text)] succeeds exactly when the text contains a match. *)
Lemma search_occurs r text : search r text = true <-> occurs r text.
Proof.
  unfold search, occurs, occurrence. rewrite search_from_spec. split.
  - intros (skipped & rest1 & prev' & rest' & E & Hm).
    rewrite last_seen_None in Hm.
    destruct (matches_consumes _ _ _ _ _ Hm) as (taken & -> & ->).
    exists skipped, taken, rest'. auto.
  - intros (before & matched & after & E & Hm).
    exists before, (matched ++ after), (last_seen (last before) matched), after.
    rewrite last_seen_None. auto.
Qed.

(** ** The shape of a pattern bounds what it can match *)

Lemma in_all_ascii c : In c all_ascii.
Proof.
  unfold all_ascii. apply in_map_iff. exists (nat_of_ascii c). split.
  - apply ascii_nat_embedding.
  - apply in_seq. pose proof (nat_ascii_bounded c). lia.
Qed.

Lemma class_within_spec p q :
  class_within p q = true -> forall c, p c = true -> q c = true.
Proof.
  unfold class_within. rewrite forallb_forall. intros H c Hp.
  specialize (H c (in_all_ascii c)). rewrite Hp in H. exact H.
Qed.

Lemma needs_sound q r prev rest prev' rest' :
  needs q r = true ->
  matches r prev rest prev' rest' ->
  exists taken, rest = taken ++ rest' /\ Exists (fun c => q c = true) taken.
Proof.
  intros Hn Hm. induction Hm as [prev rest|p prev c rest Hp
                  |r1 r2 prev rest prev1 rest1 prev2 rest2 Hm1 IH1 Hm2 IH2
                  |r1 r2 prev rest prev' rest' _ IH|r1 r2 prev rest prev' rest' _ IH
                  |p lo hi prev taken rest Hall Hlo Hw
                  |r prev rest prev' rest' _ IH|r prev rest|prev rest Hb];
    simpl in Hn; try discriminate.
  - exists [c]. split; [reflexivity|]. constructor.
    eapply class_within_spec; eassumption.
  - destruct (matches_consumes _ _ _ _ _ Hm1) as (t1 & E1 & _).
    destruct (matches_consumes _ _ _ _ _ Hm2) as (t2 & E2 & _).
    exists (t1 ++ t2). split; [subst; apply app_assoc|].
    apply Exists_app. apply orb_true_iff in Hn as [Hn|Hn].
    + left. destruct (IH1 Hn) as (t & E & Hex). subst rest rest1.
      apply app_inv_tail in E. subst t. exact Hex.
    + right. destruct (IH2 Hn) as (t & E & Hex). subst rest1.
      apply app_inv_tail in E. subst t. exact Hex.
  - apply andb_true_iff in Hn as [Hn _]. auto.
  - apply andb_true_iff in Hn as [_ Hn]. auto.
  - apply andb_true_iff in Hn as [Hlo' Hcls].
    exists taken. split; [reflexivity|].
    destruct taken as [|c taken]; [destruct lo; [discriminate|simpl in Hlo; lia]|].
    apply Exists_cons_hd. inversion Hall; subst.
    eapply class_within_spec; eassumption.
Qed.

(** A text in which a pattern occurs holds a character the pattern needs. *)
Lemma occurs_needs q r text :
  needs q r = true ->
  occurs r text ->
  Exists (fun c => q c = true) (list_ascii_of_string text).
Proof.
  intros Hn (before & matched & after & E & Hm).
  destruct (needs_sound _ _ _ _ _ _ Hn Hm) as (taken & E' & Hex).
  apply app_inv_tail in E'. subst taken.
  rewrite E. apply Exists_app. right. apply Exists_app. left. exact Hex.
Qed.

(** The matched text itself holds such a character. *)
Lemma occurrence_needs q r text before matched after :
  needs q r = true ->
  occurrence r text before matched after ->
  Exists (fun c => q c = true) matched.
Proof.
  intros Hn (E & Hm).
  destruct (needs_sound _ _ _ _ _ _ Hn Hm) as (taken & E' & Hex).
  apply app_inv_tail in E'. subst taken. exact Hex.
Qed.

Lemma formats_need_non_space :
  forallb (needs not_space) structured_formats = true.
Proof. vm_compute. reflexivity. Qed.

Lemma whitespace_only_no_occurrence r text :
  needs not_space r = true -> whitespace_only text -> ~ occurs r text.
Proof.
  intros Hn Hws Hocc. pose proof (occurs_needs _ _ _ Hn Hocc) as Hex.
  apply Exists_exists in Hex as (c & Hin & Hc).
  unfold whitespace_only in Hws. rewrite Forall_forall in Hws.
  apply Hws in Hin. unfold not_space in Hc. rewrite Hin in Hc. discriminate.
Qed.

Lemma search_false r text : ~ occurs r text -> search r text = false.
Proof.
  intros H. destruct (search r text) eqn:E; [|reflexivity].
  apply search_occurs in E. contradiction.
Qed.

(** ** The pattern detector *)

Lemma regex_has_pii_types self text :
  PIIRegexDetection.has_pii self text = true <->
  PIIRegexDetection.get_detected_types self text <> [].
Proof.
  unfold PIIRegexDetection.has_pii, PIIRegexDetection.get_detected_types.
  destruct text as [|c text]; [split; [discriminate|congruence]|].
  destruct (search (PIIRegexDetection.email_pattern self) _),
           (search (PIIRegexDetection.ssn_pattern self) _),
           (search (PIIRegexDetection.phone_pattern self) _),
           (search (PIIRegexDetection.credit_card_pattern self) _);
    simpl; split; congruence.
Qed.

Lemma regex_types_sublist self text :
  sublist (PIIRegexDetection.get_detected_types self text) type_order.
Proof.
  unfold PIIRegexDetection.get_detected_types, type_order.
  destruct text as [|c text]; [apply sublist_nil_l|].
  destruct (search (PIIRegexDetection.email_pattern self) _),
           (search (PIIRegexDetection.ssn_pattern self) _),
           (search (PIIRegexDetection.phone_pattern self) _),
           (search (PIIRegexDetection.credit_card_pattern self) _);
    simpl;
    repeat first [ apply sublist_nil_l | apply sublist_skip | apply sublist_cons ].
Qed.

Lemma type_order_NoDup : NoDup type_order.
Proof. unfold type_order. apply (bool_decide_unpack _). vm_compute. exact I. Qed.

(** C9. For every text, [has_pii] of the pattern detector is true exactly
    when [get_detected_types] is not empty, and [get_detected_types] is a
    duplicate-free subsequence of email, ssn, phone, credit_card in that
    order. *)
Theorem C9_types_agree_with_has_pii (self : PIIRegexDetection.t) (text : string) :
  (PIIRegexDetection.has_pii self text = true <->
   PIIRegexDetection.get_detected_types self text <> [])
  /\ NoDup (PIIRegexDetection.get_detected_types self text)
  /\ sublist (PIIRegexDetection.get_detected_types self text) type_order.
Proof.
  split; [apply regex_has_pii_types|]. split.
  - eapply sublist_NoDup; [apply type_order_NoDup|apply regex_types_sublist].
  - apply regex_types_sublist.
Qed.

(** A match found from [last before] over [matched ++ after] is an
    occurrence of the pattern. *)
Lemma occurrence_intro r text before matched after prev' :
  list_ascii_of_string text = before ++ matched ++ after ->
  matches r (last before) (matched ++ after) prev' after ->
  occurrence r text before matched after.
Proof.
  intros E Hm. split; [exact E|].
  destruct (matches_consumes _ _ _ _ _ Hm) as (taken & E' & Hprev).
  apply app_inv_tail in E'. subst taken prev'. exact Hm.
Qed.

Lemma last_seen_nonempty prev taken :
  taken <> [] -> last_seen prev taken = last taken.
Proof.
  intros Hne. unfold last_seen. destruct (last taken) eqn:E; [reflexivity|].
  apply last_None in E. contradiction.
Qed.

Lemma last_as_last_seen (l : list ascii) : last l = last_seen None l.
Proof. symmetry. apply last_seen_None. Qed.

(** An address standing between two word boundaries is a match of the email
    pattern. *)
Lemma email_occurrence text before addr after :
  list_ascii_of_string text = before ++ addr ++ after ->
  email_address addr ->
  at_boundary (last before) (addr ++ after) = true ->
  at_boundary (last addr) after = true ->
  occurrence PIIRegexDetection.email_re text before addr after.
Proof.
  intros E (local & domain & final & -> & Hl & Hlocal & Hd & Hdomain & Hf & Hfinal) Hb1 Hb2.
  assert (Hfne : final <> []) by (destruct final; [simpl in Hf; lia|discriminate]).
  eapply occurrence_intro; [exact E|].
  unfold PIIRegexDetection.email_re, seqs, at_least, lit. simpl.
  eapply matches_Seq; [apply matches_WordBoundary; exact Hb1|].
  rewrite <- app_assoc. simpl. rewrite <- app_assoc. simpl.
  eapply matches_Seq.
  { apply matches_Rep; [exact Hlocal| |exact I].
    destruct local; [contradiction|simpl; lia]. }
  eapply matches_Seq; [apply matches_Cls; reflexivity|].
  eapply matches_Seq.
  { apply matches_Rep; [exact Hdomain| |exact I].
    destruct domain; [contradiction|simpl; lia]. }
  eapply matches_Seq; [apply matches_Cls; reflexivity|].
  eapply matches_Seq.
  { apply matches_Rep; [exact Hfinal|exact Hf|exact I]. }
  eapply matches_Seq; [|apply matches_Eps].
  apply matches_WordBoundary.
  rewrite last_seen_nonempty by exact Hfne.
  rewrite last_as_last_seen in Hb2.
  rewrite last_seen_app, last_seen_cons, last_seen_app, last_seen_cons in Hb2.
  rewrite last_seen_nonempty in Hb2 by exact Hfne. exact Hb2.
Qed.

Lemma email_occurs text before addr after :
  list_ascii_of_string text = before ++ addr ++ after ->
  email_address addr ->
  at_boundary (last before) (addr ++ after) = true ->
  at_boundary (last addr) after = true ->
  occurs PIIRegexDetection.email_re text.
Proof.
  intros E Haddr Hb1 Hb2. exists before, addr, after.
  apply email_occurrence; assumption.
Qed.

Lemma text_with_at_sign_nonempty text before addr after :
  list_ascii_of_string text = before ++ addr ++ after ->
  email_address addr -> text <> "".
Proof.
  intros E (local & domain & final & -> & _) ->. simpl in E.
  destruct before; [|discriminate]. destruct local; discriminate.
Qed.

Lemma email_detected text before addr after :
  list_ascii_of_string text = before ++ addr ++ after ->
  email_address addr ->
  at_boundary (last before) (addr ++ after) = true ->
  at_boundary (last addr) after = true ->
  PIIRegexDetection.has_pii PIIRegexDetection.init text = true
  /\ "email" ∈ PIIRegexDetection.get_detected_types PIIRegexDetection.init text.
Proof.
  intros E Haddr Hb1 Hb2.
  pose proof (email_occurs _ _ _ _ E Haddr Hb1 Hb2) as Hocc.
  apply search_occurs in Hocc.
  pose proof (text_with_at_sign_nonempty _ _ _ _ E Haddr) as Hne.
  unfold PIIRegexDetection.has_pii, PIIRegexDetection.get_detected_types.
  destruct text as [|c text]; [contradiction|].
  simpl PIIRegexDetection.email_pattern. rewrite Hocc. split; [reflexivity|].
  apply elem_of_app. left. apply list_elem_of_singleton. reflexivity.
Qed.

Lemma no_occurrence_no_pii text :
  Forall (fun r => ~ occurs r text) structured_formats ->
  PIIRegexDetection.has_pii PIIRegexDetection.init text = false.
Proof.
  intros Hnone. unfold structured_formats in Hnone.
  inversion Hnone as [|? ? H1 Hnone1]; subst.
  inversion Hnone1 as [|? ? H2 Hnone2]; subst.
  inversion Hnone2 as [|? ? H3 Hnone3]; subst.
  inversion Hnone3 as [|? ? H4 _]; subst.
  unfold PIIRegexDetection.has_pii. destruct text as [|c text]; [reflexivity|].
  simpl. rewrite (search_false _ _ H1), (search_false _ _ H2),
    (search_false _ _ H3), (search_false _ _ H4). reflexivity.
Qed.





(** ** Blank texts *)

Lemma lstrip_whitespace cs :
  Forall (fun c => uni_space c = true) cs -> lstrip cs = [].
Proof.
  induction 1 as [|c cs Hc _ IH]; [reflexivity|]. simpl. rewrite Hc. exact IH.
Qed.

Lemma blank_whitespace_only text :
  whitespace_only text -> PIIPresidioDetection.blank text = true.
Proof.
  unfold whitespace_only, PIIPresidioDetection.blank, py_strip. intros Hws.
  rewrite (lstrip_whitespace _ Hws). simpl. apply orb_true_r.
Qed.

(** C8. On an empty or whitespace-only text [has_pii] is false for both
    detectors, and the contextual detector returns without a call to the
    recognizer: the only event is the entry into [has_pii], and the count of
    recognizer calls is unchanged. *)
Theorem C8_blank_text_has_no_pii (text : string) :
  whitespace_only text ->
  PIIRegexDetection.has_pii PIIRegexDetection.init text = false
  /\ forall (self : PIIPresidioDetection.t) (threshold : Q) (w : world),
       PIIPresidioDetection.has_pii self text threshold w
       = (Ok false, World (trace w ++ [DetectorCall m_has_pii text]) (analyses w)).
Proof.
  intros Hws. split.
  - apply no_occurrence_no_pii.
    pose proof formats_need_non_space as Hn. unfold structured_formats in *.
    simpl in Hn. repeat (apply andb_true_iff in Hn as [? Hn]).
    repeat constructor; apply whitespace_only_no_occurrence; assumption.
  - intros self threshold w.
    unfold PIIPresidioDetection.has_pii, called, bind, emit, ret.
    rewrite (blank_whitespace_only _ Hws). reflexivity.
Qed.

Lemma C8_blank_text_has_no_pii_witness :
  PIIRegexDetection.has_pii PIIRegexDetection.init "   " = false
  /\ forall (self : PIIPresidioDetection.t) (threshold : Q) (w : world),
       PIIPresidioDetection.has_pii self "   " threshold w
       = (Ok false, World (trace w ++ [DetectorCall m_has_pii "   "]) (analyses w)).
Proof.
  apply (C8_blank_text_has_no_pii "   "). repeat constructor.
Defined.

(** ** The contextual detector *)

Ltac run_detector :=
  unfold PIIPresidioDetection.get_detected_types, PIIPresidioDetection.get_analysis_summary,
    PIIPresidioDetection.has_pii, PIIPresidioDetection.get_detected_entities,
    called, analyze, bind, emit, ret, result_of; simpl.

(** C5. When the recognizer raises during the analysis call, the detector
    catches the failure: [has_pii] returns false, [get_detected_entities]
    returns the empty list, nothing is raised, and the failure is printed. *)
Theorem C5_analysis_failure_is_no_pii
    (self : PIIPresidioDetection.t) (text : string) (threshold : Q) (w : world)
    (what : string) :
  PIIPresidioDetection.blank text = false ->
  PIIPresidioDetection.analyzer self (analyses w) text
    (PIIPresidioDetection.entities_to_detect self) (PIIPresidioDetection.language self)
  = Failure what ->
  PIIPresidioDetection.has_pii self text threshold w
  = (Ok false,
     World (trace w ++ [ DetectorCall m_has_pii text;
                         Analyze text (PIIPresidioDetection.entities_to_detect self)
                                 (PIIPresidioDetection.language self);
                         Print ("Error during Presidio analysis: " +:+ what) ])
           (S (analyses w)))
  /\ PIIPresidioDetection.get_detected_entities self text threshold w
  = (Ok [],
     World (trace w ++ [ DetectorCall m_get_detected_entities text;
                         Analyze text (PIIPresidioDetection.entities_to_detect self)
                                 (PIIPresidioDetection.language self);
                         Print ("Error during Presidio analysis: " +:+ what) ])
           (S (analyses w))).
Proof.
  intros Hblank Hfail. run_detector. rewrite Hblank. simpl. rewrite Hfail. simpl.
  rewrite <- !app_assoc. simpl. split; reflexivity.
Qed.

Lemma C5_analysis_failure_is_no_pii_witness :
  let self := PIIPresidioDetection.Build "en" PIIPresidioDetection.default_entities
                (failing_engine "connection refused") in
  result_of (PIIPresidioDetection.has_pii self "My name is Sarah Johnson" (7 # 10))
            initial_world = Ok false
  /\ result_of (PIIPresidioDetection.get_detected_entities self
                  "My name is Sarah Johnson" (7 # 10)) initial_world = Ok [].
Proof.
  intros self.
  destruct (C5_analysis_failure_is_no_pii self "My name is Sarah Johnson" (7 # 10)
              initial_world "connection refused") as [H1 H2].
  - reflexivity.
  - reflexivity.
  - unfold result_of. rewrite H1, H2. split; reflexivity.
Defined.

(** Raising the threshold keeps a part of the findings. *)
Lemma score_ge_mono (score t1 t2 : Q) :
  (t1 <= t2)%Q -> score_ge score t2 = true -> score_ge score t1 = true.
Proof.
  unfold score_ge. rewrite !Qle_bool_iff. intros H12 H2.
  eapply Qle_trans; eassumption.
Qed.

Lemma filter_sublist {A} (p1 p2 : A -> bool) (l : list A) :
  (forall x, p2 x = true -> p1 x = true) ->
  sublist (List.filter p2 l) (List.filter p1 l).
Proof.
  intros Himp. induction l as [|x l IH]; simpl; [constructor|].
  destruct (p2 x) eqn:E2.
  - rewrite (Himp _ E2). apply sublist_skip, IH.
  - destruct (p1 x); [apply sublist_cons, IH|exact IH].
Qed.

Lemma map_sublist {A B} (f : A -> B) (l1 l2 : list A) :
  sublist l1 l2 -> sublist (map f l1) (map f l2).
Proof.
  induction 1; simpl; [constructor|apply sublist_skip|apply sublist_cons]; assumption.
Qed.

Lemma detected_mono text (t1 t2 : Q) results :
  (t1 <= t2)%Q ->
  sublist (PIIPresidioDetection.detected text t2 results)
          (PIIPresidioDetection.detected text t1 results).
Proof.
  intros H12. unfold PIIPresidioDetection.detected.
  apply map_sublist, filter_sublist. intros x. apply score_ge_mono, H12.
Qed.

(** C7. Threshold monotonicity: for a fixed text and thresholds t1 <= t2,
    when the recognizer gives the same raw answer to both calls,
    [get_detected_entities] at t2 returns a subsequence of what it returns at
    t1, hence no more entities. *)
Theorem C7_threshold_monotonicity
    (self : PIIPresidioDetection.t) (text : string) (t1 t2 : Q) (w1 w2 : world) :
  (t1 <= t2)%Q ->
  PIIPresidioDetection.analyzer self (analyses w1) text
    (PIIPresidioDetection.entities_to_detect self) (PIIPresidioDetection.language self)
  = PIIPresidioDetection.analyzer self (analyses w2) text
    (PIIPresidioDetection.entities_to_detect self) (PIIPresidioDetection.language self) ->
  exists found1 found2,
    result_of (PIIPresidioDetection.get_detected_entities self text t1) w1 = Ok found1
    /\ result_of (PIIPresidioDetection.get_detected_entities self text t2) w2 = Ok found2
    /\ (length found2 <= length found1)%nat
    /\ sublist found2 found1
    /\ found2 ⊆ found1.
Proof.
  intros H12 Hsame. run_detector.
  destruct (PIIPresidioDetection.blank text).
  - exists [], []. simpl. repeat split; auto; constructor.
  - simpl. rewrite Hsame.
    destruct (PIIPresidioDetection.analyzer self (analyses w2) text _ _) as [results|what];
      simpl.
    + eexists _, _. split; [reflexivity|]. split; [reflexivity|].
      pose proof (detected_mono text t1 t2 results H12) as Hsub.
      split; [apply sublist_length, Hsub|]. split; [exact Hsub|].
      apply sublist_subseteq, Hsub.
    + exists [], []. repeat split; auto; constructor.
Qed.

Lemma C7_threshold_monotonicity_witness :
  let self := PIIPresidioDetection.Build "en" PIIPresidioDetection.default_entities
                (constant_engine [ RecognizerResult.Build "PERSON" 4 20 (85 # 100);
                                   RecognizerResult.Build "LOCATION" 26 32 (6 # 10) ]) in
  exists found1 found2,
    result_of (PIIPresidioDetection.get_detected_entities self
                 "Dr. Amanda Rodriguez from Boston called" (5 # 10)) initial_world = Ok found1
    /\ result_of (PIIPresidioDetection.get_detected_entities self
                 "Dr. Amanda Rodriguez from Boston called" (7 # 10)) initial_world = Ok found2
    /\ (length found2 <= length found1)%nat
    /\ sublist found2 found1
    /\ found2 ⊆ found1.
Proof.
  intros self.
  apply (C7_threshold_monotonicity self "Dr. Amanda Rodriguez from Boston called"
           (5 # 10) (7 # 10) initial_world initial_world).
  - unfold Qle. simpl. lia.
  - reflexivity.
Defined.

(** What [get_detected_entities] returns depends on the world only through
    the number of recognizer calls made so far. *)
Lemma get_detected_entities_result self text threshold w :
  result_of (PIIPresidioDetection.get_detected_entities self text threshold) w
  = Ok (if PIIPresidioDetection.blank text then []
        else match PIIPresidioDetection.analyzer self (analyses w) text
                     (PIIPresidioDetection.entities_to_detect self)
                     (PIIPresidioDetection.language self) with
             | Results results => PIIPresidioDetection.detected text threshold results
             | Failure _ => []
             end).
Proof.
  run_detector. destruct (PIIPresidioDetection.blank text); [reflexivity|]. simpl.
  destruct (PIIPresidioDetection.analyzer self (analyses w) text _ _); reflexivity.
Qed.

Lemma elem_of_map_iff {A B} (f : A -> B) (l : list A) (y : B) :
  y ∈ map f l <-> exists x, x ∈ l /\ f x = y.
Proof.
  rewrite list_elem_of_In, in_map_iff. split; intros (x & H1 & H2); exists x.
  - split; [apply list_elem_of_In; exact H2|exact H1].
  - split; [exact H2|apply list_elem_of_In; exact H1].
Qed.

(** C3, as the code has it.  The summary of [get_analysis_summary] has
    [has_pii] equal to (number of entities > 0), [entity_count] equal to the
    number of entities, and [entity_types] the duplicate-free set of the
    entity types exactly as the recognizer spelled them; the lower-cased set
    is what [get_detected_types] returns for the same entities. *)
Theorem C3_summary_invariants {rt : PyRuntime}
    (self : PIIPresidioDetection.t) (text : string) (threshold : Q) (w : world) :
  exists (s : Summary.t) (types : list string),
    result_of (PIIPresidioDetection.get_analysis_summary self text threshold) w = Ok s
    /\ result_of (PIIPresidioDetection.get_detected_entities self text threshold) w
       = Ok (Summary.entities s)
    /\ Summary.has_pii s = (0 <? length (Summary.entities s))%nat
    /\ Summary.entity_count s = length (Summary.entities s)
    /\ NoDup (Summary.entity_types s)
    /\ (forall ty, ty ∈ Summary.entity_types s <->
                   exists e, e ∈ Summary.entities s /\ Entity.entity_type e = ty)
    /\ result_of (PIIPresidioDetection.get_detected_types self text threshold) w = Ok types
    /\ NoDup types
    /\ (forall ty, ty ∈ types <->
                   exists e, e ∈ Summary.entities s
                             /\ py_lower (Entity.entity_type e) = ty).
Proof.
  pose proof (get_detected_entities_result self text threshold w) as He.
  set (found := if PIIPresidioDetection.blank text then [] else _) in He.
  exists (Summary.Build (0 <? length found)%nat (length found)
                        (set_list (map Entity.entity_type found)) found),
         (set_list (map (fun e => py_lower (Entity.entity_type e)) found)).
  simpl. split; [|split; [exact He|]].
  - revert He. subst found. run_detector.
    destruct (PIIPresidioDetection.blank text); [reflexivity|]. simpl.
    destruct (PIIPresidioDetection.analyzer self (analyses w) text _ _); reflexivity.
  - split; [reflexivity|]. split; [reflexivity|]. split; [apply set_list_NoDup|].
    split; [intros ty; rewrite set_list_elem; apply elem_of_map_iff|].
    split; [|split; [apply set_list_NoDup|
                     intros ty; rewrite set_list_elem; apply elem_of_map_iff]].
    revert He. subst found. run_detector.
    destruct (PIIPresidioDetection.blank text); [reflexivity|]. simpl.
    destruct (PIIPresidioDetection.analyzer self (analyses w) text _ _); reflexivity.
Qed.

(** C3 as the specification states it fails: a finding of type PERSON gives
    the summary the entity type PERSON, in capitals, not its lower-cased
    form. *)
Lemma C3_counterexample :
  let self := PIIPresidioDetection.Build "en" PIIPresidioDetection.default_entities
                (constant_engine [ RecognizerResult.Build "PERSON" 11 24 (85 # 100) ]) in
  exists s,
    result_of (PIIPresidioDetection.get_analysis_summary (rt := reference_runtime)
                 self "My name is Sarah Johnson" (7 # 10)) initial_world = Ok s
    /\ Summary.entities s
       = [ Entity.Build "PERSON" 11 24 (85 # 100) "Sarah Johnson" ]
    /\ Summary.entity_types s = [ "PERSON" ]
    /\ map (fun e => py_lower (Entity.entity_type e)) (Summary.entities s) = [ "person" ]
    /\ ~ (forall ty, ty ∈ Summary.entity_types s <->
                     exists e, e ∈ Summary.entities s
                               /\ py_lower (Entity.entity_type e) = ty).
Proof.
  intros self. eexists. split; [vm_compute; reflexivity|]. simpl.
  split; [reflexivity|]. split; [reflexivity|]. split; [reflexivity|].
  intros Hall. destruct (proj1 (Hall "PERSON")) as (e & He & Hlow).
  - apply list_elem_of_singleton. reflexivity.
  - apply list_elem_of_singleton in He. subst e. vm_compute in Hlow. discriminate.
Qed.

(** ** Running computations *)

Lemma bind_ok {A B} (m : M A) (f : A -> M B) (w w' : world) (a : A) :
  m w = (Ok a, w') -> bind m f w = f a w'.
Proof. unfold bind. intros ->. reflexivity. Qed.

Lemma bind_raise {A B} (m : M A) (f : A -> M B) (w w' : world) (e : exn) :
  m w = (Raise e, w') -> bind m f w = (Raise e, w').
Proof. unfold bind. intros ->. reflexivity. Qed.

(** ** Requests with nothing to scan *)

(** A loop whose body does nothing on any element does nothing. *)
Lemma for_each_idle {X} (body : nat -> X -> M unit) (xs : list X) : forall i w,
  Forall (fun x => forall j w', body j x w' = (Ok tt, w')) xs ->
  for_each body i xs w = (Ok tt, w).
Proof.
  induction xs as [|x xs IH]; intros i w Hall; [reflexivity|].
  inversion Hall as [|? ? Hx Hall']; subst. simpl.
  erewrite bind_ok; [|apply Hx]. apply IH, Hall'.
Qed.

Lemma regex_precall_no_text self m w :
  no_text_content m -> PIIRegexPreCallGuardrail.check_message self m w = (Ok tt, w).
Proof.
  intros [Hd Hc]. destruct m; try discriminate. simpl in Hc.
  unfold PIIRegexPreCallGuardrail.check_message, bind, get_method, ret at 1.
  destruct (dict_get d "content"); try discriminate; reflexivity.
Qed.

Lemma presidio_precall_no_text {rt : PyRuntime} self i m w :
  no_text_content m -> PIIPresidioPreCallGuardrail.check_message self i m w = (Ok tt, w).
Proof.
  intros [Hd Hc]. destruct m; try discriminate. simpl in Hc.
  unfold PIIPresidioPreCallGuardrail.check_message, bind, get_method, ret at 1.
  destruct (dict_get d "content"); try discriminate; reflexivity.
Qed.

Lemma regex_precall_nothing_to_scan self user cache data ct w :
  data !! "messages" = None
  \/ truthy (dict_get data "messages") = false
  \/ (exists ms, data !! "messages" = Some (VList ms) /\ Forall no_text_content ms) ->
  passes_without_detection
    (PIIRegexPreCallGuardrail.async_pre_call_hook self user cache data ct) data w.
Proof.
  intros Hcase.
  exists [LogArgs DEBUG "Pre-call PII check passed for messages %s"
                  [ArgValue (dict_get data "messages")]].
  split; [|repeat constructor].
  unfold PIIRegexPreCallGuardrail.async_pre_call_hook.
  destruct Hcase as [Hnone|[Hfalsy|(ms & Hms & Hall)]].
  - unfold dict_get. rewrite Hnone. reflexivity.
  - rewrite Hfalsy. reflexivity.
  - unfold dict_get. rewrite Hms.
    destruct ms as [|m ms]; [reflexivity|].
    change (truthy (default VNone (Some (VList (m :: ms))))) with true. cbv iota.
    erewrite bind_ok;
      [|erewrite bind_ok;
          [apply for_each_idle; eapply Forall_impl; [exact Hall|];
           intros m' Hm' j w'; apply regex_precall_no_text, Hm'|reflexivity]].
    reflexivity.
Qed.

Lemma presidio_precall_nothing_to_scan {rt : PyRuntime} self user cache data ct w :
  data !! "messages" = None
  \/ truthy (dict_get data "messages") = false
  \/ (exists ms, data !! "messages" = Some (VList ms) /\ Forall no_text_content ms) ->
  passes_without_detection
    (PIIPresidioPreCallGuardrail.async_pre_call_hook self user cache data ct) data w.
Proof.
  intros Hcase.
  unfold passes_without_detection, PIIPresidioPreCallGuardrail.async_pre_call_hook.
  destruct Hcase as [Hnone|[Hfalsy|(ms & Hms & Hall)]].
  - exists [Log DEBUG "Presidio pre-call guardrail: Starting PII analysis";
            Log DEBUG "No messages found in request data"].
    split; [|repeat constructor].
    unfold dict_get. rewrite Hnone. unfold bind, emit, ret. simpl.
    rewrite <- app_assoc. reflexivity.
  - exists [Log DEBUG "Presidio pre-call guardrail: Starting PII analysis";
            Log DEBUG "No messages found in request data"].
    split; [|repeat constructor].
    rewrite Hfalsy. unfold bind, emit, ret. simpl.
    rewrite <- app_assoc. reflexivity.
  - unfold dict_get. rewrite Hms. destruct ms as [|m ms].
    + exists [Log DEBUG "Presidio pre-call guardrail: Starting PII analysis";
              Log DEBUG "No messages found in request data"].
      split; [|repeat constructor].
      unfold bind, emit, ret. simpl. rewrite <- app_assoc. reflexivity.
    + exists [Log DEBUG "Presidio pre-call guardrail: Starting PII analysis";
              Log DEBUG "Presidio pre-call guardrail: PII analysis passed"].
      split; [|repeat constructor].
      change (truthy (default VNone (Some (VList (m :: ms))))) with true.
      erewrite bind_ok; [|reflexivity].
      cbv beta iota delta [negb].
      erewrite bind_ok; [|reflexivity].
      erewrite bind_ok;
        [|apply for_each_idle; eapply Forall_impl; [exact Hall|];
          intros m' Hm' j w'; apply presidio_precall_no_text, Hm'].
      unfold bind, emit, ret. simpl. rewrite <- app_assoc. reflexivity.
Qed.

(** C10. A pre-call invocation whose payload has no messages key, or an
    empty messages value, or only messages without string content, returns
    the payload unchanged, makes no detector or recognizer call and raises
    nothing, for the pattern guardrail and for the contextual one. *)
Theorem C10_nothing_to_scan {rt : PyRuntime}
    (regex_guardrail : PIIRegexPreCallGuardrail.t)
    (presidio_guardrail : PIIPresidioPreCallGuardrail.t)
    (user : UserAPIKeyAuth) (cache : DualCache) (data : gmap string pyval)
    (ct : call_type) (w : world) :
  data !! "messages" = None
  \/ truthy (dict_get data "messages") = false
  \/ (exists ms, data !! "messages" = Some (VList ms) /\ Forall no_text_content ms) ->
  passes_without_detection
    (PIIRegexPreCallGuardrail.async_pre_call_hook regex_guardrail user cache data ct)
    data w
  /\ passes_without_detection
    (PIIPresidioPreCallGuardrail.async_pre_call_hook presidio_guardrail user cache data ct)
    data w.
Proof.
  intros Hcase. split.
  - apply regex_precall_nothing_to_scan, Hcase.
  - apply presidio_precall_nothing_to_scan, Hcase.
Qed.

(** ** Loops *)

Lemma emit_logged e w : emit e w = (Ok tt, logged e w).
Proof. reflexivity. Qed.

(** A loop over [xs ++ ys] is the loop over [xs] followed by the loop over
    [ys], unless the first raises. *)
Lemma for_each_app {X} (body : nat -> X -> M unit) (xs ys : list X) : forall i w,
  for_each body i (xs ++ ys) w
  = match for_each body i xs w with
    | (Ok _, w') => for_each body (i + length xs) ys w'
    | (Raise e, w') => (Raise e, w')
    end.
Proof.
  induction xs as [|x xs IH]; intros i w; simpl.
  - rewrite Nat.add_0_r. reflexivity.
  - unfold bind. destruct (body i x w) as [[[]|e] w1]; [|reflexivity].
    rewrite IH. replace (S i + length xs)%nat with (i + S (length xs))%nat by lia.
    reflexivity.
Qed.

(** The loop stops at the first element whose body raises: the elements
    after it play no part in the outcome. *)
Lemma for_each_stops {X} (body : nat -> X -> M unit) (pre : list X) (x : X)
    (rest : list X) i w w1 w' e :
  for_each body i pre w = (Ok tt, w1) ->
  body (i + length pre)%nat x w1 = (Raise e, w') ->
  for_each body i (pre ++ x :: rest) w = (Raise e, w').
Proof.
  intros Hpre Hx. rewrite for_each_app, Hpre. simpl.
  erewrite bind_raise; [reflexivity|exact Hx].
Qed.

(** A loop that raises does so in the body of one element, after the loop
    over the elements before it has completed. *)
Lemma for_each_raise_inv {X} (body : nat -> X -> M unit) (xs : list X) : forall i w w' e,
  for_each body i xs w = (Raise e, w') ->
  exists pre x rest w1,
    xs = pre ++ x :: rest
    /\ for_each body i pre w = (Ok tt, w1)
    /\ body (i + length pre)%nat x w1 = (Raise e, w').
Proof.
  induction xs as [|x xs IH]; intros i w w' e H; simpl in H; [discriminate|].
  unfold bind in H. destruct (body i x w) as [[[]|e1] w1] eqn:Hx.
  - apply IH in H as (pre & y & rest & w2 & -> & Hpre & Hy).
    exists (x :: pre), y, rest, w2. split; [reflexivity|]. split.
    + simpl. erewrite bind_ok; [exact Hpre|exact Hx].
    + simpl. replace (i + S (length pre))%nat with (S i + length pre)%nat by lia.
      exact Hy.
  - injection H as <- <-. exists [], x, xs, w. split; [reflexivity|].
    split; [reflexivity|]. simpl. rewrite Nat.add_0_r. exact Hx.
Qed.

(** ** Traces only grow *)

Lemma extends_refl w : extends w w.
Proof. exists []. symmetry. apply app_nil_r. Qed.

Lemma extends_trans w1 w2 w3 : extends w1 w2 -> extends w2 w3 -> extends w1 w3.
Proof.
  intros [e1 H1] [e2 H2]. exists (e1 ++ e2). rewrite H2, H1. symmetry. apply app_assoc.
Qed.

Lemma extends_logged e w : extends w (logged e w).
Proof. exists [e]. reflexivity. Qed.

Lemma extends_logged_r e w w' : extends w w' -> extends w (logged e w').
Proof. intros H. eapply extends_trans; [exact H|apply extends_logged]. Qed.

Lemma for_each_extends {X} (body : nat -> X -> M unit) (xs : list X) :
  (forall i x w, extends w (snd (body i x w))) ->
  forall i w, extends w (snd (for_each body i xs w)).
Proof.
  intros Hbody. induction xs as [|x xs IH]; intros i w; simpl; [apply extends_refl|].
  unfold bind. pose proof (Hbody i x w) as Hx.
  destruct (body i x w) as [[[]|e] w1]; simpl in *; [|exact Hx].
  eapply extends_trans; [exact Hx|apply IH].
Qed.

(** ** Runs of the contextual detector *)

Lemma has_pii_run self text threshold w :
  exists found events n,
    PIIPresidioDetection.has_pii self text threshold w
    = (Ok found, World (trace w ++ events) n)
    /\ has_pii_calls events = [text].
Proof.
  run_detector. destruct (PIIPresidioDetection.blank text); simpl.
  - eexists _, [_], _. split; reflexivity.
  - destruct (PIIPresidioDetection.analyzer self (analyses w) text _ _); simpl.
    + eexists _, [_; _], _. rewrite <- app_assoc. split; reflexivity.
    + eexists _, [_; _; _], _. rewrite <- !app_assoc. split; reflexivity.
Qed.

Lemma get_analysis_summary_run {rt : PyRuntime} self text threshold w :
  exists s events n,
    PIIPresidioDetection.get_analysis_summary self text threshold w
    = (Ok s, World (trace w ++ events) n)
    /\ has_pii_calls events = [].
Proof.
  run_detector. destruct (PIIPresidioDetection.blank text); simpl.
  - eexists _, [_; _], _. rewrite <- app_assoc. split; reflexivity.
  - destruct (PIIPresidioDetection.analyzer self (analyses w) text _ _); simpl.
    + eexists _, [_; _; _], _. rewrite <- !app_assoc. split; reflexivity.
    + eexists _, [_; _; _; _], _. rewrite <- !app_assoc. split; reflexivity.
Qed.

(** ** The first blocking violation ends the scan *)

Lemma regex_has_pii_nonempty self text :
  PIIRegexDetection.has_pii self text = true -> truthy (VStr text) = true.
Proof. destruct text; [discriminate|reflexivity]. Qed.

Lemma truthy_list_middle (pre : list pyval) x rest :
  truthy (VList (pre ++ x :: rest)) = true.
Proof. destruct pre; reflexivity. Qed.

Lemma regex_precall_blocks self d c w :
  dict_get d "content" = VStr c ->
  PIIRegexDetection.has_pii (PIIRegexPreCallGuardrail.detector self) c = true ->
  PIIRegexPreCallGuardrail.check_message self (VDict d) w
  = (Raise (PIIRegexPreCallGuardrail.violation
              (PIIRegexDetection.get_detected_types
                 (PIIRegexPreCallGuardrail.detector self) c)),
     World (trace w ++ [DetectorCall m_has_pii c; DetectorCall m_get_detected_types c])
           (analyses w)).
Proof.
  intros Hc Hpii.
  unfold PIIRegexPreCallGuardrail.check_message, get_method, called, bind, emit, ret, raise.
  rewrite Hc. simpl. rewrite Hpii. simpl. rewrite <- app_assoc. reflexivity.
Qed.

Lemma regex_postcall_blocks self c w :
  PIIRegexDetection.has_pii (PIIRegexPostCallGuardrail.detector self) c = true ->
  PIIRegexPostCallGuardrail.check_choice self (Choices (VStr c)) w
  = (Raise (PIIRegexPostCallGuardrail.violation
              (PIIRegexDetection.get_detected_types
                 (PIIRegexPostCallGuardrail.detector self) c)),
     World (trace w ++ [LogArgs DEBUG "Post-call PII check choice: %s"
                                [ArgChoice (Choices (VStr c))];
                        DetectorCall m_has_pii c; DetectorCall m_get_detected_types c])
           (analyses w)).
Proof.
  intros Hpii.
  unfold PIIRegexPostCallGuardrail.check_choice, called, bind, emit, ret, raise.
  rewrite (regex_has_pii_nonempty _ _ Hpii). simpl. rewrite Hpii. simpl.
  rewrite <- !app_assoc. reflexivity.
Qed.

Lemma presidio_precall_blocks {rt : PyRuntime} self d c i w w2 :
  PIIPresidioPreCallGuardrail.block_on_detection self = true ->
  dict_get d "content" = VStr c ->
  PIIPresidioDetection.has_pii
    (PIIPresidioPreCallGuardrail.detector self) c (PIIPresidioPreCallGuardrail.threshold self)
    (logged (Log DEBUG ("Analyzing message " +:+ pretty i +:+ ": "
                        +:+ py_slice c 0 100 +:+ "...")) w)
  = (Ok true, w2) ->
  exists s w3,
    PIIPresidioDetection.get_analysis_summary
      (PIIPresidioPreCallGuardrail.detector self) c
      (PIIPresidioPreCallGuardrail.threshold self) w2 = (Ok s, w3)
    /\ PIIPresidioPreCallGuardrail.check_message self i (VDict d) w
       = (Raise (PIIPresidioPreCallGuardrail.violation self (Summary.entity_types s)),
          logged (PIIPresidioPreCallGuardrail.detected_warning i s) w3).
Proof.
  intros Hblock Hc Hpii.
  destruct (get_analysis_summary_run (PIIPresidioPreCallGuardrail.detector self) c
              (PIIPresidioPreCallGuardrail.threshold self) w2) as (s & evs & n & Hs & _).
  exists s, (World (trace w2 ++ evs) n). split; [exact Hs|].
  unfold PIIPresidioPreCallGuardrail.check_message.
  erewrite bind_ok; [|unfold get_method; rewrite Hc; reflexivity]. cbv beta iota.
  erewrite bind_ok; [|apply emit_logged].
  erewrite bind_ok; [|exact Hpii]. cbv beta iota.
  erewrite bind_ok; [|exact Hs].
  erewrite bind_ok; [|apply emit_logged].
  rewrite Hblock. reflexivity.
Qed.

Lemma presidio_postcall_blocks {rt : PyRuntime} self c i w w2 :
  PIIPresidioPostCallGuardrail.block_on_detection self = true ->
  truthy (VStr c) = true ->
  PIIPresidioDetection.has_pii
    (PIIPresidioPostCallGuardrail.detector self) c
    (PIIPresidioPostCallGuardrail.threshold self)
    (logged (Log DEBUG ("Analyzing choice " +:+ pretty i +:+ ": "
                        +:+ py_slice c 0 100 +:+ "...")) w)
  = (Ok true, w2) ->
  exists s w3,
    PIIPresidioDetection.get_analysis_summary
      (PIIPresidioPostCallGuardrail.detector self) c
      (PIIPresidioPostCallGuardrail.threshold self) w2 = (Ok s, w3)
    /\ PIIPresidioPostCallGuardrail.check_choice self i (Choices (VStr c)) w
       = (Raise (PIIPresidioPostCallGuardrail.violation self (Summary.entity_types s)),
          logged (PIIPresidioPostCallGuardrail.detected_warning i s) w3).
Proof.
  intros Hblock Hne Hpii.
  destruct (get_analysis_summary_run (PIIPresidioPostCallGuardrail.detector self) c
              (PIIPresidioPostCallGuardrail.threshold self) w2) as (s & evs & n & Hs & _).
  exists s, (World (trace w2 ++ evs) n). split; [exact Hs|].
  unfold PIIPresidioPostCallGuardrail.check_choice. rewrite Hne.
  erewrite bind_ok; [|apply emit_logged].
  erewrite bind_ok; [|exact Hpii]. cbv beta iota.
  erewrite bind_ok; [|exact Hs].
  erewrite bind_ok; [|apply emit_logged].
  rewrite Hblock. reflexivity.
Qed.

(** *** Which texts a scan has examined *)

Lemma calls_since_refl w : calls_since w w [].
Proof. exists []. split; [symmetry; apply app_nil_r|reflexivity]. Qed.

Lemma calls_since_trans w1 w2 w3 t1 t2 :
  calls_since w1 w2 t1 -> calls_since w2 w3 t2 -> calls_since w1 w3 (t1 ++ t2).
Proof.
  intros (e1 & H1 & C1) (e2 & H2 & C2). exists (e1 ++ e2). split.
  - rewrite H2, H1. symmetry. apply app_assoc.
  - unfold has_pii_calls in *. rewrite omap_app, C1, C2. reflexivity.
Qed.

Lemma calls_since_logged e w :
  has_pii_calls [e] = [] -> calls_since w (logged e w) [].
Proof. intros H. exists [e]. split; [reflexivity|exact H]. Qed.

Lemma calls_since_events w events n texts :
  has_pii_calls events = texts ->
  calls_since w (World (trace w ++ events) n) texts.
Proof. intros H. exists events. split; [reflexivity|exact H]. Qed.

Lemma has_pii_calls_since self text threshold w found w' :
  PIIPresidioDetection.has_pii self text threshold w = (Ok found, w') ->
  calls_since w w' [text].
Proof.
  destruct (has_pii_run self text threshold w) as (b & evs & n & H & Hc).
  rewrite H. intros [= <- <-]. apply calls_since_events, Hc.
Qed.

Lemma get_analysis_summary_calls_since {rt : PyRuntime} self text threshold w s w' :
  PIIPresidioDetection.get_analysis_summary self text threshold w = (Ok s, w') ->
  calls_since w w' [].
Proof.
  destruct (get_analysis_summary_run self text threshold w) as (s' & evs & n & H & Hc).
  rewrite H. intros [= <- <-]. apply calls_since_events, Hc.
Qed.

Lemma omap_cons_option_list {A B} (f : A -> option B) x xs :
  omap f (x :: xs) = option_list (f x) ++ omap f xs.
Proof. simpl. destruct (f x); reflexivity. Qed.

(** A completed loop has examined the texts of its elements, in order. *)
Lemma for_each_calls {X} (body : nat -> X -> M unit) (texts : X -> option string) :
  (forall i x w w', body i x w = (Ok tt, w') -> calls_since w w' (option_list (texts x))) ->
  forall xs i w w1,
    for_each body i xs w = (Ok tt, w1) -> calls_since w w1 (omap texts xs).
Proof.
  intros Hbody. induction xs as [|x xs IH]; intros i w w1 H.
  - injection H as <-. apply calls_since_refl.
  - simpl in H. unfold bind in H. destruct (body i x w) as [[[]|e] w'] eqn:Hx;
      [|discriminate].
    rewrite omap_cons_option_list.
    eapply calls_since_trans; [eapply Hbody; exact Hx|eapply IH; exact H].
Qed.

Lemma regex_precall_calls self m w w' :
  PIIRegexPreCallGuardrail.check_message self m w = (Ok tt, w') ->
  calls_since w w' (option_list (text_content m)).
Proof.
  unfold PIIRegexPreCallGuardrail.check_message, get_method, called, bind, emit, ret, raise.
  destruct m; try discriminate. simpl.
  destruct (dict_get d "content"); try (intros [= <-]; apply calls_since_refl).
  simpl. destruct (PIIRegexDetection.has_pii _ s); [discriminate|].
  intros [= <-]. apply (calls_since_events w [DetectorCall m_has_pii s]). reflexivity.
Qed.

Lemma regex_postcall_calls self c w w' :
  PIIRegexPostCallGuardrail.check_choice self c w = (Ok tt, w') ->
  calls_since w w' (option_list (choice_text c)).
Proof.
  unfold PIIRegexPostCallGuardrail.check_choice, called, bind, emit, ret, raise.
  destruct c as [content|delta]; [|intros [= <-]; apply calls_since_refl].
  destruct content;
    try (simpl; intros [= <-]; apply (calls_since_events w [_]); reflexivity).
  unfold choice_text. destruct (truthy (VStr s)); simpl.
  - destruct (PIIRegexDetection.has_pii _ s); [discriminate|].
    intros [= <-]. rewrite <- app_assoc.
    apply (calls_since_events w [_; _]). reflexivity.
  - intros [= <-]. apply (calls_since_events w [_]). reflexivity.
Qed.

Lemma presidio_precall_calls {rt : PyRuntime} self i m w w' :
  PIIPresidioPreCallGuardrail.check_message self i m w = (Ok tt, w') ->
  calls_since w w' (option_list (text_content m)).
Proof.
  unfold PIIPresidioPreCallGuardrail.check_message.
  destruct m; try discriminate.
  erewrite bind_ok; [|reflexivity]. simpl text_content.
  destruct (dict_get d "content") as [| | | |c| |];
    try (intros [= <-]; apply calls_since_refl).
  erewrite bind_ok; [|apply emit_logged].
  unfold bind at 1.
  destruct (PIIPresidioDetection.has_pii _ c _ _) as [[found|e] w2] eqn:Hpii;
    [|discriminate].
  pose proof (has_pii_calls_since _ _ _ _ _ _ Hpii) as Hc2.
  assert (Hc1 : calls_since w w2 [c]).
  { eapply (calls_since_trans _ _ _ [] [c]); [|exact Hc2].
    apply calls_since_logged. reflexivity. }
  destruct found; [|intros [= <-]; exact Hc1].
  unfold bind at 1.
  destruct (PIIPresidioDetection.get_analysis_summary _ c _ w2) as [[s|e] w3] eqn:Hs;
    [|discriminate].
  pose proof (get_analysis_summary_calls_since _ _ _ _ _ _ Hs) as Hc3.
  erewrite bind_ok; [|apply emit_logged].
  destruct (PIIPresidioPreCallGuardrail.block_on_detection self); [discriminate|].
  rewrite emit_logged. intros [= <-].
  eapply (calls_since_trans _ _ _ [c] []); [exact Hc1|].
  eapply (calls_since_trans _ _ _ [] []); [exact Hc3|].
  eapply (calls_since_trans _ _ _ [] []); apply calls_since_logged; reflexivity.
Qed.

Lemma presidio_postcall_calls {rt : PyRuntime} self i c w w' :
  PIIPresidioPostCallGuardrail.check_choice self i c w = (Ok tt, w') ->
  calls_since w w' (option_list (choice_text c)).
Proof.
  unfold PIIPresidioPostCallGuardrail.check_choice, choice_text.
  destruct c as [content|delta]; [|intros [= <-]; apply calls_since_refl].
  destruct content as [| | | |c| |]; try (intros [= <-]; apply calls_since_refl).
  destruct (truthy (VStr c)); [|intros [= <-]; apply calls_since_refl].
  erewrite bind_ok; [|apply emit_logged].
  unfold bind at 1.
  destruct (PIIPresidioDetection.has_pii _ c _ _) as [[found|e] w2] eqn:Hpii;
    [|discriminate].
  pose proof (has_pii_calls_since _ _ _ _ _ _ Hpii) as Hc2.
  assert (Hc1 : calls_since w w2 [c]).
  { eapply (calls_since_trans _ _ _ [] [c]); [|exact Hc2].
    apply calls_since_logged. reflexivity. }
  destruct found; [|intros [= <-]; exact Hc1].
  unfold bind at 1.
  destruct (PIIPresidioDetection.get_analysis_summary _ c _ w2) as [[s|e] w3] eqn:Hs;
    [|discriminate].
  pose proof (get_analysis_summary_calls_since _ _ _ _ _ _ Hs) as Hc3.
  erewrite bind_ok; [|apply emit_logged].
  destruct (PIIPresidioPostCallGuardrail.block_on_detection self); [discriminate|].
  rewrite emit_logged. intros [= <-].
  eapply (calls_since_trans _ _ _ [c] []); [exact Hc1|].
  eapply (calls_since_trans _ _ _ [] []); [exact Hc3|].
  eapply (calls_since_trans _ _ _ [] []); apply calls_since_logged; reflexivity.
Qed.

(** C2. Short circuit.  In each of the four hooks, when the scan of the units
    before unit [i] has completed and unit [i] triggers a blocking violation,
    the hook raises at once.  The outcome and the whole trace are those of
    the scan of the units up to [i], whatever the later units are: [has_pii]
    has been called on the texts of the units 0 to [i] and on nothing else,
    and the violation carries the types detected in unit [i].  The pattern
    guardrails always block; the contextual ones block when
    [block_on_detection] is set. *)
Theorem C2_first_violation_short_circuits {rt : PyRuntime} :
  (forall (self : PIIRegexPreCallGuardrail.t) user cache data ct w pre d c rest w1,
      data !! "messages" = Some (VList (pre ++ VDict d :: rest)) ->
      dict_get d "content" = VStr c ->
      for_each (fun _ => PIIRegexPreCallGuardrail.check_message self) 0 pre w = (Ok tt, w1) ->
      PIIRegexDetection.has_pii (PIIRegexPreCallGuardrail.detector self) c = true ->
      let final :=
        World (trace w1 ++ [DetectorCall m_has_pii c; DetectorCall m_get_detected_types c])
              (analyses w1) in
      PIIRegexPreCallGuardrail.async_pre_call_hook self user cache data ct w
      = (Raise (PIIRegexPreCallGuardrail.violation
                  (PIIRegexDetection.get_detected_types
                     (PIIRegexPreCallGuardrail.detector self) c)),
         final)
      /\ calls_since w final (omap text_content pre ++ [c]))
  /\ (forall (self : PIIRegexPostCallGuardrail.t) data user w pre c rest w1,
      for_each (fun _ => PIIRegexPostCallGuardrail.check_choice self) 0 pre
        (logged (LogArgs DEBUG "Post-call PII check response: %s"
                   [ArgResponse (ModelResponse (pre ++ Choices (VStr c) :: rest))]) w)
      = (Ok tt, w1) ->
      PIIRegexDetection.has_pii (PIIRegexPostCallGuardrail.detector self) c = true ->
      let final :=
        World (trace w1 ++ [LogArgs DEBUG "Post-call PII check choice: %s"
                                    [ArgChoice (Choices (VStr c))];
                            DetectorCall m_has_pii c; DetectorCall m_get_detected_types c])
              (analyses w1) in
      PIIRegexPostCallGuardrail.async_post_call_success_hook self data user
        (ModelResponse (pre ++ Choices (VStr c) :: rest)) w
      = (Raise (PIIRegexPostCallGuardrail.violation
                  (PIIRegexDetection.get_detected_types
                     (PIIRegexPostCallGuardrail.detector self) c)),
         final)
      /\ calls_since w final (omap choice_text pre ++ [c]))
  /\ (forall (self : PIIPresidioPreCallGuardrail.t) user cache data ct w pre d c rest w1 w2,
      PIIPresidioPreCallGuardrail.block_on_detection self = true ->
      data !! "messages" = Some (VList (pre ++ VDict d :: rest)) ->
      dict_get d "content" = VStr c ->
      for_each (PIIPresidioPreCallGuardrail.check_message self) 0 pre
        (logged (Log DEBUG "Presidio pre-call guardrail: Starting PII analysis") w)
      = (Ok tt, w1) ->
      PIIPresidioDetection.has_pii
        (PIIPresidioPreCallGuardrail.detector self) c
        (PIIPresidioPreCallGuardrail.threshold self)
        (logged (Log DEBUG ("Analyzing message " +:+ pretty (length pre) +:+ ": "
                            +:+ py_slice c 0 100 +:+ "...")) w1)
      = (Ok true, w2) ->
      exists s w3,
        PIIPresidioDetection.get_analysis_summary
          (PIIPresidioPreCallGuardrail.detector self) c
          (PIIPresidioPreCallGuardrail.threshold self) w2 = (Ok s, w3)
        /\ let final := logged (PIIPresidioPreCallGuardrail.detected_warning (length pre) s)
                               w3 in
           PIIPresidioPreCallGuardrail.async_pre_call_hook self user cache data ct w
           = (Raise (PIIPresidioPreCallGuardrail.violation self (Summary.entity_types s)),
              final)
           /\ calls_since w final (omap text_content pre ++ [c]))
  /\ (forall (self : PIIPresidioPostCallGuardrail.t) data user w pre c rest w1 w2,
      PIIPresidioPostCallGuardrail.block_on_detection self = true ->
      truthy (VStr c) = true ->
      for_each (PIIPresidioPostCallGuardrail.check_choice self) 0 pre
        (logged (Log DEBUG "Presidio post-call guardrail: Starting PII analysis on response")
                w)
      = (Ok tt, w1) ->
      PIIPresidioDetection.has_pii
        (PIIPresidioPostCallGuardrail.detector self) c
        (PIIPresidioPostCallGuardrail.threshold self)
        (logged (Log DEBUG ("Analyzing choice " +:+ pretty (length pre) +:+ ": "
                            +:+ py_slice c 0 100 +:+ "...")) w1)
      = (Ok true, w2) ->
      exists s w3,
        PIIPresidioDetection.get_analysis_summary
          (PIIPresidioPostCallGuardrail.detector self) c
          (PIIPresidioPostCallGuardrail.threshold self) w2 = (Ok s, w3)
        /\ let final := logged (PIIPresidioPostCallGuardrail.detected_warning (length pre) s)
                               w3 in
           PIIPresidioPostCallGuardrail.async_post_call_success_hook self data user
             (ModelResponse (pre ++ Choices (VStr c) :: rest)) w
           = (Raise (PIIPresidioPostCallGuardrail.violation self (Summary.entity_types s)),
              final)
           /\ calls_since w final (omap choice_text pre ++ [c])).
Proof.
  split; [|split; [|split]].
  - intros self user cache data ct w pre d c rest w1 Hms Hc Hpre Hpii final. split.
    + unfold PIIRegexPreCallGuardrail.async_pre_call_hook, dict_get. rewrite Hms.
      change (default VNone (Some ?v)) with v. rewrite truthy_list_middle.
      erewrite bind_raise; [reflexivity|].
      erewrite bind_ok; [|reflexivity].
      eapply for_each_stops; [exact Hpre|].
      apply regex_precall_blocks; assumption.
    + eapply calls_since_trans.
      * eapply for_each_calls; [|exact Hpre].
        intros i x w0 w0'. apply regex_precall_calls.
      * apply calls_since_events. reflexivity.
  - intros self data user w pre c rest w1 Hpre Hpii final. split.
    + unfold PIIRegexPostCallGuardrail.async_post_call_success_hook.
      erewrite bind_ok; [|apply emit_logged].
      eapply for_each_stops; [exact Hpre|].
      apply regex_postcall_blocks; assumption.
    + match type of Hpre with
      | for_each _ _ _ ?w0 = _ =>
          eapply (calls_since_trans _ w0 _ [] _); [apply calls_since_logged; reflexivity|]
      end.
      eapply calls_since_trans.
      * eapply for_each_calls; [|exact Hpre].
        intros i x w0 w0'. apply regex_postcall_calls.
      * apply calls_since_events. reflexivity.
  - intros self user cache data ct w pre d c rest w1 w2 Hblock Hms Hc Hpre Hpii.
    destruct (presidio_precall_blocks self d c (length pre) w1 w2 Hblock Hc Hpii)
      as (s & w3 & Hs & Hstep).
    exists s, w3. split; [exact Hs|]. intros final. split.
    + unfold PIIPresidioPreCallGuardrail.async_pre_call_hook, dict_get. rewrite Hms.
      change (default VNone (Some ?v)) with v. rewrite truthy_list_middle.
      erewrite bind_ok; [|apply emit_logged]. cbv beta iota delta [negb].
      erewrite bind_ok; [|reflexivity].
      erewrite bind_raise; [reflexivity|].
      eapply for_each_stops; [exact Hpre|exact Hstep].
    + match type of Hpre with
      | for_each _ _ _ ?w0 = _ =>
          eapply (calls_since_trans _ w0 _ [] _); [apply calls_since_logged; reflexivity|]
      end.
      eapply calls_since_trans.
      * eapply for_each_calls; [|exact Hpre].
        intros i x w0 w0'. apply presidio_precall_calls.
      * match type of Hpii with
        | PIIPresidioDetection.has_pii _ _ _ ?w0 = _ =>
            eapply (calls_since_trans _ w0 _ [] [c]);
              [apply calls_since_logged; reflexivity|]
        end.
        eapply (calls_since_trans _ _ _ [c] []);
          [eapply has_pii_calls_since; exact Hpii|].
        eapply (calls_since_trans _ _ _ [] []);
          [eapply get_analysis_summary_calls_since; exact Hs|].
        apply calls_since_logged. reflexivity.
  - intros self data user w pre c rest w1 w2 Hblock Hne Hpre Hpii.
    destruct (presidio_postcall_blocks self c (length pre) w1 w2 Hblock Hne Hpii)
      as (s & w3 & Hs & Hstep).
    exists s, w3. split; [exact Hs|]. intros final. split.
    + unfold PIIPresidioPostCallGuardrail.async_post_call_success_hook.
      erewrite bind_ok; [|apply emit_logged].
      erewrite bind_raise; [reflexivity|].
      eapply for_each_stops; [exact Hpre|exact Hstep].
    + match type of Hpre with
      | for_each _ _ _ ?w0 = _ =>
          eapply (calls_since_trans _ w0 _ [] _); [apply calls_since_logged; reflexivity|]
      end.
      eapply calls_since_trans.
      * eapply for_each_calls; [|exact Hpre].
        intros i x w0 w0'. apply presidio_postcall_calls.
      * match type of Hpii with
        | PIIPresidioDetection.has_pii _ _ _ ?w0 = _ =>
            eapply (calls_since_trans _ w0 _ [] [c]);
              [apply calls_since_logged; reflexivity|]
        end.
        eapply (calls_since_trans _ _ _ [c] []);
          [eapply has_pii_calls_since; exact Hpii|].
        eapply (calls_since_trans _ _ _ [] []);
          [eapply get_analysis_summary_calls_since; exact Hs|].
        apply calls_since_logged. reflexivity.
Qed.
Lemma C2_first_violation_short_circuits_witness :
  result_of (PIIRegexPreCallGuardrail.async_pre_call_hook
               (PIIRegexPreCallGuardrail.init Kwargs.empty) sample_user sample_cache
               (payload [ user_message (VStr "What is 2+2?");
                          user_message (VStr "My email is john.doe@company.com");
                          user_message (VStr "My SSN is 123-45-6789") ])
               completion) initial_world
  = Raise (ValueError "Pre-call guardrail blocked PII detected: email")
  /\ result_of (PIIRegexPostCallGuardrail.async_post_call_success_hook
               (PIIRegexPostCallGuardrail.init Kwargs.empty) (payload []) sample_user
               (ModelResponse [ Choices (VStr "It is 4.");
                                Choices (VStr "Call me at 555-123-4567");
                                Choices (VStr "My SSN is 123-45-6789") ]))
               initial_world
  = Raise (ValueError "Post-call guardrail blocked PII detected: phone")
  /\ result_of (PIIPresidioPreCallGuardrail.async_pre_call_hook (rt := reference_runtime)
               (sample_presidio_precall true) sample_user sample_cache
               (payload [ user_message (VStr "What is 2+2?");
                          user_message (VStr "My email is john.doe@company.com");
                          user_message (VStr "My name is Sarah Johnson") ])
               completion) initial_world
  = Raise (ValueError
             "Pre-call Presidio guardrail blocked PII detected: EMAIL_ADDRESS (confidence >= 0.7)")
  /\ result_of (PIIPresidioPostCallGuardrail.async_post_call_success_hook
               (rt := reference_runtime)
               (sample_presidio_postcall true) (payload []) sample_user
               (ModelResponse [ Choices (VStr "It is 4.");
                                Choices (VStr "My name is Sarah Johnson");
                                Choices (VStr "My email is john.doe@company.com") ]))
               initial_world
  = Raise (ValueError
             "Post-call Presidio guardrail blocked PII detected: PERSON (confidence >= 0.7)").
Proof.
  destruct (C2_first_violation_short_circuits (rt := reference_runtime))
    as (Hregex_pre & Hregex_post & Hpresidio_pre & Hpresidio_post).
  split; [|split; [|split]].
  - edestruct (Hregex_pre (PIIRegexPreCallGuardrail.init Kwargs.empty)
                 sample_user sample_cache
                 (payload [ user_message (VStr "What is 2+2?");
                            user_message (VStr "My email is john.doe@company.com");
                            user_message (VStr "My SSN is 123-45-6789") ])
                 completion initial_world
                 [ user_message (VStr "What is 2+2?") ]
                 (content_dict (VStr "My email is john.doe@company.com"))
                 "My email is john.doe@company.com"
                 [ user_message (VStr "My SSN is 123-45-6789") ]) as [Hrun _].
    + reflexivity.
    + reflexivity.
    + vm_compute. reflexivity.
    + vm_compute. reflexivity.
    + unfold result_of. cbn [app] in Hrun. rewrite Hrun. vm_compute. reflexivity.
  - edestruct (Hregex_post (PIIRegexPostCallGuardrail.init Kwargs.empty)
                 (payload []) sample_user initial_world
                 [ Choices (VStr "It is 4.") ]
                 "Call me at 555-123-4567"
                 [ Choices (VStr "My SSN is 123-45-6789") ]) as [Hrun _].
    + vm_compute. reflexivity.
    + vm_compute. reflexivity.
    + unfold result_of. cbn [app] in Hrun. rewrite Hrun. vm_compute. reflexivity.
  - edestruct (Hpresidio_pre (sample_presidio_precall true)
                 sample_user sample_cache
                 (payload [ user_message (VStr "What is 2+2?");
                            user_message (VStr "My email is john.doe@company.com");
                            user_message (VStr "My name is Sarah Johnson") ])
                 completion initial_world
                 [ user_message (VStr "What is 2+2?") ]
                 (content_dict (VStr "My email is john.doe@company.com"))
                 "My email is john.doe@company.com"
                 [ user_message (VStr "My name is Sarah Johnson") ])
      as (s & w3 & Hs & Hrun & _).
    + reflexivity.
    + reflexivity.
    + reflexivity.
    + vm_compute. reflexivity.
    + vm_compute. reflexivity.
    + unfold result_of. cbn [app] in Hrun. rewrite Hrun.
      vm_compute in Hs. injection Hs as <- <-. vm_compute. reflexivity.
  - edestruct (Hpresidio_post (sample_presidio_postcall true)
                 (payload []) sample_user initial_world
                 [ Choices (VStr "It is 4.") ]
                 "My name is Sarah Johnson"
                 [ Choices (VStr "My email is john.doe@company.com") ])
      as (s & w3 & Hs & Hrun & _).
    + reflexivity.
    + reflexivity.
    + vm_compute. reflexivity.
    + vm_compute. reflexivity.
    + unfold result_of. cbn [app] in Hrun. rewrite Hrun.
      vm_compute in Hs. injection Hs as <- <-. vm_compute. reflexivity.
Defined.

Lemma C10_nothing_to_scan_witness :
  let data := payload [ user_message (VList [ VStr "an image" ]); user_message VNone ] in
  passes_without_detection
    (PIIRegexPreCallGuardrail.async_pre_call_hook
       (PIIRegexPreCallGuardrail.init Kwargs.empty) sample_user sample_cache data completion)
    data initial_world
  /\ passes_without_detection
    (PIIPresidioPreCallGuardrail.async_pre_call_hook (rt := reference_runtime)
       (sample_presidio_precall true) sample_user sample_cache data completion)
    data initial_world.
Proof.
  intros data.
  apply (C10_nothing_to_scan (rt := reference_runtime)
           (PIIRegexPreCallGuardrail.init Kwargs.empty) (sample_presidio_precall true)
           sample_user sample_cache data completion initial_world).
  right. right.
  exists [ user_message (VList [ VStr "an image" ]); user_message VNone ].
  split; [reflexivity|].
  repeat constructor.
Defined.

(** ** Strings *)

Lemma string_app_assoc (a b c : string) : (a +:+ b) +:+ c = a +:+ (b +:+ c).
Proof.
  induction a as [|x a IH]; [reflexivity|].
  change (String x ((a +:+ b) +:+ c) = String x (a +:+ (b +:+ c))).
  f_equal. exact IH.
Qed.

Lemma string_app_nil_r (a : string) : a +:+ "" = a.
Proof.
  induction a as [|x a IH]; [reflexivity|].
  change (String x (a +:+ "") = String x a). f_equal. exact IH.
Qed.

Lemma list_ascii_app (a b : string) :
  list_ascii_of_string (a +:+ b) = list_ascii_of_string a ++ list_ascii_of_string b.
Proof.
  induction a as [|x a IH]; [reflexivity|].
  change (x :: list_ascii_of_string (a +:+ b)
          = x :: (list_ascii_of_string a ++ list_ascii_of_string b)).
  f_equal. exact IH.
Qed.

Lemma str_infix_refl s : str_infix s s.
Proof. exists "", "". simpl. symmetry. apply string_app_nil_r. Qed.

Lemma str_infix_app_l s t a : str_infix s t -> str_infix s (a +:+ t).
Proof.
  intros (x & y & ->). exists (a +:+ x), y. symmetry. apply string_app_assoc.
Qed.

Lemma str_infix_app_r s t b : str_infix s t -> str_infix s (t +:+ b).
Proof.
  intros (x & y & ->). exists x, (y +:+ b). rewrite !string_app_assoc. reflexivity.
Qed.

(** Every part of a joined string occurs in it. *)
Lemma str_infix_join sep (parts : list string) x :
  x ∈ parts -> str_infix x (join sep parts).
Proof.
  unfold join. induction parts as [|y parts IH]; intros Hin.
  - apply elem_of_nil in Hin. contradiction.
  - apply elem_of_cons in Hin as [->|Hin].
    + destruct parts as [|z parts]; [apply str_infix_refl|].
      change (str_infix y (y +:+ sep +:+ String.concat sep (z :: parts))).
      apply str_infix_app_r, str_infix_refl.
    + destruct parts as [|z parts]; [apply elem_of_nil in Hin; contradiction|].
      change (str_infix x (y +:+ sep +:+ String.concat sep (z :: parts))).
      apply str_infix_app_l, str_infix_app_l, IH, Hin.
Qed.

(** What holds of every character of a string holds of every character of
    its pieces. *)
Lemma str_infix_forallb (q : ascii -> bool) s t :
  str_infix s t ->
  forallb q (list_ascii_of_string t) = true ->
  forallb q (list_ascii_of_string s) = true.
Proof.
  intros (x & y & ->). rewrite !list_ascii_app, !forallb_app, !andb_true_iff.
  intros (_ & H & _). exact H.
Qed.

(** ** What a violation message says *)

Lemma formats_need_digit_or_at :
  forallb (needs digit_or_at) structured_formats = true.
Proof. vm_compute. reflexivity. Qed.

Lemma needs_of_format q r :
  forallb (needs q) structured_formats = true ->
  r ∈ structured_formats -> needs q r = true.
Proof.
  rewrite forallb_forall. intros H Hin. apply H, list_elem_of_In, Hin.
Qed.

(** The text of a match of one of the four patterns is not a piece of a
    string without digits and at-signs. *)
Lemma matched_text_not_in r text before matched after msg :
  r ∈ structured_formats ->
  occurrence r text before matched after ->
  no_digit_or_at msg = true ->
  ~ str_infix (string_of_list_ascii matched) msg.
Proof.
  intros Hr Hocc Hmsg Hinfix.
  pose proof (occurrence_needs _ _ _ _ _ _
                (needs_of_format _ _ formats_need_digit_or_at Hr) Hocc) as Hex.
  pose proof (str_infix_forallb _ _ _ Hinfix Hmsg) as Hall.
  rewrite list_ascii_of_string_of_list_ascii in Hall.
  apply Exists_exists in Hex as (c & Hin & Hc).
  rewrite forallb_forall in Hall. apply list_elem_of_In, Hall in Hin.
  rewrite Hc in Hin. discriminate.
Qed.

(** The messages of the pattern guardrails hold no digit and no at-sign. *)
Lemma regex_messages_plain text :
  no_digit_or_at ("Pre-call guardrail blocked PII detected: "
                  +:+ join ", " (PIIRegexDetection.get_detected_types
                                   PIIRegexDetection.init text)) = true
  /\ no_digit_or_at ("Post-call guardrail blocked PII detected: "
                  +:+ join ", " (PIIRegexDetection.get_detected_types
                                   PIIRegexDetection.init text)) = true.
Proof.
  unfold PIIRegexDetection.get_detected_types.
  destruct text as [|c text]; [split; vm_compute; reflexivity|].
  destruct (search _ _), (search _ _), (search _ _), (search _ _);
    split; vm_compute; reflexivity.
Qed.

(** *** Where a violation comes from *)

Lemma bind_raise_inv {A B} (m : M A) (f : A -> M B) w w' e :
  bind m f w = (Raise e, w') ->
  m w = (Raise e, w') \/ exists a w1, m w = (Ok a, w1) /\ f a w1 = (Raise e, w').
Proof.
  unfold bind. destruct (m w) as [[a|e1] w1]; intros H.
  - right. exists a, w1. auto.
  - left. injection H as -> ->. reflexivity.
Qed.

Lemma iterate_dict_elem v w messages w1 d :
  iterate v w = (Ok messages, w1) -> VDict d ∈ messages -> v = VList messages.
Proof.
  destruct v; simpl; try discriminate; intros [= <- <-] Hin.
  - apply list_elem_of_In, in_map_iff in Hin as (x & Hx & _). discriminate.
  - reflexivity.
  - apply list_elem_of_In, in_map_iff in Hin as (x & Hx & _). discriminate.
Qed.

Lemma dict_get_list (data : gmap string pyval) key l :
  dict_get data key = VList l -> l <> [] -> data !! key = Some (VList l).
Proof.
  unfold dict_get. destruct (data !! key) as [v|]; simpl; [intros ->; reflexivity|].
  discriminate.
Qed.

Lemma regex_precall_check_raises self m w w' msg :
  PIIRegexPreCallGuardrail.check_message self m w = (Raise (ValueError msg), w') ->
  exists d c,
    m = VDict d /\ dict_get d "content" = VStr c
    /\ PIIRegexDetection.has_pii (PIIRegexPreCallGuardrail.detector self) c = true
    /\ msg = "Pre-call guardrail blocked PII detected: "
             +:+ join ", " (PIIRegexDetection.get_detected_types
                              (PIIRegexPreCallGuardrail.detector self) c).
Proof.
  unfold PIIRegexPreCallGuardrail.check_message, get_method, called, bind, emit, ret, raise.
  destruct m; try discriminate. simpl.
  destruct (dict_get d "content") as [| | | |c| |] eqn:Hc; try discriminate.
  simpl. destruct (PIIRegexDetection.has_pii _ c) eqn:Hpii; [|discriminate].
  unfold PIIRegexPreCallGuardrail.violation. intros [= <- _].
  exists d, c. auto.
Qed.

Lemma regex_postcall_check_raises self ch w w' msg :
  PIIRegexPostCallGuardrail.check_choice self ch w = (Raise (ValueError msg), w') ->
  exists c,
    ch = Choices (VStr c)
    /\ PIIRegexDetection.has_pii (PIIRegexPostCallGuardrail.detector self) c = true
    /\ msg = "Post-call guardrail blocked PII detected: "
             +:+ join ", " (PIIRegexDetection.get_detected_types
                              (PIIRegexPostCallGuardrail.detector self) c).
Proof.
  unfold PIIRegexPostCallGuardrail.check_choice, called, bind, emit, ret, raise.
  destruct ch as [content|delta]; [|discriminate].
  destruct content as [| | | |c| |]; try discriminate.
  destruct (truthy (VStr c)); [|discriminate]. simpl.
  destruct (PIIRegexDetection.has_pii _ c) eqn:Hpii; [|discriminate].
  unfold PIIRegexPostCallGuardrail.violation. intros [= <- _].
  exists c. auto.
Qed.

Lemma presidio_precall_check_raises {rt : PyRuntime} self i m w w' msg :
  PIIPresidioPreCallGuardrail.check_message self i m w = (Raise (ValueError msg), w') ->
  exists d c s w2 w3,
    m = VDict d /\ dict_get d "content" = VStr c
    /\ PIIPresidioPreCallGuardrail.block_on_detection self = true
    /\ PIIPresidioDetection.get_analysis_summary
         (PIIPresidioPreCallGuardrail.detector self) c
         (PIIPresidioPreCallGuardrail.threshold self) w2 = (Ok s, w3)
    /\ msg = "Pre-call Presidio guardrail blocked PII detected: "
             +:+ join ", " (Summary.entity_types s)
             +:+ " (confidence >= "
             +:+ float_str (PIIPresidioPreCallGuardrail.threshold self) +:+ ")".
Proof.
  unfold PIIPresidioPreCallGuardrail.check_message.
  destruct m; try discriminate.
  erewrite bind_ok; [|reflexivity].
  destruct (dict_get d "content") as [| | | |c| |] eqn:Hc; try discriminate.
  erewrite bind_ok; [|apply emit_logged].
  unfold bind at 1.
  destruct (PIIPresidioDetection.has_pii _ c _ _) as [[found|e] w2] eqn:Hpii.
  2: { destruct (has_pii_run (PIIPresidioPreCallGuardrail.detector self) c
                   (PIIPresidioPreCallGuardrail.threshold self)
                   (logged (Log DEBUG ("Analyzing message " +:+ pretty i +:+ ": "
                                       +:+ py_slice c 0 100 +:+ "...")) w))
         as (b & evs & n & Hrun & _).
       rewrite Hrun in Hpii. discriminate. }
  destruct found; [|discriminate].
  unfold bind at 1.
  destruct (PIIPresidioDetection.get_analysis_summary _ c _ w2) as [[s|e] w3] eqn:Hs.
  2: { destruct (get_analysis_summary_run (PIIPresidioPreCallGuardrail.detector self) c
                   (PIIPresidioPreCallGuardrail.threshold self) w2)
         as (s' & evs & n & Hrun & _).
       rewrite Hrun in Hs. discriminate. }
  erewrite bind_ok; [|apply emit_logged].
  destruct (PIIPresidioPreCallGuardrail.block_on_detection self) eqn:Hblock;
    [|discriminate].
  unfold raise, PIIPresidioPreCallGuardrail.violation. intros [= <- _].
  exists d, c, s, w2, w3. auto.
Qed.

Lemma presidio_postcall_check_raises {rt : PyRuntime} self i ch w w' msg :
  PIIPresidioPostCallGuardrail.check_choice self i ch w = (Raise (ValueError msg), w') ->
  exists c s w2 w3,
    ch = Choices (VStr c)
    /\ PIIPresidioPostCallGuardrail.block_on_detection self = true
    /\ PIIPresidioDetection.get_analysis_summary
         (PIIPresidioPostCallGuardrail.detector self) c
         (PIIPresidioPostCallGuardrail.threshold self) w2 = (Ok s, w3)
    /\ msg = "Post-call Presidio guardrail blocked PII detected: "
             +:+ join ", " (Summary.entity_types s)
             +:+ " (confidence >= "
             +:+ float_str (PIIPresidioPostCallGuardrail.threshold self) +:+ ")".
Proof.
  unfold PIIPresidioPostCallGuardrail.check_choice.
  destruct ch as [content|delta]; [|discriminate].
  destruct content as [| | | |c| |]; try discriminate.
  destruct (truthy (VStr c)); [|discriminate].
  erewrite bind_ok; [|apply emit_logged].
  unfold bind at 1.
  destruct (PIIPresidioDetection.has_pii _ c _ _) as [[found|e] w2] eqn:Hpii.
  2: { destruct (has_pii_run (PIIPresidioPostCallGuardrail.detector self) c
                   (PIIPresidioPostCallGuardrail.threshold self)
                   (logged (Log DEBUG ("Analyzing choice " +:+ pretty i +:+ ": "
                                       +:+ py_slice c 0 100 +:+ "...")) w))
         as (b & evs & n & Hrun & _).
       rewrite Hrun in Hpii. discriminate. }
  destruct found; [|discriminate].
  unfold bind at 1.
  destruct (PIIPresidioDetection.get_analysis_summary _ c _ w2) as [[s|e] w3] eqn:Hs.
  2: { destruct (get_analysis_summary_run (PIIPresidioPostCallGuardrail.detector self) c
                   (PIIPresidioPostCallGuardrail.threshold self) w2)
         as (s' & evs & n & Hrun & _).
       rewrite Hrun in Hs. discriminate. }
  erewrite bind_ok; [|apply emit_logged].
  destruct (PIIPresidioPostCallGuardrail.block_on_detection self) eqn:Hblock;
    [|discriminate].
  unfold raise, PIIPresidioPostCallGuardrail.violation. intros [= <- _].
  exists c, s, w2, w3. auto.
Qed.

Lemma regex_precall_raises self user cache data ct w w' msg :
  PIIRegexPreCallGuardrail.async_pre_call_hook self user cache data ct w
  = (Raise (ValueError msg), w') ->
  exists ms d c,
    data !! "messages" = Some (VList ms) /\ VDict d ∈ ms
    /\ dict_get d "content" = VStr c
    /\ PIIRegexDetection.has_pii (PIIRegexPreCallGuardrail.detector self) c = true
    /\ msg = "Pre-call guardrail blocked PII detected: "
             +:+ join ", " (PIIRegexDetection.get_detected_types
                              (PIIRegexPreCallGuardrail.detector self) c).
Proof.
  unfold PIIRegexPreCallGuardrail.async_pre_call_hook. intros H.
  apply bind_raise_inv in H as [H|(a & w1 & _ & H)]; [|discriminate].
  destruct (truthy (dict_get data "messages")) eqn:Ht; [|discriminate].
  apply bind_raise_inv in H as [H|(messages & w1 & Hit & H)].
  { destruct (dict_get data "messages"); discriminate. }
  apply for_each_raise_inv in H as (pre & x & rest & w2 & -> & _ & Hx).
  apply regex_precall_check_raises in Hx as (d & c & -> & Hc & Hpii & ->).
  assert (Hin : VDict d ∈ pre ++ VDict d :: rest)
    by (apply elem_of_app; right; apply elem_of_cons; left; reflexivity).
  pose proof (iterate_dict_elem _ _ _ _ d Hit Hin) as Hv.
  exists (pre ++ VDict d :: rest), d, c.
  split; [apply dict_get_list; [exact Hv|destruct pre; discriminate]|]. auto.
Qed.

Lemma regex_postcall_raises self data user resp w w' msg :
  PIIRegexPostCallGuardrail.async_post_call_success_hook self data user resp w
  = (Raise (ValueError msg), w') ->
  exists choices c,
    resp = ModelResponse choices /\ Choices (VStr c) ∈ choices
    /\ PIIRegexDetection.has_pii (PIIRegexPostCallGuardrail.detector self) c = true
    /\ msg = "Post-call guardrail blocked PII detected: "
             +:+ join ", " (PIIRegexDetection.get_detected_types
                              (PIIRegexPostCallGuardrail.detector self) c).
Proof.
  unfold PIIRegexPostCallGuardrail.async_post_call_success_hook. intros H.
  apply bind_raise_inv in H as [H|(a & w1 & _ & H)]; [discriminate|].
  destruct resp as [choices|body]; [|discriminate].
  apply for_each_raise_inv in H as (pre & x & rest & w2 & -> & _ & Hx).
  apply regex_postcall_check_raises in Hx as (c & -> & Hpii & ->).
  exists (pre ++ Choices (VStr c) :: rest), c. split; [reflexivity|].
  split; [apply elem_of_app; right; apply elem_of_cons; left; reflexivity|]. auto.
Qed.

Lemma presidio_precall_raises {rt : PyRuntime} self user cache data ct w w' msg :
  PIIPresidioPreCallGuardrail.async_pre_call_hook self user cache data ct w
  = (Raise (ValueError msg), w') ->
  exists ms d c s w2 w3,
    data !! "messages" = Some (VList ms) /\ VDict d ∈ ms
    /\ dict_get d "content" = VStr c
    /\ PIIPresidioPreCallGuardrail.block_on_detection self = true
    /\ PIIPresidioDetection.get_analysis_summary
         (PIIPresidioPreCallGuardrail.detector self) c
         (PIIPresidioPreCallGuardrail.threshold self) w2 = (Ok s, w3)
    /\ msg = "Pre-call Presidio guardrail blocked PII detected: "
             +:+ join ", " (Summary.entity_types s)
             +:+ " (confidence >= "
             +:+ float_str (PIIPresidioPreCallGuardrail.threshold self) +:+ ")".
Proof.
  unfold PIIPresidioPreCallGuardrail.async_pre_call_hook. intros H.
  apply bind_raise_inv in H as [H|(a & w1 & _ & H)]; [discriminate|].
  destruct (truthy (dict_get data "messages")) eqn:Ht; [|discriminate].
  cbv beta iota delta [negb] in H.
  apply bind_raise_inv in H as [H|(messages & w2 & Hit & H)].
  { destruct (dict_get data "messages"); discriminate. }
  apply bind_raise_inv in H as [H|(a' & w3 & _ & H)]; [|discriminate].
  apply for_each_raise_inv in H as (pre & x & rest & w4 & -> & _ & Hx).
  apply presidio_precall_check_raises in Hx
    as (d & c & s & w5 & w6 & -> & Hc & Hblock & Hs & ->).
  assert (Hin : VDict d ∈ pre ++ VDict d :: rest)
    by (apply elem_of_app; right; apply elem_of_cons; left; reflexivity).
  pose proof (iterate_dict_elem _ _ _ _ d Hit Hin) as Hv.
  exists (pre ++ VDict d :: rest), d, c, s, w5, w6.
  split; [apply dict_get_list; [exact Hv|destruct pre; discriminate]|]. auto.
Qed.

Lemma presidio_postcall_raises {rt : PyRuntime} self data user resp w w' msg :
  PIIPresidioPostCallGuardrail.async_post_call_success_hook self data user resp w
  = (Raise (ValueError msg), w') ->
  exists choices c s w2 w3,
    resp = ModelResponse choices /\ Choices (VStr c) ∈ choices
    /\ PIIPresidioPostCallGuardrail.block_on_detection self = true
    /\ PIIPresidioDetection.get_analysis_summary
         (PIIPresidioPostCallGuardrail.detector self) c
         (PIIPresidioPostCallGuardrail.threshold self) w2 = (Ok s, w3)
    /\ msg = "Post-call Presidio guardrail blocked PII detected: "
             +:+ join ", " (Summary.entity_types s)
             +:+ " (confidence >= "
             +:+ float_str (PIIPresidioPostCallGuardrail.threshold self) +:+ ")".
Proof.
  unfold PIIPresidioPostCallGuardrail.async_post_call_success_hook. intros H.
  apply bind_raise_inv in H as [H|(a & w1 & _ & H)]; [discriminate|].
  destruct resp as [choices|body]; [|discriminate].
  apply bind_raise_inv in H as [H|(a' & w3 & _ & H)]; [|discriminate].
  apply for_each_raise_inv in H as (pre & x & rest & w4 & -> & _ & Hx).
  apply presidio_postcall_check_raises in Hx as (c & s & w5 & w6 & -> & Hblock & Hs & ->).
  exists (pre ++ Choices (VStr c) :: rest), c, s, w5, w6. split; [reflexivity|].
  split; [apply elem_of_app; right; apply elem_of_cons; left; reflexivity|]. auto.
Qed.

Lemma names_each_type (before after : string) (types : list string) ty :
  ty ∈ types -> str_infix ty (before +:+ join ", " types +:+ after).
Proof.
  intros Hin. apply str_infix_app_l, str_infix_app_r, str_infix_join, Hin.
Qed.

Lemma names_each_type_end (before : string) (types : list string) ty :
  ty ∈ types -> str_infix ty (before +:+ join ", " types).
Proof. intros Hin. apply str_infix_app_l, str_infix_join, Hin. Qed.

Lemma names_threshold (before types_text t : string) :
  str_infix t (before +:+ types_text +:+ " (confidence >= " +:+ t +:+ ")").
Proof.
  do 3 apply str_infix_app_l. apply str_infix_app_r, str_infix_refl.
Qed.

(** C4, as the code has it.  Every policy violation (a [ValueError]) that one
    of the four hooks raises comes from a unit with string content and
    carries a message made of a fixed sentence, the detected type names
    joined by commas and, for the contextual hooks only, the threshold.  So
    the message names every detected type; the contextual hooks also name
    the threshold; the pattern hooks have no threshold to name.  No hook
    copies matched text into the message, and the message of a pattern hook
    contains no match of any of the four patterns. *)
Theorem C4_violation_message {rt : PyRuntime} :
  (forall kwargs user cache data ct w w' msg,
      PIIRegexPreCallGuardrail.async_pre_call_hook
        (PIIRegexPreCallGuardrail.init kwargs) user cache data ct w
      = (Raise (ValueError msg), w') ->
      exists ms d c,
        data !! "messages" = Some (VList ms) /\ VDict d ∈ ms
        /\ dict_get d "content" = VStr c
        /\ PIIRegexDetection.has_pii PIIRegexDetection.init c = true
        /\ msg = "Pre-call guardrail blocked PII detected: "
                 +:+ join ", " (PIIRegexDetection.get_detected_types
                                  PIIRegexDetection.init c)
        /\ (forall ty, ty ∈ PIIRegexDetection.get_detected_types PIIRegexDetection.init c ->
                       str_infix ty msg)
        /\ (forall r before matched after,
               r ∈ structured_formats -> occurrence r c before matched after ->
               ~ str_infix (string_of_list_ascii matched) msg))
  /\ (forall kwargs data user resp w w' msg,
      PIIRegexPostCallGuardrail.async_post_call_success_hook
        (PIIRegexPostCallGuardrail.init kwargs) data user resp w
      = (Raise (ValueError msg), w') ->
      exists choices c,
        resp = ModelResponse choices /\ Choices (VStr c) ∈ choices
        /\ PIIRegexDetection.has_pii PIIRegexDetection.init c = true
        /\ msg = "Post-call guardrail blocked PII detected: "
                 +:+ join ", " (PIIRegexDetection.get_detected_types
                                  PIIRegexDetection.init c)
        /\ (forall ty, ty ∈ PIIRegexDetection.get_detected_types PIIRegexDetection.init c ->
                       str_infix ty msg)
        /\ (forall r before matched after,
               r ∈ structured_formats -> occurrence r c before matched after ->
               ~ str_infix (string_of_list_ascii matched) msg))
  /\ (forall (self : PIIPresidioPreCallGuardrail.t) user cache data ct w w' msg,
      PIIPresidioPreCallGuardrail.async_pre_call_hook self user cache data ct w
      = (Raise (ValueError msg), w') ->
      exists ms d c s w2 w3,
        data !! "messages" = Some (VList ms) /\ VDict d ∈ ms
        /\ dict_get d "content" = VStr c
        /\ PIIPresidioPreCallGuardrail.block_on_detection self = true
        /\ PIIPresidioDetection.get_analysis_summary
             (PIIPresidioPreCallGuardrail.detector self) c
             (PIIPresidioPreCallGuardrail.threshold self) w2 = (Ok s, w3)
        /\ msg = "Pre-call Presidio guardrail blocked PII detected: "
                 +:+ join ", " (Summary.entity_types s)
                 +:+ " (confidence >= "
                 +:+ float_str (PIIPresidioPreCallGuardrail.threshold self) +:+ ")"
        /\ (forall ty, ty ∈ Summary.entity_types s -> str_infix ty msg)
        /\ str_infix (float_str (PIIPresidioPreCallGuardrail.threshold self)) msg)
  /\ (forall (self : PIIPresidioPostCallGuardrail.t) data user resp w w' msg,
      PIIPresidioPostCallGuardrail.async_post_call_success_hook self data user resp w
      = (Raise (ValueError msg), w') ->
      exists choices c s w2 w3,
        resp = ModelResponse choices /\ Choices (VStr c) ∈ choices
        /\ PIIPresidioPostCallGuardrail.block_on_detection self = true
        /\ PIIPresidioDetection.get_analysis_summary
             (PIIPresidioPostCallGuardrail.detector self) c
             (PIIPresidioPostCallGuardrail.threshold self) w2 = (Ok s, w3)
        /\ msg = "Post-call Presidio guardrail blocked PII detected: "
                 +:+ join ", " (Summary.entity_types s)
                 +:+ " (confidence >= "
                 +:+ float_str (PIIPresidioPostCallGuardrail.threshold self) +:+ ")"
        /\ (forall ty, ty ∈ Summary.entity_types s -> str_infix ty msg)
        /\ str_infix (float_str (PIIPresidioPostCallGuardrail.threshold self)) msg).
Proof.
  split; [|split; [|split]].
  - intros kwargs user cache data ct w w' msg H.
    apply regex_precall_raises in H as (ms & d & c & Hms & Hin & Hc & Hpii & ->).
    exists ms, d, c. repeat (split; [assumption || reflexivity|]). split.
    + intros ty Hty. apply names_each_type_end, Hty.
    + intros r before matched after Hr Hocc.
      eapply matched_text_not_in; [exact Hr|exact Hocc|].
      apply (proj1 (regex_messages_plain c)).
  - intros kwargs data user resp w w' msg H.
    apply regex_postcall_raises in H as (choices & c & -> & Hin & Hpii & ->).
    exists choices, c. repeat (split; [assumption || reflexivity|]). split.
    + intros ty Hty. apply names_each_type_end, Hty.
    + intros r before matched after Hr Hocc.
      eapply matched_text_not_in; [exact Hr|exact Hocc|].
      apply (proj2 (regex_messages_plain c)).
  - intros self user cache data ct w w' msg H.
    apply presidio_precall_raises in H
      as (ms & d & c & s & w2 & w3 & Hms & Hin & Hc & Hblock & Hs & ->).
    exists ms, d, c, s, w2, w3. repeat (split; [assumption || reflexivity|]). split.
    + intros ty Hty. apply names_each_type, Hty.
    + apply names_threshold.
  - intros self data user resp w w' msg H.
    apply presidio_postcall_raises in H
      as (choices & c & s & w2 & w3 & -> & Hin & Hblock & Hs & ->).
    exists choices, c, s, w2, w3. repeat (split; [assumption || reflexivity|]). split.
    + intros ty Hty. apply names_each_type, Hty.
    + apply names_threshold.
Qed.

Lemma C4_violation_message_witness :
  ~ str_infix "john.doe@company.com" "Pre-call guardrail blocked PII detected: email"
  /\ str_infix "0.7"
       "Pre-call Presidio guardrail blocked PII detected: EMAIL_ADDRESS (confidence >= 0.7)".
Proof.
  destruct (C4_violation_message (rt := reference_runtime))
    as (Hregex_pre & _ & Hpresidio_pre & _).
  split.
  - edestruct (Hregex_pre Kwargs.empty sample_user sample_cache
                 (payload [ user_message (VStr "My email is john.doe@company.com") ])
                 completion initial_world)
      as (ms & d & c & Hms & Hin & Hc & _ & _ & _ & Hnone).
    + vm_compute. reflexivity.
    + injection Hms as <-. apply list_elem_of_singleton in Hin. injection Hin as ->.
      vm_compute in Hc. injection Hc as <-.
      apply (Hnone PIIRegexDetection.email_re
               (list_ascii_of_string "My email is ")
               (list_ascii_of_string "john.doe@company.com") []).
      * apply elem_of_cons. left. reflexivity.
      * apply email_occurrence; [reflexivity| |reflexivity|reflexivity].
        exists (list_ascii_of_string "john.doe"), (list_ascii_of_string "company"),
          (list_ascii_of_string "com").
        split; [reflexivity|]. split; [discriminate|].
        split; [repeat constructor|]. split; [discriminate|].
        split; [repeat constructor|]. split; [simpl; lia|repeat constructor].
  - edestruct (Hpresidio_pre (sample_presidio_precall true) sample_user sample_cache
                 (payload [ user_message (VStr "My email is john.doe@company.com") ])
                 completion initial_world)
      as (ms & d & c & s & w2 & w3 & _ & _ & _ & _ & _ & _ & _ & Hthreshold).
    + vm_compute. reflexivity.
    + exact Hthreshold.
Defined.

(** C4 as the specification states it fails: the pattern pre-call guardrail
    blocks a phone number with a message that names the type and no
    threshold; the guardrail has none, and the threshold among its keyword
    arguments is not consulted. *)
Lemma C4_counterexample :
  let msg := "Pre-call guardrail blocked PII detected: phone" in
  result_of (PIIRegexPreCallGuardrail.async_pre_call_hook
               (PIIRegexPreCallGuardrail.init
                  (Kwargs.Build None (Some (7 # 10)) None (Some true)))
               sample_user sample_cache
               (payload [ user_message (VStr "Call me at 555-123-4567") ])
               completion) initial_world
  = Raise (ValueError msg)
  /\ ~ str_infix (decimal_str (7 # 10)) msg
  /\ forallb (fun c => negb (is_09 c)) (list_ascii_of_string msg) = true.
Proof.
  intros msg. split; [vm_compute; reflexivity|].
  assert (Hplain : forallb (fun c => negb (is_09 c)) (list_ascii_of_string msg) = true)
    by (vm_compute; reflexivity).
  split; [|exact Hplain].
  intros Hinfix. pose proof (str_infix_forallb _ _ _ Hinfix Hplain) as H.
  vm_compute in H. discriminate.
Qed.

(** The message of a contextual hook is built from type names and the
    threshold; it can still coincide with text of the request.  Here the
    recognizer reports the word Presidio as an organization, and the word
    stands in the fixed part of the message. *)
Example presidio_message_may_coincide_with_text :
  let self := PIIPresidioPreCallGuardrail.Build Kwargs.empty "en" (7 # 10) None true
                (PIIPresidioDetection.Build "en" PIIPresidioDetection.default_entities
                   (constant_engine [ RecognizerResult.Build "ORGANIZATION" 10 18
                                        (85 # 100) ])) in
  exists msg,
    result_of (PIIPresidioPreCallGuardrail.async_pre_call_hook (rt := reference_runtime)
                 self sample_user sample_cache
                 (payload [ user_message (VStr "I work at Presidio") ]) completion)
              initial_world
    = Raise (ValueError msg)
    /\ py_slice "I work at Presidio" 10 18 = "Presidio"
    /\ str_infix "Presidio" msg.
Proof.
  intros self. eexists. split; [vm_compute; reflexivity|]. split; [reflexivity|].
  exists "Pre-call ",
    " guardrail blocked PII detected: ORGANIZATION (confidence >= 0.7)".
  reflexivity.
Qed.

(** ** Detection without blocking *)

Lemma presidio_precall_extends {rt : PyRuntime} self i m w :
  extends w (snd (PIIPresidioPreCallGuardrail.check_message self i m w)).
Proof.
  unfold PIIPresidioPreCallGuardrail.check_message.
  destruct m; try apply extends_refl.
  erewrite bind_ok; [|reflexivity].
  destruct (dict_get d "content") as [| | | |c| |]; try apply extends_refl.
  erewrite bind_ok; [|apply emit_logged].
  destruct (has_pii_run (PIIPresidioPreCallGuardrail.detector self) c
              (PIIPresidioPreCallGuardrail.threshold self)
              (logged (Log DEBUG ("Analyzing message " +:+ pretty i +:+ ": "
                                  +:+ py_slice c 0 100 +:+ "...")) w))
    as (found & evs & n & Hrun & _).
  erewrite bind_ok; [|exact Hrun].
  assert (H2 : extends w (World (trace (logged (Log DEBUG
                 ("Analyzing message " +:+ pretty i +:+ ": "
                  +:+ py_slice c 0 100 +:+ "...")) w) ++ evs) n)).
  { eapply extends_trans; [apply extends_logged|]. exists evs. reflexivity. }
  destruct found; [|exact H2].
  destruct (get_analysis_summary_run (PIIPresidioPreCallGuardrail.detector self) c
              (PIIPresidioPreCallGuardrail.threshold self)
              (World (trace (logged (Log DEBUG
                 ("Analyzing message " +:+ pretty i +:+ ": "
                  +:+ py_slice c 0 100 +:+ "...")) w) ++ evs) n))
    as (s & evs' & n' & Hs & _).
  erewrite bind_ok; [|exact Hs].
  erewrite bind_ok; [|apply emit_logged].
  assert (H3 : extends w (logged (PIIPresidioPreCallGuardrail.detected_warning i s)
                                 (World (trace (World (trace (logged (Log DEBUG
                 ("Analyzing message " +:+ pretty i +:+ ": "
                  +:+ py_slice c 0 100 +:+ "...")) w) ++ evs) n) ++ evs') n'))).
  { apply extends_logged_r. eapply extends_trans; [exact H2|].
    exists evs'. reflexivity. }
  destruct (PIIPresidioPreCallGuardrail.block_on_detection self); [exact H3|].
  rewrite emit_logged. apply extends_logged_r, H3.
Qed.

(** With blocking off, the body of the loop completes on every dictionary
    message. *)
Lemma presidio_precall_check_completes {rt : PyRuntime} self i m w :
  PIIPresidioPreCallGuardrail.block_on_detection self = false ->
  is_dict m = true ->
  exists w', PIIPresidioPreCallGuardrail.check_message self i m w = (Ok tt, w').
Proof.
  intros Hblock Hd. destruct m; try discriminate.
  unfold PIIPresidioPreCallGuardrail.check_message.
  erewrite bind_ok; [|reflexivity].
  destruct (dict_get d "content") as [| | | |c| |]; try (eexists; reflexivity).
  erewrite bind_ok; [|apply emit_logged].
  destruct (has_pii_run (PIIPresidioPreCallGuardrail.detector self) c
              (PIIPresidioPreCallGuardrail.threshold self)
              (logged (Log DEBUG ("Analyzing message " +:+ pretty i +:+ ": "
                                  +:+ py_slice c 0 100 +:+ "...")) w))
    as (found & evs & n & Hrun & _).
  erewrite bind_ok; [|exact Hrun].
  destruct found; [|eexists; reflexivity].
  destruct (get_analysis_summary_run (PIIPresidioPreCallGuardrail.detector self) c
              (PIIPresidioPreCallGuardrail.threshold self)
              (World (trace (logged (Log DEBUG
                 ("Analyzing message " +:+ pretty i +:+ ": "
                  +:+ py_slice c 0 100 +:+ "...")) w) ++ evs) n))
    as (s & evs' & n' & Hs & _).
  erewrite bind_ok; [|exact Hs].
  erewrite bind_ok; [|apply emit_logged].
  rewrite Hblock. eexists. reflexivity.
Qed.

Lemma presidio_precall_scan_completes {rt : PyRuntime} self ms :
  PIIPresidioPreCallGuardrail.block_on_detection self = false ->
  Forall (fun m => is_dict m = true) ms ->
  forall i w,
    exists w', for_each (PIIPresidioPreCallGuardrail.check_message self) i ms w = (Ok tt, w').
Proof.
  intros Hblock Hall. induction Hall as [|m ms Hm _ IH]; intros i w.
  - exists w. reflexivity.
  - destruct (presidio_precall_check_completes self i m w Hblock Hm) as (w1 & H1).
    destruct (IH (S i) w1) as (w2 & H2).
    exists w2. simpl. erewrite bind_ok; [exact H2|exact H1].
Qed.

(** With blocking off, a message in which [has_pii] finds something gets
    its two warnings, and the loop goes on. *)
Lemma presidio_precall_warns {rt : PyRuntime} self d c i w w2 :
  PIIPresidioPreCallGuardrail.block_on_detection self = false ->
  dict_get d "content" = VStr c ->
  PIIPresidioDetection.has_pii
    (PIIPresidioPreCallGuardrail.detector self) c (PIIPresidioPreCallGuardrail.threshold self)
    (logged (Log DEBUG ("Analyzing message " +:+ pretty i +:+ ": "
                        +:+ py_slice c 0 100 +:+ "...")) w)
  = (Ok true, w2) ->
  exists s w3,
    PIIPresidioDetection.get_analysis_summary
      (PIIPresidioPreCallGuardrail.detector self) c
      (PIIPresidioPreCallGuardrail.threshold self) w2 = (Ok s, w3)
    /\ PIIPresidioPreCallGuardrail.check_message self i (VDict d) w
       = (Ok tt,
          logged (PIIPresidioPreCallGuardrail.not_blocking_warning s)
                 (logged (PIIPresidioPreCallGuardrail.detected_warning i s) w3)).
Proof.
  intros Hblock Hc Hpii.
  destruct (get_analysis_summary_run (PIIPresidioPreCallGuardrail.detector self) c
              (PIIPresidioPreCallGuardrail.threshold self) w2) as (s & evs & n & Hs & _).
  exists s, (World (trace w2 ++ evs) n). split; [exact Hs|].
  unfold PIIPresidioPreCallGuardrail.check_message.
  erewrite bind_ok; [|unfold get_method; rewrite Hc; reflexivity]. cbv beta iota.
  erewrite bind_ok; [|apply emit_logged].
  erewrite bind_ok; [|exact Hpii]. cbv beta iota.
  erewrite bind_ok; [|exact Hs].
  erewrite bind_ok; [|apply emit_logged].
  rewrite Hblock. reflexivity.
Qed.

(** The warning lists every detected type, as [repr] prints it. *)
Lemma not_blocking_warning_lists (s : Summary.t) ty :
  ty ∈ Summary.entity_types s ->
  exists text,
    PIIPresidioPreCallGuardrail.not_blocking_warning s = Log WARNING text
    /\ str_infix (repr_str ty) text.
Proof.
  intros Hin. eexists. split; [reflexivity|].
  unfold repr_list. apply str_infix_app_l, str_infix_app_l, str_infix_app_r.
  apply str_infix_join, elem_of_map_iff. exists ty. auto.
Qed.

(** The pattern pre-call hook does not read its keyword arguments. *)
Lemma regex_precall_ignores_kwargs kwargs :
  PIIRegexPreCallGuardrail.async_pre_call_hook (PIIRegexPreCallGuardrail.init kwargs)
  = PIIRegexPreCallGuardrail.async_pre_call_hook (PIIRegexPreCallGuardrail.init Kwargs.empty).
Proof. reflexivity. Qed.

(** C1, as the code has it.  For the contextual (Presidio) pre-call
    guardrail with [block_on_detection] false and a list of dictionary
    messages: the hook returns the payload it was given; [has_pii] is called
    on the text of every message, in order; and for every message in which
    it finds something, the two warnings are emitted, the second listing the
    detected types, before the scan goes on to the end.  The pattern
    pre-call guardrail has no such setting: it runs the same whatever its
    keyword arguments are. *)
Theorem C1_detection_without_blocking {rt : PyRuntime}
    (self : PIIPresidioPreCallGuardrail.t) (user : UserAPIKeyAuth) (cache : DualCache)
    (data : gmap string pyval) (ct : call_type) (w : world) (ms : list pyval) :
  PIIPresidioPreCallGuardrail.block_on_detection self = false ->
  data !! "messages" = Some (VList ms) ->
  Forall (fun m => is_dict m = true) ms ->
  (exists final,
      PIIPresidioPreCallGuardrail.async_pre_call_hook self user cache data ct w
      = (Ok data, final)
      /\ calls_since w final (omap text_content ms)
      /\ forall pre d c rest w1 w2,
          ms = pre ++ VDict d :: rest ->
          dict_get d "content" = VStr c ->
          for_each (PIIPresidioPreCallGuardrail.check_message self) 0 pre
            (logged (Log DEBUG "Presidio pre-call guardrail: Starting PII analysis") w)
          = (Ok tt, w1) ->
          PIIPresidioDetection.has_pii
            (PIIPresidioPreCallGuardrail.detector self) c
            (PIIPresidioPreCallGuardrail.threshold self)
            (logged (Log DEBUG ("Analyzing message " +:+ pretty (length pre) +:+ ": "
                                +:+ py_slice c 0 100 +:+ "...")) w1)
          = (Ok true, w2) ->
          exists s w3,
            PIIPresidioDetection.get_analysis_summary
              (PIIPresidioPreCallGuardrail.detector self) c
              (PIIPresidioPreCallGuardrail.threshold self) w2 = (Ok s, w3)
            /\ extends
                 (logged (PIIPresidioPreCallGuardrail.not_blocking_warning s)
                    (logged (PIIPresidioPreCallGuardrail.detected_warning (length pre) s) w3))
                 final
            /\ forall ty, ty ∈ Summary.entity_types s ->
                 exists text,
                   PIIPresidioPreCallGuardrail.not_blocking_warning s = Log WARNING text
                   /\ str_infix (repr_str ty) text)
  /\ (forall kwargs,
      PIIRegexPreCallGuardrail.async_pre_call_hook (PIIRegexPreCallGuardrail.init kwargs)
      = PIIRegexPreCallGuardrail.async_pre_call_hook
          (PIIRegexPreCallGuardrail.init Kwargs.empty)).
Proof.
  intros Hblock Hms Hdict. split; [|exact regex_precall_ignores_kwargs].
  unfold PIIPresidioPreCallGuardrail.async_pre_call_hook, dict_get. rewrite Hms.
  change (default VNone (Some ?v)) with v.
  erewrite bind_ok; [|apply emit_logged].
  destruct ms as [|m0 ms0].
  - exists (logged (Log DEBUG "No messages found in request data")
              (logged (Log DEBUG "Presidio pre-call guardrail: Starting PII analysis") w)).
    split; [reflexivity|]. split.
    + eapply (calls_since_trans _ _ _ [] []); apply calls_since_logged; reflexivity.
    + intros pre d c rest w1 w2 E. destruct pre; discriminate.
  - set (ms := m0 :: ms0) in *.
    set (w0 := logged (Log DEBUG "Presidio pre-call guardrail: Starting PII analysis") w).
    destruct (presidio_precall_scan_completes self ms Hblock Hdict 0 w0) as (wend & Hscan).
    exists (logged (Log DEBUG "Presidio pre-call guardrail: PII analysis passed") wend).
    split; [|split].
    + change (truthy (VList ms)) with true. cbv beta iota delta [negb].
      erewrite bind_ok; [|reflexivity].
      erewrite bind_ok; [|exact Hscan]. reflexivity.
    + rewrite <- (app_nil_r (omap text_content ms)).
      eapply (calls_since_trans _ w0 _ [] _); [apply calls_since_logged; reflexivity|].
      eapply calls_since_trans; [|apply calls_since_logged; reflexivity].
      eapply for_each_calls; [|exact Hscan].
      intros i x w1 w1'. apply presidio_precall_calls.
    + intros pre d c rest w1 w2 E Hc Hpre Hpii.
      destruct (presidio_precall_warns self d c (length pre) w1 w2 Hblock Hc Hpii)
        as (s & w3 & Hs & Hstep).
      exists s, w3. split; [exact Hs|]. split; [|apply not_blocking_warning_lists].
      apply extends_logged_r.
      rewrite E, for_each_app, Hpre in Hscan. simpl in Hscan.
      erewrite bind_ok in Hscan; [|exact Hstep].
      pose proof (for_each_extends (PIIPresidioPreCallGuardrail.check_message self) rest
                    (presidio_precall_extends self) (S (length pre))
                    (logged (PIIPresidioPreCallGuardrail.not_blocking_warning s)
                       (logged (PIIPresidioPreCallGuardrail.detected_warning (length pre) s)
                               w3))) as Hext.
      rewrite Hscan in Hext. exact Hext.
Qed.

Lemma C1_detection_without_blocking_witness :
  let data := payload [ user_message (VStr "Call me at 555-123-4567") ] in
  exists final,
    PIIPresidioPreCallGuardrail.async_pre_call_hook (rt := reference_runtime)
      (sample_presidio_precall false) sample_user sample_cache data completion initial_world
    = (Ok data, final)
    /\ Log WARNING "PII detected but not blocking: ['PHONE_NUMBER']" ∈ trace final.
Proof.
  intros data.
  destruct (C1_detection_without_blocking (rt := reference_runtime)
              (sample_presidio_precall false) sample_user sample_cache data completion
              initial_world [ user_message (VStr "Call me at 555-123-4567") ])
    as [(final & Hrun & _ & Hwarn) _].
  - reflexivity.
  - reflexivity.
  - repeat constructor.
  - exists final. split; [exact Hrun|].
    edestruct (Hwarn [] (content_dict (VStr "Call me at 555-123-4567"))
                 "Call me at 555-123-4567" []) as (s & w3 & Hs & (events & Hext) & _).
    + reflexivity.
    + reflexivity.
    + reflexivity.
    + vm_compute. reflexivity.
    + vm_compute in Hs. injection Hs as <- <-. rewrite Hext.
      apply elem_of_app. left. apply elem_of_app. right.
      apply list_elem_of_singleton. vm_compute. reflexivity.
Defined.

(** C1 as the specification states it fails for the pattern guardrail: built
    with [block_on_detection] false, it still raises on a message with a
    phone number, and emits no warning. *)
Lemma C1_counterexample :
  PIIRegexPreCallGuardrail.async_pre_call_hook
    (PIIRegexPreCallGuardrail.init (Kwargs.Build None None None (Some false)))
    sample_user sample_cache
    (payload [ user_message (VStr "Call me at 555-123-4567") ]) completion initial_world
  = (Raise (ValueError "Pre-call guardrail blocked PII detected: phone"),
     World [ DetectorCall m_has_pii "Call me at 555-123-4567";
             DetectorCall m_get_detected_types "Call me at 555-123-4567" ] 0).
Proof. vm_compute. reflexivity. Qed.

(** ** Scenarios of the specification, on the pattern detector *)

Example scenario_email :
  PIIRegexDetection.has_pii PIIRegexDetection.init "My email is john.doe@company.com" = true
  /\ PIIRegexDetection.get_detected_types PIIRegexDetection.init
       "My email is john.doe@company.com" = ["email"].
Proof. split; vm_compute; reflexivity. Qed.

Example scenario_ssn :
  PIIRegexDetection.has_pii PIIRegexDetection.init "My SSN is 123-45-6789" = true
  /\ PIIRegexDetection.get_detected_types PIIRegexDetection.init
       "My SSN is 123-45-6789" = ["ssn"].
Proof. split; vm_compute; reflexivity. Qed.

Example scenario_phone :
  PIIRegexDetection.get_detected_types PIIRegexDetection.init
    "Call me at (555) 123-4567" = ["phone"].
Proof. vm_compute. reflexivity. Qed.

Example scenario_card :
  PIIRegexDetection.get_detected_types PIIRegexDetection.init
    "CC: 4532 1143 8765 3210" = ["credit_card"].
Proof. vm_compute. reflexivity. Qed.

Example scenario_clean :
  PIIRegexDetection.has_pii PIIRegexDetection.init "What is 2+2?" = false
  /\ PIIRegexDetection.has_pii PIIRegexDetection.init
       "Dr. Amanda Rodriguez from Boston Medical Center called" = false.
Proof. split; vm_compute; reflexivity. Qed.

(** * Further properties of the code *)

(** ** What the pattern detector reports *)

(** Taking a derivation of [matches] apart along a concrete pattern. *)
Ltac invert_matches :=
  repeat match goal with
  | H : matches (Seq _ _) _ _ _ _ |- _ => inversion H; subst; clear H
  | H : matches Eps _ _ _ _ |- _ => inversion H; subst; clear H
  | H : matches (Cls _) _ _ _ _ |- _ => inversion H; subst; clear H
  | H : matches (Alt _ _) _ _ _ _ |- _ => inversion H; subst; clear H
  | H : matches (Opt _) _ _ _ _ |- _ => inversion H; subst; clear H
  | H : matches (Rep _ _ _) _ _ _ _ |- _ => inversion H; subst; clear H
  | H : matches WordBoundary _ _ _ _ |- _ => inversion H; subst; clear H
  end.

Lemma email_occurrence_inv text before matched after :
  occurrence PIIRegexDetection.email_re text before matched after ->
  email_address matched
  /\ at_boundary (last before) (matched ++ after) = true
  /\ at_boundary (last matched) after = true.
Proof.
  intros [E Hm].
  unfold PIIRegexDetection.email_re, seqs, at_least, lit in Hm. simpl in Hm.
  invert_matches.
  repeat match goal with
  | H : Ascii.eqb _ _ = true |- _ => apply Ascii.eqb_eq in H; subst
  end.
  match goal with
  | H : matched ++ after = ?l ++ "@"%char :: ?d ++ "."%char :: ?f ++ after |- _ =>
      assert (Hmatched : matched = l ++ "@"%char :: d ++ "."%char :: f)
        by (apply (app_inv_tail after); rewrite H, <- !app_assoc; simpl;
            rewrite <- !app_assoc; reflexivity);
      clear H
  end.
  subst matched.
  assert (Hfne : taken <> []) by (destruct taken; [simpl in *; lia|discriminate]).
  split; [|split].
  - exists taken1, taken0, taken. repeat split; auto.
    + destruct taken1; [simpl in *; lia|discriminate].
    + destruct taken0; [simpl in *; lia|discriminate].
  - assumption.
  - rewrite last_as_last_seen.
    rewrite last_seen_app, last_seen_cons, last_seen_app, last_seen_cons.
    rewrite last_seen_nonempty in * by exact Hfne. assumption.
Qed.

(** The names [get_detected_types] reports are those of the patterns that
    match. *)
Lemma regex_type_reported (self : PIIRegexDetection.t) (text ty : string) :
  text <> "" ->
  ty ∈ PIIRegexDetection.get_detected_types self text <->
  (ty = "email" /\ search (PIIRegexDetection.email_pattern self) text = true)
  \/ (ty = "ssn" /\ search (PIIRegexDetection.ssn_pattern self) text = true)
  \/ (ty = "phone" /\ search (PIIRegexDetection.phone_pattern self) text = true)
  \/ (ty = "credit_card"
      /\ search (PIIRegexDetection.credit_card_pattern self) text = true).
Proof.
  intros Hne. unfold PIIRegexDetection.get_detected_types.
  destruct text as [|c text]; [contradiction|].
  destruct (search (PIIRegexDetection.email_pattern self) _),
           (search (PIIRegexDetection.ssn_pattern self) _),
           (search (PIIRegexDetection.phone_pattern self) _),
           (search (PIIRegexDetection.credit_card_pattern self) _);
    simpl; rewrite ?elem_of_cons, ?elem_of_nil; intuition congruence.
Qed.

Lemma search_empty_formats :
  forallb (fun r => negb (search r "")) structured_formats = true.
Proof. vm_compute. reflexivity. Qed.

(** X1. [get_detected_types] reports "email" exactly for the texts that hold
    an address (local part, at-sign, domain, dot, at least two letters) that
    begins and ends at a word boundary. *)
Theorem email_reported_iff (text : string) :
  "email" ∈ PIIRegexDetection.get_detected_types PIIRegexDetection.init text <->
  exists before addr after,
    list_ascii_of_string text = before ++ addr ++ after
    /\ email_address addr
    /\ at_boundary (last before) (addr ++ after) = true
    /\ at_boundary (last addr) after = true.
Proof.
  split.
  - intros Hin. destruct (String.eqb_spec text "") as [->|Hne].
    { vm_compute in Hin. apply elem_of_nil in Hin. contradiction. }
    apply (regex_type_reported _ _ _ Hne) in Hin
      as [[_ Hs]|[[? _]|[[? _]|[? _]]]]; try discriminate.
    apply search_occurs in Hs as (before & matched & after & Hocc).
    exists before, matched, after. split; [apply Hocc|].
    apply (email_occurrence_inv _ _ _ _ Hocc).
  - intros (before & addr & after & E & Haddr & Hb1 & Hb2).
    apply (email_detected _ _ _ _ E Haddr Hb1 Hb2).
Qed.

(** *** Runs and optional characters *)

Lemma matches_run p n l prev rest :
  run p n l -> matches (exactly p n) prev (l ++ rest) (last_seen prev l) rest.
Proof.
  intros [Hlen Hall]. apply matches_Rep; [exact Hall|lia|simpl; lia].
Qed.

Lemma matches_run_inv p n prev rest prev' rest' :
  matches (exactly p n) prev rest prev' rest' ->
  exists l, run p n l /\ rest = l ++ rest' /\ prev' = last_seen prev l.
Proof.
  unfold exactly. intros H. inversion H; subst.
  exists taken. split; [split; [simpl in *; lia|assumption]|]. auto.
Qed.

Lemma matches_optional p s prev rest :
  optional p s -> matches (Opt (Cls p)) prev (s ++ rest) (last_seen prev s) rest.
Proof.
  intros [->|(c & -> & Hc)].
  - apply matches_Opt_none.
  - apply matches_Opt_some, matches_Cls, Hc.
Qed.

Lemma matches_optional_inv p prev rest prev' rest' :
  matches (Opt (Cls p)) prev rest prev' rest' ->
  exists s, optional p s /\ rest = s ++ rest' /\ prev' = last_seen prev s.
Proof.
  intros H. inversion H as [| | | | | |? ? ? ? ? H1|? ? ?|]; subst.
  - inversion H1; subst. exists [c]. split; [right; eauto|]. auto.
  - exists []. split; [left; reflexivity|]. auto.
Qed.

Lemma run_nonempty p n l : run p (S n) l -> l <> [].
Proof. intros [Hlen _] ->. discriminate. Qed.

Lemma last_seen_app_nonempty prev xs ys :
  ys <> [] -> last_seen prev (xs ++ ys) = last ys.
Proof. intros Hne. rewrite last_seen_app. apply last_seen_nonempty, Hne. Qed.

(** An occurrence stands between two word boundaries when the pattern
    begins and ends with [\b]. *)
Lemma occurrence_stands_in r text before matched after :
  occurrence (Seq WordBoundary (Seq r (Seq WordBoundary Eps))) text before matched after ->
  stands_in text matched
  /\ matches r (last before) (matched ++ after) (last_seen (last before) matched) after.
Proof.
  intros [E Hm]. invert_matches. split; [|assumption].
  exists before, after. auto.
Qed.

Lemma stands_in_occurrence r text matched :
  stands_in text matched ->
  (forall prev after,
      matches r prev (matched ++ after) (last_seen prev matched) after) ->
  occurs (Seq WordBoundary (Seq r (Seq WordBoundary Eps))) text.
Proof.
  intros (before & after & E & Hb1 & Hb2) Hm. exists before, matched, after.
  split; [exact E|].
  eapply matches_Seq; [apply matches_WordBoundary, Hb1|].
  eapply matches_Seq; [apply Hm|].
  eapply matches_Seq; [apply matches_WordBoundary, Hb2|apply matches_Eps].
Qed.

(** *** Social security numbers *)

Lemma ssn_matches l prev after :
  ssn_number l ->
  matches (Alt (seqs [ exactly uni_digit 3; Opt (Cls PIIRegexDetection.dash_space);
                       exactly uni_digit 2; Opt (Cls PIIRegexDetection.dash_space);
                       exactly uni_digit 4 ])
               (exactly uni_digit 9))
          prev (l ++ after) (last_seen prev l) after.
Proof.
  intros [(a & s1 & b & s2 & c & -> & Ha & Hs1 & Hb & Hs2 & Hc)|H9].
  - apply matches_Alt_l. unfold seqs. simpl.
    rewrite !last_seen_app, <- !app_assoc.
    eapply matches_Seq; [apply matches_run, Ha|].
    eapply matches_Seq; [apply matches_optional, Hs1|].
    eapply matches_Seq; [apply matches_run, Hb|].
    eapply matches_Seq; [apply matches_optional, Hs2|].
    eapply matches_Seq; [apply matches_run, Hc|apply matches_Eps].
  - apply matches_Alt_r, matches_run, H9.
Qed.

Lemma ssn_matches_inv l prev prev' after :
  matches (Alt (seqs [ exactly uni_digit 3; Opt (Cls PIIRegexDetection.dash_space);
                       exactly uni_digit 2; Opt (Cls PIIRegexDetection.dash_space);
                       exactly uni_digit 4 ])
               (exactly uni_digit 9))
          prev (l ++ after) prev' after ->
  ssn_number l.
Proof.
  intros H. inversion H as [| | |? ? ? ? ? ? H1|? ? ? ? ? ? H1| | | |]; subst; clear H.
  - unfold seqs in H1. simpl in H1.
    inversion H1 as [| |? ? ? ? ? ? ? ? Ha H2| | | | | |]; subst; clear H1.
    inversion H2 as [| |? ? ? ? ? ? ? ? Hs1 H3| | | | | |]; subst; clear H2.
    inversion H3 as [| |? ? ? ? ? ? ? ? Hb H4| | | | | |]; subst; clear H3.
    inversion H4 as [| |? ? ? ? ? ? ? ? Hs2 H5| | | | | |]; subst; clear H4.
    inversion H5 as [| |? ? ? ? ? ? ? ? Hc H6| | | | | |]; subst; clear H5.
    inversion H6; subst; clear H6.
    apply matches_run_inv in Ha as (a & Ha & Ea & _).
    apply matches_optional_inv in Hs1 as (s1 & Hs1 & Es1 & _).
    apply matches_run_inv in Hb as (b & Hb & Eb & _).
    apply matches_optional_inv in Hs2 as (s2 & Hs2 & Es2 & _).
    apply matches_run_inv in Hc as (c & Hc & Ec & _).
    subst. left. exists a, s1, b, s2, c. split; [|auto 10].
    apply (app_inv_tail after). rewrite Ea, <- !app_assoc. reflexivity.
  - apply matches_run_inv in H1 as (d & Hd & Ed & _).
    apply app_inv_tail in Ed. subst. right. exact Hd.
Qed.

(** X2. [get_detected_types] reports "ssn" exactly for the texts in which
    3, 2 and 4 digits with optional hyphen or whitespace separators, or 9
    digits in a row, stand between two word boundaries. *)
Theorem ssn_reported_iff (text : string) :
  "ssn" ∈ PIIRegexDetection.get_detected_types PIIRegexDetection.init text <->
  exists number, ssn_number number /\ stands_in text number.
Proof.
  split.
  - intros Hin. destruct (String.eqb_spec text "") as [->|Hne].
    { vm_compute in Hin. apply elem_of_nil in Hin. contradiction. }
    apply (regex_type_reported _ _ _ Hne) in Hin
      as [[? _]|[[_ Hs]|[[? _]|[? _]]]]; try discriminate.
    apply search_occurs in Hs as (before & matched & after & Hocc).
    apply occurrence_stands_in in Hocc as [Hstands Hm].
    exists matched. split; [|exact Hstands].
    eapply ssn_matches_inv, Hm.
  - intros (number & Hnum & Hstands).
    assert (Hne : text <> "").
    { intros ->. destruct Hstands as (before & after & E & _).
      destruct before; [|discriminate]. destruct number; [|discriminate].
      destruct Hnum as [(a & s1 & b & s2 & c & E' & Ha & _)|H9].
      - symmetry in E'. apply app_eq_nil in E' as [-> _].
        exact (run_nonempty _ _ _ Ha eq_refl).
      - exact (run_nonempty _ _ _ H9 eq_refl). }
    apply (regex_type_reported _ _ _ Hne). right. left. split; [reflexivity|].
    apply search_occurs.
    apply (stands_in_occurrence _ _ _ Hstands).
    intros prev after. apply ssn_matches, Hnum.
Qed.

(** *** Phone numbers *)

Ltac split_seq H Hhead Htail :=
  inversion H as [| |? ? ? ? ? ? ? ? Hhead Htail| | | | | |]; subst; clear H.

Lemma country_code_matches code prev rest :
  country_code code ->
  matches country_code_re prev (code ++ rest) (last_seen prev code) rest.
Proof.
  intros [->|(plus & sep & -> & Hplus & Hsep)].
  - apply matches_Opt_none.
  - apply matches_Opt_some. unfold seqs, lit. simpl.
    rewrite last_seen_app, last_seen_cons, <- app_assoc. simpl.
    eapply matches_Seq; [apply matches_optional, Hplus|].
    eapply matches_Seq; [apply matches_Cls; reflexivity|].
    eapply matches_Seq; [apply matches_optional, Hsep|apply matches_Eps].
Qed.

Lemma country_code_matches_inv prev rest prev' rest' :
  matches country_code_re prev rest prev' rest' ->
  exists code, country_code code /\ rest = code ++ rest'.
Proof.
  intros H. inversion H as [| | | | | |? ? ? ? ? H1|? ? ?|]; subst; clear H.
  - unfold seqs, lit in H1. simpl in H1.
    split_seq H1 Hplus H2. split_seq H2 Hone H3. split_seq H3 Hsep H4.
    inversion H4; subst; clear H4.
    apply matches_optional_inv in Hplus as (plus & Hplus & -> & _).
    apply matches_optional_inv in Hsep as (sep & Hsep & Es & _).
    inversion Hone as [|? ? c ? Hc| | | | | | |]; subst.
    apply Ascii.eqb_eq in Hc. subst c.
    exists (plus ++ "1"%char :: sep). split.
    + right. exists plus, sep. auto.
    + rewrite <- app_assoc. reflexivity.
  - exists []. split; [left; reflexivity|reflexivity].
Qed.

Lemma phone_occurs text number :
  phone_number number -> stands_in text number ->
  occurs PIIRegexDetection.phone_re text.
Proof.
  intros (code & opening & area & closing & s1 & exchange & s2 & subscriber
          & -> & Hcode & Hopen & Harea & Hclose & Hs1 & Hex & Hs2 & Hsub)
         (before & after & E & Hb1 & Hb2).
  eexists before, _, after. eapply occurrence_intro; [exact E|].
  unfold PIIRegexDetection.phone_re. fold country_code_re. unfold seqs, lit. simpl.
  rewrite !last_seen_app in Hb2. rewrite <- !app_assoc.
  eapply matches_Seq; [apply matches_WordBoundary; rewrite <- !app_assoc in Hb1; exact Hb1|].
  eapply matches_Seq; [apply country_code_matches, Hcode|].
  eapply matches_Seq; [apply matches_optional, Hopen|].
  eapply matches_Seq; [apply matches_run, Harea|].
  eapply matches_Seq; [apply matches_optional, Hclose|].
  eapply matches_Seq; [apply matches_optional, Hs1|].
  eapply matches_Seq; [apply matches_run, Hex|].
  eapply matches_Seq; [apply matches_optional, Hs2|].
  eapply matches_Seq; [apply matches_run, Hsub|].
  eapply matches_Seq; [apply matches_WordBoundary, Hb2|apply matches_Eps].
Qed.

Lemma phone_occurrence_inv text before matched after :
  occurrence PIIRegexDetection.phone_re text before matched after ->
  phone_number matched /\ stands_in text matched.
Proof.
  intros [E Hm].
  unfold PIIRegexDetection.phone_re in Hm. fold country_code_re in Hm.
  unfold seqs, lit in Hm. simpl in Hm.
  split_seq Hm Hb1 H1. split_seq H1 Hcode H2. split_seq H2 Hopen H3.
  split_seq H3 Harea H4. split_seq H4 Hclose H5. split_seq H5 Hs1 H6.
  split_seq H6 Hex H7. split_seq H7 Hs2 H8. split_seq H8 Hsub H9.
  split_seq H9 Hb2 H10.
  inversion H10; subst; clear H10.
  inversion Hb1; subst. inversion Hb2; subst.
  apply country_code_matches_inv in Hcode as (code & Hcode & Ecode).
  apply matches_optional_inv in Hopen as (opening & Hopen & -> & _).
  apply matches_run_inv in Harea as (area & Harea & -> & _).
  apply matches_optional_inv in Hclose as (closing & Hclose & -> & _).
  apply matches_optional_inv in Hs1 as (s1 & Hs1 & -> & _).
  apply matches_run_inv in Hex as (exchange & Hex & -> & _).
  apply matches_optional_inv in Hs2 as (s2 & Hs2 & -> & _).
  apply matches_run_inv in Hsub as (subscriber & Hsub & Esub & _).
  subst.
  assert (Hmatched :
    matched = code ++ opening ++ area ++ closing ++ s1 ++ exchange ++ s2 ++ subscriber).
  { apply (app_inv_tail after). rewrite Ecode, <- !app_assoc. reflexivity. }
  split.
  - exists code, opening, area, closing, s1, exchange, s2, subscriber. auto 12.
  - exists before, after. auto.
Qed.

(** X3. [get_detected_types] reports "phone" exactly for the texts in which
    a number of the shape read by the phone pattern (optional country code 1,
    area code with optional parentheses, 3 and 4 digits, optional separators)
    stands between two word boundaries. *)
Theorem phone_reported_iff (text : string) :
  "phone" ∈ PIIRegexDetection.get_detected_types PIIRegexDetection.init text <->
  exists number, phone_number number /\ stands_in text number.
Proof.
  split.
  - intros Hin. destruct (String.eqb_spec text "") as [->|Hne].
    { vm_compute in Hin. apply elem_of_nil in Hin. contradiction. }
    apply (regex_type_reported _ _ _ Hne) in Hin
      as [[? _]|[[? _]|[[_ Hs]|[? _]]]]; try discriminate.
    apply search_occurs in Hs as (before & matched & after & Hocc).
    exists matched. apply (phone_occurrence_inv _ _ _ _ Hocc).
  - intros (number & Hnum & Hstands).
    pose proof (phone_occurs _ _ Hnum Hstands) as Hocc.
    assert (Hne : text <> "").
    { intros ->. apply search_occurs in Hocc. vm_compute in Hocc. discriminate. }
    apply (regex_type_reported _ _ _ Hne). right. right. left. split; [reflexivity|].
    apply search_occurs, Hocc.
Qed.

Lemma sample_email_address :
  email_address (list_ascii_of_string "john.doe@company.com").
Proof.
  exists (list_ascii_of_string "john.doe"), (list_ascii_of_string "company"),
    (list_ascii_of_string "com").
  split; [reflexivity|]. split; [discriminate|].
  split; [repeat constructor|]. split; [discriminate|].
  split; [repeat constructor|]. split; [simpl; lia|repeat constructor].
Qed.

Lemma email_reported_iff_witness :
  "email" ∈ PIIRegexDetection.get_detected_types PIIRegexDetection.init
              "Mail john.doe@company.com now".
Proof.
  apply (proj2 (email_reported_iff "Mail john.doe@company.com now")).
  exists (list_ascii_of_string "Mail "), (list_ascii_of_string "john.doe@company.com"),
    (list_ascii_of_string " now").
  split; [reflexivity|]. split; [apply sample_email_address|].
  split; reflexivity.
Defined.

Lemma run_check p n l :
  (length l =? n)%nat && forallb p l = true -> run p n l.
Proof.
  rewrite andb_true_iff, Nat.eqb_eq, forallb_forall. intros [Hlen Hall].
  split; [exact Hlen|]. apply Forall_forall. intros c Hc.
  apply Hall, list_elem_of_In, Hc.
Qed.

Lemma optional_one (p : ascii -> bool) c : p c = true -> optional p [c].
Proof. intros Hc. right. exists c. auto. Qed.

Lemma optional_none (p : ascii -> bool) : optional p [].
Proof. left. reflexivity. Qed.

Lemma ssn_reported_iff_witness :
  "ssn" ∈ PIIRegexDetection.get_detected_types PIIRegexDetection.init
            "My SSN is 123-45-6789".
Proof.
  apply (proj2 (ssn_reported_iff "My SSN is 123-45-6789")).
  exists (list_ascii_of_string "123-45-6789"). split.
  - left. exists (list_ascii_of_string "123"), (list_ascii_of_string "-"),
      (list_ascii_of_string "45"), (list_ascii_of_string "-"),
      (list_ascii_of_string "6789").
    split; [reflexivity|].
    split; [apply run_check; reflexivity|]. split; [apply optional_one; reflexivity|].
    split; [apply run_check; reflexivity|]. split; [apply optional_one; reflexivity|].
    apply run_check; reflexivity.
  - exists (list_ascii_of_string "My SSN is "), []. repeat split; reflexivity.
Defined.

Lemma phone_reported_iff_witness :
  "phone" ∈ PIIRegexDetection.get_detected_types PIIRegexDetection.init
              "Call me at (555) 123-4567".
Proof.
  apply (proj2 (phone_reported_iff "Call me at (555) 123-4567")).
  exists (list_ascii_of_string "555) 123-4567"). split.
  - exists [], [], (list_ascii_of_string "555"), (list_ascii_of_string ")"),
      (list_ascii_of_string " "), (list_ascii_of_string "123"),
      (list_ascii_of_string "-"), (list_ascii_of_string "4567").
    split; [reflexivity|]. split; [left; reflexivity|].
    split; [apply optional_none|]. split; [apply run_check; reflexivity|].
    split; [apply optional_one; reflexivity|]. split; [apply optional_one; reflexivity|].
    split; [apply run_check; reflexivity|]. split; [apply optional_one; reflexivity|].
    apply run_check; reflexivity.
  - exists (list_ascii_of_string "Call me at ("), []. repeat split; reflexivity.
Defined.



(** ** What the contextual detector asks and returns *)

Lemma lstrip_head cs c rest : lstrip cs = c :: rest -> uni_space c = false.
Proof.
  induction cs as [|x cs IH]; simpl; [discriminate|].
  destruct (uni_space x) eqn:Hx; [exact IH|].
  intros E. injection E as -> _. exact Hx.
Qed.

Lemma lstrip_nil_inv cs : lstrip cs = [] -> Forall (fun c => uni_space c = true) cs.
Proof.
  induction cs as [|x cs IH]; simpl; [constructor|].
  destruct (uni_space x) eqn:Hx; [|discriminate].
  intros E. constructor; [exact Hx|exact (IH E)].
Qed.

Lemma string_of_list_ascii_nil cs : string_of_list_ascii cs = "" -> cs = [].
Proof. destruct cs; [reflexivity|discriminate]. Qed.

Lemma blank_iff_whitespace_only text :
  PIIPresidioDetection.blank text = true <-> whitespace_only text.
Proof.
  split; [|apply blank_whitespace_only].
  unfold PIIPresidioDetection.blank, whitespace_only, py_strip, truthy.
  rewrite orb_true_iff, !negb_true_iff, !negb_false_iff, !String.eqb_eq.
  intros [->|E]; [constructor|].
  apply string_of_list_ascii_nil in E.
  assert (E' : lstrip (rev (lstrip (list_ascii_of_string text))) = []).
  { destruct (lstrip (rev _)); [reflexivity|].
    simpl in E. destruct (rev l); discriminate. }
  apply lstrip_nil_inv in E'.
  destruct (lstrip (list_ascii_of_string text)) as [|c rest] eqn:El.
  - apply lstrip_nil_inv, El.
  - apply lstrip_head in El as Hc.
    apply Forall_rev in E'. rewrite rev_involutive in E'.
    inversion E'; subst. congruence.
Qed.

Lemma consults_intro {A} (m : M A) w value events calls :
  m w = (Ok value, World (trace w ++ events) (analyses w + length calls)) ->
  recognizer_calls events = calls ->
  consults m w calls.
Proof. intros Hrun Hcalls. exists value, events. auto. Qed.

Lemma every_method_consults_by_blank {rt : PyRuntime} self text threshold w :
  every_method_consults self text threshold w
    (if PIIPresidioDetection.blank text then [] else [question self text]).
Proof.
  unfold every_method_consults, question.
  destruct (PIIPresidioDetection.blank text) eqn:Hblank.
  - repeat split; eapply consults_intro;
      try (run_detector; rewrite Hblank; simpl; rewrite Nat.add_0_r, <- ?app_assoc;
           reflexivity);
      reflexivity.
  - repeat split;
      destruct (PIIPresidioDetection.analyzer self (analyses w) text
                  (PIIPresidioDetection.entities_to_detect self)
                  (PIIPresidioDetection.language self)) eqn:Hanswer;
      eapply consults_intro;
      try (run_detector; rewrite Hblank; simpl; rewrite Hanswer; simpl;
           rewrite Nat.add_1_r, <- ?app_assoc; simpl; reflexivity);
      reflexivity.
Qed.

(** X5. Every method of the contextual detector returns without raising; on
    a text with a character that is not whitespace it asks the recognizer
    once, about that text, with the configured entities and language, and on
    a whitespace-only text it does not ask at all. *)
Theorem detector_consults_recognizer {rt : PyRuntime}
    (self : PIIPresidioDetection.t) (text : string) (threshold : Q) (w : world) :
  (whitespace_only text -> every_method_consults self text threshold w [])
  /\ (~ whitespace_only text ->
      every_method_consults self text threshold w [question self text]).
Proof.
  pose proof (every_method_consults_by_blank self text threshold w) as H.
  split; intros Hws.
  - apply blank_iff_whitespace_only in Hws. rewrite Hws in H. exact H.
  - destruct (PIIPresidioDetection.blank text) eqn:Hblank; [|exact H].
    apply blank_iff_whitespace_only in Hblank. contradiction.
Qed.

Lemma detector_consults_recognizer_witness :
  every_method_consults (rt := reference_runtime) sample_detector "   " (7 # 10)
    initial_world []
  /\ every_method_consults (rt := reference_runtime) sample_detector
       "My name is Sarah Johnson" (7 # 10) initial_world
       [("My name is Sarah Johnson", PIIPresidioDetection.default_entities, "en")].
Proof.
  split.
  - apply (proj1 (detector_consults_recognizer (rt := reference_runtime)
                    sample_detector "   " (7 # 10) initial_world)).
    repeat constructor.
  - apply (proj2 (detector_consults_recognizer (rt := reference_runtime) sample_detector
                    "My name is Sarah Johnson" (7 # 10) initial_world)).
    intros Hws. inversion Hws. discriminate.
Defined.

(** *** Slices are pieces of the text *)

Lemma substring_prefix (s : string) : forall m, exists after, s = String.substring 0 m s +:+ after.
Proof.
  induction s as [|c s IH]; intros [|m]; simpl.
  - exists "". reflexivity.
  - exists "". reflexivity.
  - exists (String c s). reflexivity.
  - destruct (IH m) as [after E]. exists after.
    change (String c s = String c (String.substring 0 m s +:+ after)).
    f_equal. exact E.
Qed.

Lemma substring_infix (s : string) : forall n m, str_infix (String.substring n m s) s.
Proof.
  induction s as [|c s IH]; intros n m.
  - exists "", "". destruct n, m; reflexivity.
  - destruct n as [|n].
    + destruct (substring_prefix (String c s) m) as [after E].
      exists "", after. exact E.
    + simpl. destruct (IH n m) as (before & after & E).
      exists (String c before), after.
      change (String c s = String c (before +:+ String.substring n m s +:+ after)).
      f_equal. exact E.
Qed.

Lemma py_slice_infix (s : string) (start stop : Z) : str_infix (py_slice s start stop) s.
Proof. apply substring_infix. Qed.

(** X6. [get_detected_entities] never raises, and every entity it returns
    repeats a finding of the recognizer whose score reaches the threshold;
    its text is the slice of the analysed text between the offsets of the
    finding, hence a contiguous piece of that text whatever the offsets
    are. *)
Theorem detected_entities_sound
    (self : PIIPresidioDetection.t) (text : string) (threshold : Q) (w : world) :
  exists entities w',
    PIIPresidioDetection.get_detected_entities self text threshold w = (Ok entities, w')
    /\ Forall (fun entity =>
         score_ge (Entity.score entity) threshold = true
         /\ Entity.text entity
            = py_slice text (Entity.start entity) (Entity.end_ entity)
         /\ str_infix (Entity.text entity) text
         /\ exists results,
              PIIPresidioDetection.analyzer self (analyses w) text
                (PIIPresidioDetection.entities_to_detect self)
                (PIIPresidioDetection.language self) = Results results
              /\ finding_of entity ∈ results) entities.
Proof.
  run_detector. destruct (PIIPresidioDetection.blank text); simpl.
  { eexists _, _. split; [reflexivity|constructor]. }
  destruct (PIIPresidioDetection.analyzer self (analyses w) text _ _)
    as [results|what] eqn:Hanswer; simpl.
  2: { eexists _, _. split; [reflexivity|constructor]. }
  eexists _, _. split; [reflexivity|].
  unfold PIIPresidioDetection.detected. apply Forall_forall. intros entity Hin.
  apply elem_of_map_iff in Hin as (result & Hin & <-).
  apply list_elem_of_In, filter_In in Hin as [Hin Hscore]. simpl.
  split; [exact Hscore|]. split; [reflexivity|]. split; [apply py_slice_infix|].
  exists results. split; [reflexivity|].
  unfold finding_of. simpl. destruct result. apply list_elem_of_In, Hin.
Qed.

Lemma existsb_filter {A B} (p : A -> bool) (f : A -> B) (l : list A) :
  existsb p l = (0 <? length (map f (List.filter p l)))%nat.
Proof.
  induction l as [|x l IH]; [reflexivity|]. simpl.
  destruct (p x); [reflexivity|exact IH].
Qed.

(** X7. When the recognizer gives the same answer to both calls, [has_pii]
    and the summary of [get_analysis_summary] agree: [has_pii] is true
    exactly when the summary lists an entity. *)
Theorem has_pii_agrees_with_summary {rt : PyRuntime}
    (self : PIIPresidioDetection.t) (text : string) (threshold : Q) (w w' : world) :
  PIIPresidioDetection.analyzer self (analyses w) text
    (PIIPresidioDetection.entities_to_detect self) (PIIPresidioDetection.language self)
  = PIIPresidioDetection.analyzer self (analyses w') text
      (PIIPresidioDetection.entities_to_detect self) (PIIPresidioDetection.language self) ->
  exists found summary,
    result_of (PIIPresidioDetection.has_pii self text threshold) w = Ok found
    /\ result_of (PIIPresidioDetection.get_analysis_summary self text threshold) w'
       = Ok summary
    /\ Summary.has_pii summary = found
    /\ (found = true <-> Summary.entities summary <> []).
Proof.
  intros Hsame. run_detector.
  destruct (PIIPresidioDetection.blank text); simpl.
  { eexists _, _. repeat split; try reflexivity;
      [discriminate|intros H; exfalso; apply H; reflexivity]. }
  rewrite <- Hsame.
  destruct (PIIPresidioDetection.analyzer self (analyses w) text _ _)
    as [results|what]; simpl.
  2: { eexists _, _. repeat split; try reflexivity;
      [discriminate|intros H; exfalso; apply H; reflexivity]. }
  eexists _, _. split; [reflexivity|]. split; [reflexivity|]. simpl.
  unfold PIIPresidioDetection.detected.
  rewrite (existsb_filter _ (fun result =>
             Entity.Build (RecognizerResult.entity_type result)
               (RecognizerResult.start result) (RecognizerResult.end_ result)
               (RecognizerResult.score result)
               (py_slice text (RecognizerResult.start result)
                              (RecognizerResult.end_ result)))).
  split; [reflexivity|].
  destruct (map _ _); simpl; split; intros H;
    first [discriminate|reflexivity|exfalso; apply H; reflexivity].
Qed.

Lemma has_pii_agrees_with_summary_witness :
  exists summary,
    result_of (PIIPresidioDetection.has_pii sample_detector
                 "My name is Sarah Johnson" (7 # 10)) initial_world = Ok true
    /\ result_of (PIIPresidioDetection.get_analysis_summary (rt := reference_runtime)
                    sample_detector "My name is Sarah Johnson" (7 # 10))
                 (World [] 1) = Ok summary
    /\ Summary.entities summary <> [].
Proof.
  destruct (has_pii_agrees_with_summary (rt := reference_runtime) sample_detector
              "My name is Sarah Johnson" (7 # 10) initial_world (World [] 1) eq_refl)
    as (found & summary & Hfound & Hsummary & _ & Hiff).
  exists summary.
  assert (E : found = true) by (vm_compute in Hfound; congruence).
  subst found. split; [exact Hfound|]. split; [exact Hsummary|].
  apply Hiff. reflexivity.
Defined.

(** ** The verdict of the pattern hooks *)

(** A loop whose body decides by the element alone stops at the first
    element that is refused. *)
Lemma for_each_verdict {X} (body : nat -> X -> M unit) (verdict : X -> option exn)
    (xs : list X) :
  Forall (fun x => forall i w,
            fst (body i x w)
            = match verdict x with Some e => Raise e | None => Ok tt end) xs ->
  forall i w,
    fst (for_each body i xs w)
    = match head (omap verdict xs) with Some e => Raise e | None => Ok tt end.
Proof.
  induction 1 as [|x xs Hx _ IH]; intros i w; [reflexivity|].
  rewrite omap_cons_option_list. simpl. unfold bind.
  specialize (Hx i w). destruct (body i x w) as [[[]|e] w1]; simpl in Hx.
  - destruct (verdict x); [discriminate|]. simpl. apply IH.
  - destruct (verdict x); [|discriminate]. simpl. congruence.
Qed.

Lemma head_omap_find {X} (texts : X -> option string) (p : string -> bool)
    (f : string -> exn) (xs : list X) :
  head (omap (fun x => match texts x with
                       | Some text => if p text then Some (f text) else None
                       | None => None
                       end) xs)
  = f <$> List.find p (omap texts xs).
Proof.
  induction xs as [|x xs IH]; [reflexivity|].
  rewrite !omap_cons_option_list. destruct (texts x) as [text|]; simpl; [|exact IH].
  destruct (p text); [reflexivity|exact IH].
Qed.

Lemma regex_precall_check_verdict self m w :
  is_dict m = true ->
  fst (PIIRegexPreCallGuardrail.check_message self m w)
  = match match text_content m with
          | Some text =>
              if PIIRegexDetection.has_pii (PIIRegexPreCallGuardrail.detector self) text
              then Some (PIIRegexPreCallGuardrail.violation
                           (PIIRegexDetection.get_detected_types
                              (PIIRegexPreCallGuardrail.detector self) text))
              else None
          | None => None
          end with
    | Some e => Raise e
    | None => Ok tt
    end.
Proof.
  destruct m as [| | | | |l|d]; try discriminate. intros _.
  unfold PIIRegexPreCallGuardrail.check_message, text_content, get_method, called,
    bind, emit, ret, raise.
  destruct (dict_get d "content") as [| | | |c| |]; try reflexivity. simpl.
  destruct (PIIRegexDetection.has_pii _ c); reflexivity.
Qed.

Lemma regex_postcall_check_verdict self c w :
  fst (PIIRegexPostCallGuardrail.check_choice self c w)
  = match match choice_text c with
          | Some text =>
              if PIIRegexDetection.has_pii (PIIRegexPostCallGuardrail.detector self) text
              then Some (PIIRegexPostCallGuardrail.violation
                           (PIIRegexDetection.get_detected_types
                              (PIIRegexPostCallGuardrail.detector self) text))
              else None
          | None => None
          end with
    | Some e => Raise e
    | None => Ok tt
    end.
Proof.
  destruct c as [content|delta]; [|reflexivity].
  unfold PIIRegexPostCallGuardrail.check_choice, choice_text, called, bind, emit, ret, raise.
  destruct content as [| | | |text| |]; try reflexivity.
  destruct (truthy (VStr text)); [|reflexivity]. simpl.
  destruct (PIIRegexDetection.has_pii _ text); reflexivity.
Qed.

(** X8. On a payload whose messages are dictionaries, the pattern pre-call
    hook is decided by the first message text in which [has_pii] finds
    something: it raises the violation that names the types found in that
    text, and when there is no such text it returns the payload it was
    given. *)
Theorem regex_precall_verdict
    (self : PIIRegexPreCallGuardrail.t) (user : UserAPIKeyAuth) (cache : DualCache)
    (data : gmap string pyval) (ct : call_type) (w : world) (ms : list pyval) :
  data !! "messages" = Some (VList ms) ->
  Forall (fun m => is_dict m = true) ms ->
  result_of (PIIRegexPreCallGuardrail.async_pre_call_hook self user cache data ct) w
  = match List.find (PIIRegexDetection.has_pii (PIIRegexPreCallGuardrail.detector self))
                    (omap text_content ms) with
    | Some text =>
        Raise (PIIRegexPreCallGuardrail.violation
                 (PIIRegexDetection.get_detected_types
                    (PIIRegexPreCallGuardrail.detector self) text))
    | None => Ok data
    end.
Proof.
  intros Hdata Hdicts.
  pose proof (for_each_verdict (fun _ => PIIRegexPreCallGuardrail.check_message self) _ ms
                (Forall_impl _ _ _ Hdicts
                   (fun m Hm i w => regex_precall_check_verdict self m w Hm)) 0) as Hloop.
  rewrite head_omap_find in Hloop.
  unfold result_of, PIIRegexPreCallGuardrail.async_pre_call_hook, dict_get.
  rewrite Hdata. simpl.
  destruct ms as [|m ms'].
  { reflexivity. }
  change (truthy (VList (m :: ms'))) with true. cbv iota.
  unfold bind at 1. unfold bind at 1. unfold ret at 1. cbv beta iota.
  specialize (Hloop w).
  destruct (for_each _ 0 (m :: ms') w) as [[[]|e] w1]; simpl in Hloop |- *;
    destruct (List.find _ _); simpl in Hloop; congruence.
Qed.

(** X9. The pattern post-call hook is decided in the same way by the first
    choice whose content is a non-empty string in which [has_pii] finds
    something; a response that is not a [ModelResponse], streaming choices
    and contents that are empty or not a string are never refused. *)
Theorem regex_postcall_verdict
    (self : PIIRegexPostCallGuardrail.t) (data : gmap string pyval)
    (user : UserAPIKeyAuth) (resp : response) (w : world) :
  result_of (PIIRegexPostCallGuardrail.async_post_call_success_hook self data user resp) w
  = match resp with
    | ModelResponse choices =>
        match List.find (PIIRegexDetection.has_pii
                           (PIIRegexPostCallGuardrail.detector self))
                        (omap choice_text choices) with
        | Some text =>
            Raise (PIIRegexPostCallGuardrail.violation
                     (PIIRegexDetection.get_detected_types
                        (PIIRegexPostCallGuardrail.detector self) text))
        | None => Ok tt
        end
    | OtherResponse _ => Ok tt
    end.
Proof.
  unfold result_of, PIIRegexPostCallGuardrail.async_post_call_success_hook.
  destruct resp as [choices|body]; [|reflexivity].
  erewrite bind_ok by apply emit_logged.
  pose proof (for_each_verdict (fun _ => PIIRegexPostCallGuardrail.check_choice self) _
                choices
                (proj2 (Forall_forall _ _)
                   (fun c _ i w => regex_postcall_check_verdict self c w)) 0) as Hloop.
  rewrite head_omap_find in Hloop. rewrite Hloop.
  destruct (List.find _ _); reflexivity.
Qed.

Lemma regex_precall_verdict_witness :
  result_of (PIIRegexPreCallGuardrail.async_pre_call_hook
               (PIIRegexPreCallGuardrail.init Kwargs.empty) sample_user sample_cache
               (payload [ user_message (VStr "Hello there");
                          user_message (VList [ VStr "an image" ]);
                          user_message (VStr "Card 4532 1143 8765 3210, SSN 123-45-6789");
                          user_message (VStr "My email is john.doe@company.com") ])
               completion) initial_world
  = Raise (ValueError "Pre-call guardrail blocked PII detected: ssn, credit_card").
Proof.
  rewrite (regex_precall_verdict (PIIRegexPreCallGuardrail.init Kwargs.empty)
             sample_user sample_cache _ completion initial_world
             [ user_message (VStr "Hello there");
               user_message (VList [ VStr "an image" ]);
               user_message (VStr "Card 4532 1143 8765 3210, SSN 123-45-6789");
               user_message (VStr "My email is john.doe@company.com") ]).
  - vm_compute. reflexivity.
  - reflexivity.
  - repeat constructor.
Defined.

(** ** The verdict of the contextual hooks under a stable recognizer *)

Lemma flagged_existsb self threshold text results :
  PIIPresidioDetection.blank text = false ->
  PIIPresidioDetection.analyzer self 0 text
    (PIIPresidioDetection.entities_to_detect self) (PIIPresidioDetection.language self)
  = Results results ->
  existsb (fun result => score_ge (RecognizerResult.score result) threshold) results
  = flagged self threshold text.
Proof.
  intros Hblank Hanswer. unfold flagged, findings. rewrite Hblank, Hanswer.
  unfold PIIPresidioDetection.detected.
  rewrite (existsb_filter _ (fun result =>
             Entity.Build (RecognizerResult.entity_type result)
               (RecognizerResult.start result) (RecognizerResult.end_ result)
               (RecognizerResult.score result)
               (py_slice text (RecognizerResult.start result)
                              (RecognizerResult.end_ result)))).
  destruct (map _ _); reflexivity.
Qed.

Lemma presidio_precall_check_verdict {rt : PyRuntime} self i m w :
  stable (PIIPresidioDetection.analyzer (PIIPresidioPreCallGuardrail.detector self)) ->
  is_dict m = true ->
  fst (PIIPresidioPreCallGuardrail.check_message self i m w)
  = match match text_content m with
          | Some text =>
              if flagged (PIIPresidioPreCallGuardrail.detector self)
                         (PIIPresidioPreCallGuardrail.threshold self) text
                 && PIIPresidioPreCallGuardrail.block_on_detection self
              then Some (PIIPresidioPreCallGuardrail.violation self
                           (set_list (map Entity.entity_type
                              (findings (PIIPresidioPreCallGuardrail.detector self) text
                                 (PIIPresidioPreCallGuardrail.threshold self)))))
              else None
          | None => None
          end with
    | Some e => Raise e
    | None => Ok tt
    end.
Proof.
  intros Hstable Hdict. destruct m as [| | | | |l|d]; try discriminate.
  unfold PIIPresidioPreCallGuardrail.check_message, text_content, get_method.
  erewrite bind_ok by reflexivity.
  destruct (dict_get d "content") as [| | | |c| |]; try reflexivity.
  erewrite bind_ok by apply emit_logged.
  run_detector. unfold raise.
  destruct (PIIPresidioDetection.blank c) eqn:Hblank; simpl.
  { unfold flagged, findings. rewrite Hblank. reflexivity. }
  rewrite (Hstable (analyses w) 0).
  destruct (PIIPresidioDetection.analyzer _ 0 c _ _) as [results|what] eqn:Hanswer; simpl.
  2: { unfold flagged, findings. rewrite Hblank, Hanswer. reflexivity. }
  rewrite (flagged_existsb _ _ _ _ Hblank Hanswer).
  destruct (flagged _ _ c) eqn:Hflag; simpl; [|reflexivity].
  rewrite (Hstable (S (analyses w)) 0), Hanswer. simpl.
  unfold findings. rewrite Hblank, Hanswer.
  destruct (PIIPresidioPreCallGuardrail.block_on_detection self); reflexivity.
Qed.

Lemma presidio_postcall_check_verdict {rt : PyRuntime} self i c w :
  stable (PIIPresidioDetection.analyzer (PIIPresidioPostCallGuardrail.detector self)) ->
  fst (PIIPresidioPostCallGuardrail.check_choice self i c w)
  = match match choice_text c with
          | Some text =>
              if flagged (PIIPresidioPostCallGuardrail.detector self)
                         (PIIPresidioPostCallGuardrail.threshold self) text
                 && PIIPresidioPostCallGuardrail.block_on_detection self
              then Some (PIIPresidioPostCallGuardrail.violation self
                           (set_list (map Entity.entity_type
                              (findings (PIIPresidioPostCallGuardrail.detector self) text
                                 (PIIPresidioPostCallGuardrail.threshold self)))))
              else None
          | None => None
          end with
    | Some e => Raise e
    | None => Ok tt
    end.
Proof.
  intros Hstable. destruct c as [content|delta]; [|reflexivity].
  unfold PIIPresidioPostCallGuardrail.check_choice, choice_text.
  destruct content as [| | | |c| |]; try reflexivity.
  destruct (truthy (VStr c)); [|reflexivity].
  erewrite bind_ok by apply emit_logged.
  run_detector. unfold raise.
  destruct (PIIPresidioDetection.blank c) eqn:Hblank; simpl.
  { unfold flagged, findings. rewrite Hblank. reflexivity. }
  rewrite (Hstable (analyses w) 0).
  destruct (PIIPresidioDetection.analyzer _ 0 c _ _) as [results|what] eqn:Hanswer; simpl.
  2: { unfold flagged, findings. rewrite Hblank, Hanswer. reflexivity. }
  rewrite (flagged_existsb _ _ _ _ Hblank Hanswer).
  destruct (flagged _ _ c) eqn:Hflag; simpl; [|reflexivity].
  rewrite (Hstable (S (analyses w)) 0), Hanswer. simpl.
  unfold findings. rewrite Hblank, Hanswer.
  destruct (PIIPresidioPostCallGuardrail.block_on_detection self); reflexivity.
Qed.

Lemma find_ext {A} (p q : A -> bool) (l : list A) :
  (forall x, p x = q x) -> List.find p l = List.find q l.
Proof.
  intros Hpq. induction l as [|x l IH]; [reflexivity|]. simpl.
  rewrite Hpq, IH. reflexivity.
Qed.

Lemma find_never {A} (l : list A) : List.find (fun _ => false) l = None.
Proof. induction l; [reflexivity|assumption]. Qed.

(** The first element of [texts] that is flagged, when the hook blocks. *)
Lemma find_flagged_blocking self threshold (block : bool) texts :
  List.find (fun text => flagged self threshold text && block) texts
  = if block then List.find (flagged self threshold) texts else None.
Proof.
  destruct block.
  - apply find_ext. intros text. apply andb_true_r.
  - rewrite <- (find_never texts). apply find_ext. intros text. apply andb_false_r.
Qed.

(** X10. With a recognizer that answers the same every time, on a payload
    whose messages are dictionaries, the contextual pre-call hook that
    blocks is decided by the first message text in which the detector finds
    an entity at its threshold: it raises the violation that lists the entity
    types found in that text; it returns the payload it was given when there
    is no such text or when [block_on_detection] is off. *)
Theorem presidio_precall_verdict {rt : PyRuntime}
    (self : PIIPresidioPreCallGuardrail.t) (user : UserAPIKeyAuth) (cache : DualCache)
    (data : gmap string pyval) (ct : call_type) (w : world) (ms : list pyval) :
  stable (PIIPresidioDetection.analyzer (PIIPresidioPreCallGuardrail.detector self)) ->
  data !! "messages" = Some (VList ms) ->
  Forall (fun m => is_dict m = true) ms ->
  result_of (PIIPresidioPreCallGuardrail.async_pre_call_hook self user cache data ct) w
  = match List.find (flagged (PIIPresidioPreCallGuardrail.detector self)
                             (PIIPresidioPreCallGuardrail.threshold self))
                    (omap text_content ms) with
    | Some text =>
        if PIIPresidioPreCallGuardrail.block_on_detection self
        then Raise (PIIPresidioPreCallGuardrail.violation self
                      (set_list (map Entity.entity_type
                         (findings (PIIPresidioPreCallGuardrail.detector self) text
                            (PIIPresidioPreCallGuardrail.threshold self)))))
        else Ok data
    | None => Ok data
    end.
Proof.
  intros Hstable Hdata Hdicts.
  pose proof (for_each_verdict (PIIPresidioPreCallGuardrail.check_message self) _ ms
                (Forall_impl _ _ _ Hdicts
                   (fun m Hm i w =>
                      presidio_precall_check_verdict self i m w Hstable Hm)) 0) as Hloop.
  rewrite head_omap_find, find_flagged_blocking in Hloop.
  unfold result_of, PIIPresidioPreCallGuardrail.async_pre_call_hook, dict_get.
  rewrite Hdata. simpl.
  erewrite bind_ok by apply emit_logged.
  destruct ms as [|m ms'].
  { reflexivity. }
  change (truthy (VList (m :: ms'))) with true. cbv beta iota delta [negb].
  unfold bind at 1. unfold bind at 1. unfold ret at 1. cbv beta iota.
  specialize (Hloop (logged (Log DEBUG "Presidio pre-call guardrail: Starting PII analysis")
                       w)).
  destruct (for_each _ 0 (m :: ms') _) as [[[]|e] w1]; simpl in Hloop |- *;
    destruct (PIIPresidioPreCallGuardrail.block_on_detection self);
    destruct (List.find _ _); simpl in Hloop; congruence.
Qed.

(** X11. With a recognizer that answers the same every time, the contextual
    post-call hook that blocks is decided by the first choice whose content
    is a non-empty string in which the detector finds an entity at its
    threshold; it returns [None] when there is no such choice, when
    [block_on_detection] is off, and for a response that is not a
    [ModelResponse]. *)
Theorem presidio_postcall_verdict {rt : PyRuntime}
    (self : PIIPresidioPostCallGuardrail.t) (data : gmap string pyval)
    (user : UserAPIKeyAuth) (resp : response) (w : world) :
  stable (PIIPresidioDetection.analyzer (PIIPresidioPostCallGuardrail.detector self)) ->
  result_of (PIIPresidioPostCallGuardrail.async_post_call_success_hook self data user resp)
            w
  = match resp with
    | ModelResponse choices =>
        match List.find (flagged (PIIPresidioPostCallGuardrail.detector self)
                                 (PIIPresidioPostCallGuardrail.threshold self))
                        (omap choice_text choices) with
        | Some text =>
            if PIIPresidioPostCallGuardrail.block_on_detection self
            then Raise (PIIPresidioPostCallGuardrail.violation self
                          (set_list (map Entity.entity_type
                             (findings (PIIPresidioPostCallGuardrail.detector self) text
                                (PIIPresidioPostCallGuardrail.threshold self)))))
            else Ok tt
        | None => Ok tt
        end
    | OtherResponse _ => Ok tt
    end.
Proof.
  intros Hstable.
  unfold result_of, PIIPresidioPostCallGuardrail.async_post_call_success_hook.
  erewrite bind_ok by apply emit_logged.
  destruct resp as [choices|body]; [|reflexivity].
  pose proof (for_each_verdict (PIIPresidioPostCallGuardrail.check_choice self) _ choices
                (proj2 (Forall_forall _ _)
                   (fun c _ i w => presidio_postcall_check_verdict self i c w Hstable))
                0
                (logged (Log DEBUG
                           "Presidio post-call guardrail: Starting PII analysis on response")
                        w)) as Hloop.
  rewrite head_omap_find, find_flagged_blocking in Hloop.
  unfold bind at 1.
  destruct (for_each _ 0 choices _) as [[[]|e] w1]; simpl in Hloop |- *;
    destruct (PIIPresidioPostCallGuardrail.block_on_detection self);
    destruct (List.find _ _); simpl in Hloop; congruence.
Qed.

Lemma sample_engine_stable : stable sample_engine.
Proof. intros n m text entities language. reflexivity. Qed.

Lemma presidio_precall_verdict_witness :
  result_of (PIIPresidioPreCallGuardrail.async_pre_call_hook (rt := reference_runtime)
               (sample_presidio_precall true) sample_user sample_cache
               (payload [ user_message (VStr "Hello there");
                          user_message (VStr "Call me at 555-123-4567");
                          user_message (VStr "My name is Sarah Johnson") ])
               completion) initial_world
  = Raise (ValueError
      "Pre-call Presidio guardrail blocked PII detected: PHONE_NUMBER (confidence >= 0.7)").
Proof.
  rewrite (presidio_precall_verdict (rt := reference_runtime)
             (sample_presidio_precall true) sample_user sample_cache _ completion
             initial_world
             [ user_message (VStr "Hello there");
               user_message (VStr "Call me at 555-123-4567");
               user_message (VStr "My name is Sarah Johnson") ]).
  - vm_compute. reflexivity.
  - apply sample_engine_stable.
  - reflexivity.
  - repeat constructor.
Defined.

Lemma presidio_postcall_verdict_witness :
  result_of (PIIPresidioPostCallGuardrail.async_post_call_success_hook
               (rt := reference_runtime)
               (sample_presidio_postcall true) (payload []) sample_user
               (ModelResponse [ Choices (VStr ""); StreamingChoices VNone;
                                Choices (VStr "My email is john.doe@company.com") ]))
            initial_world
  = Raise (ValueError
      "Post-call Presidio guardrail blocked PII detected: EMAIL_ADDRESS (confidence >= 0.7)").
Proof.
  rewrite (presidio_postcall_verdict (rt := reference_runtime)
             (sample_presidio_postcall true) (payload []) sample_user _ initial_world
             sample_engine_stable).
  vm_compute. reflexivity.
Defined.

(** ** When the recognizer is out of service *)

Lemma presidio_precall_check_out_of_service {rt : PyRuntime} self i m w :
  out_of_service (PIIPresidioDetection.analyzer (PIIPresidioPreCallGuardrail.detector self)) ->
  is_dict m = true ->
  fst (PIIPresidioPreCallGuardrail.check_message self i m w) = Ok tt.
Proof.
  intros Hout Hdict. destruct m as [| | | | |l|d]; try discriminate.
  unfold PIIPresidioPreCallGuardrail.check_message, get_method.
  erewrite bind_ok by reflexivity.
  destruct (dict_get d "content") as [| | | |c| |]; try reflexivity.
  erewrite bind_ok by apply emit_logged.
  run_detector.
  destruct (PIIPresidioDetection.blank c); simpl; [reflexivity|].
  destruct (Hout (analyses w) c
              (PIIPresidioDetection.entities_to_detect
                 (PIIPresidioPreCallGuardrail.detector self))
              (PIIPresidioDetection.language
                 (PIIPresidioPreCallGuardrail.detector self))) as [what ->].
  reflexivity.
Qed.

Lemma presidio_postcall_check_out_of_service {rt : PyRuntime} self i c w :
  out_of_service
    (PIIPresidioDetection.analyzer (PIIPresidioPostCallGuardrail.detector self)) ->
  fst (PIIPresidioPostCallGuardrail.check_choice self i c w) = Ok tt.
Proof.
  intros Hout. destruct c as [content|delta]; [|reflexivity].
  unfold PIIPresidioPostCallGuardrail.check_choice.
  destruct content as [| | | |c| |]; try reflexivity.
  destruct (truthy (VStr c)); [|reflexivity].
  erewrite bind_ok by apply emit_logged.
  run_detector.
  destruct (PIIPresidioDetection.blank c); simpl; [reflexivity|].
  destruct (Hout (analyses w) c
              (PIIPresidioDetection.entities_to_detect
                 (PIIPresidioPostCallGuardrail.detector self))
              (PIIPresidioDetection.language
                 (PIIPresidioPostCallGuardrail.detector self))) as [what ->].
  reflexivity.
Qed.

(** X12. The contextual hooks fail open.  When every call of the recognizer
    raises, the pre-call hook returns the payload for any messages that are
    dictionaries and the post-call hook returns [None] for any response,
    whatever [block_on_detection] is. *)
Theorem presidio_hooks_fail_open {rt : PyRuntime} :
  (forall (self : PIIPresidioPreCallGuardrail.t) user cache data ct w ms,
      out_of_service
        (PIIPresidioDetection.analyzer (PIIPresidioPreCallGuardrail.detector self)) ->
      data !! "messages" = Some (VList ms) ->
      Forall (fun m => is_dict m = true) ms ->
      result_of (PIIPresidioPreCallGuardrail.async_pre_call_hook self user cache data ct) w
      = Ok data)
  /\ (forall (self : PIIPresidioPostCallGuardrail.t) data user resp w,
      out_of_service
        (PIIPresidioDetection.analyzer (PIIPresidioPostCallGuardrail.detector self)) ->
      result_of (PIIPresidioPostCallGuardrail.async_post_call_success_hook
                   self data user resp) w
      = Ok tt).
Proof.
  split.
  - intros self user cache data ct w ms Hout Hdata Hdicts.
    pose proof (for_each_verdict (PIIPresidioPreCallGuardrail.check_message self)
                  (fun _ => None) ms
                  (Forall_impl _ _ _ Hdicts
                     (fun m Hm i w =>
                        presidio_precall_check_out_of_service self i m w Hout Hm)) 0)
      as Hloop.
    assert (Hnone : forall l : list pyval, omap (fun _ => @None exn) l = []).
    { induction l as [|x l IH]; [reflexivity|].
      rewrite omap_cons_option_list. exact IH. }
    rewrite Hnone in Hloop. simpl in Hloop.
    unfold result_of, PIIPresidioPreCallGuardrail.async_pre_call_hook, dict_get.
    rewrite Hdata. simpl.
    erewrite bind_ok by apply emit_logged.
    destruct ms as [|m ms'].
    { reflexivity. }
    change (truthy (VList (m :: ms'))) with true. cbv beta iota delta [negb].
    unfold bind at 1. unfold bind at 1. unfold ret at 1. cbv beta iota.
    specialize (Hloop (logged (Log DEBUG
                                 "Presidio pre-call guardrail: Starting PII analysis") w)).
    destruct (for_each _ 0 (m :: ms') _) as [[[]|e] w1]; simpl in Hloop |- *;
      congruence.
  - intros self data user resp w Hout.
    unfold result_of, PIIPresidioPostCallGuardrail.async_post_call_success_hook.
    erewrite bind_ok by apply emit_logged.
    destruct resp as [choices|body]; [|reflexivity].
    pose proof (for_each_verdict (PIIPresidioPostCallGuardrail.check_choice self)
                  (fun _ => None) choices
                  (proj2 (Forall_forall _ _)
                     (fun c _ i w =>
                        presidio_postcall_check_out_of_service self i c w Hout)) 0
                  (logged (Log DEBUG
                     "Presidio post-call guardrail: Starting PII analysis on response") w))
      as Hloop.
    assert (Hnone : forall l : list choice, omap (fun _ => @None exn) l = []).
    { induction l as [|x l IH]; [reflexivity|].
      rewrite omap_cons_option_list. exact IH. }
    rewrite Hnone in Hloop. simpl in Hloop.
    unfold bind at 1.
    destruct (for_each _ 0 choices _) as [[[]|e] w1]; simpl in Hloop |- *; congruence.
Qed.

Lemma failing_engine_out_of_service what : out_of_service (failing_engine what).
Proof. intros n text entities language. exists what. reflexivity. Qed.

Lemma presidio_hooks_fail_open_witness :
  let detector := PIIPresidioDetection.Build "en" PIIPresidioDetection.default_entities
                    (failing_engine "connection refused") in
  let data := payload [ user_message (VStr "My SSN is 123-45-6789") ] in
  result_of (PIIPresidioPreCallGuardrail.async_pre_call_hook (rt := reference_runtime)
               (PIIPresidioPreCallGuardrail.Build Kwargs.empty "en" (7 # 10) None true
                  detector)
               sample_user sample_cache data completion) initial_world
  = Ok data
  /\ result_of (PIIPresidioPostCallGuardrail.async_post_call_success_hook
                  (rt := reference_runtime)
                  (PIIPresidioPostCallGuardrail.Build Kwargs.empty "en" (7 # 10) None true
                     detector)
                  data sample_user
                  (ModelResponse [ Choices (VStr "My SSN is 123-45-6789") ])) initial_world
     = Ok tt.
Proof.
  intros detector data.
  destruct (presidio_hooks_fail_open (rt := reference_runtime)) as [Hpre Hpost].
  split.
  - apply (Hpre _ sample_user sample_cache data completion initial_world
                [ user_message (VStr "My SSN is 123-45-6789") ]).
    + apply failing_engine_out_of_service.
    + reflexivity.
    + repeat constructor.
  - apply Hpost. apply failing_engine_out_of_service.
Defined.

(** ** The two analyses of a flagged text *)






(** ** Responses scanned without blocking *)

Lemma presidio_postcall_check_completes {rt : PyRuntime} self i c w :
  PIIPresidioPostCallGuardrail.block_on_detection self = false ->
  exists w', PIIPresidioPostCallGuardrail.check_choice self i c w = (Ok tt, w').
Proof.
  intros Hblock. destruct c as [content|delta]; [|eexists; reflexivity].
  unfold PIIPresidioPostCallGuardrail.check_choice.
  destruct content as [| | | |c| |]; try (eexists; reflexivity).
  destruct (truthy (VStr c)); [|eexists; reflexivity].
  erewrite bind_ok; [|apply emit_logged].
  destruct (has_pii_run (PIIPresidioPostCallGuardrail.detector self) c
              (PIIPresidioPostCallGuardrail.threshold self)
              (logged (Log DEBUG ("Analyzing choice " +:+ pretty i +:+ ": "
                                  +:+ py_slice c 0 100 +:+ "...")) w))
    as (found & evs & n & Hrun & _).
  erewrite bind_ok; [|exact Hrun].
  destruct found; [|eexists; reflexivity].
  destruct (get_analysis_summary_run (PIIPresidioPostCallGuardrail.detector self) c
              (PIIPresidioPostCallGuardrail.threshold self)
              (World (trace (logged (Log DEBUG
                 ("Analyzing choice " +:+ pretty i +:+ ": "
                  +:+ py_slice c 0 100 +:+ "...")) w) ++ evs) n))
    as (s & evs' & n' & Hs & _).
  erewrite bind_ok; [|exact Hs].
  erewrite bind_ok; [|apply emit_logged].
  rewrite Hblock. eexists. reflexivity.
Qed.

Lemma for_each_completes {X} (body : nat -> X -> M unit) (xs : list X) :
  (forall i x w, exists w', body i x w = (Ok tt, w')) ->
  forall i w, exists w', for_each body i xs w = (Ok tt, w').
Proof.
  intros Hbody. induction xs as [|x xs IH]; intros i w.
  - exists w. reflexivity.
  - destruct (Hbody i x w) as (w1 & H1). destruct (IH (S i) w1) as (w2 & H2).
    exists w2. simpl. erewrite bind_ok; [exact H2|exact H1].
Qed.

(** X14. With [block_on_detection] off, the contextual post-call hook scans
    every choice of a response and returns [None]: [has_pii] is called on the
    text of each choice, in order, and the last event is the log entry that
    the analysis is completed. *)
Theorem presidio_postcall_without_blocking {rt : PyRuntime}
    (self : PIIPresidioPostCallGuardrail.t) (data : gmap string pyval)
    (user : UserAPIKeyAuth) (choices : list choice) (w : world) :
  PIIPresidioPostCallGuardrail.block_on_detection self = false ->
  exists scanned,
    PIIPresidioPostCallGuardrail.async_post_call_success_hook self data user
      (ModelResponse choices) w
    = (Ok tt,
       logged (Log DEBUG "Presidio post-call guardrail: PII analysis completed") scanned)
    /\ calls_since w scanned (omap choice_text choices).
Proof.
  intros Hblock.
  destruct (for_each_completes (PIIPresidioPostCallGuardrail.check_choice self) choices
              (fun i c w => presidio_postcall_check_completes self i c w Hblock) 0
              (logged (Log DEBUG
                 "Presidio post-call guardrail: Starting PII analysis on response") w))
    as (scanned & Hloop).
  exists scanned. split.
  - unfold PIIPresidioPostCallGuardrail.async_post_call_success_hook.
    erewrite bind_ok by apply emit_logged.
    erewrite bind_ok by exact Hloop.
    apply emit_logged.
  - eapply (calls_since_trans _
              (logged (Log DEBUG
                 "Presidio post-call guardrail: Starting PII analysis on response") w)
              _ [] _); [apply calls_since_logged; reflexivity|].
    eapply for_each_calls; [|exact Hloop].
    intros i c w0 w0'. apply presidio_postcall_calls.
Qed.

Lemma presidio_postcall_without_blocking_witness :
  exists scanned,
    PIIPresidioPostCallGuardrail.async_post_call_success_hook (rt := reference_runtime)
      (sample_presidio_postcall false) (payload []) sample_user
      (ModelResponse [ Choices (VStr "My name is Sarah Johnson");
                       Choices (VStr "Call me at 555-123-4567") ]) initial_world
    = (Ok tt,
       logged (Log DEBUG "Presidio post-call guardrail: PII analysis completed") scanned)
    /\ calls_since initial_world scanned
         [ "My name is Sarah Johnson"; "Call me at 555-123-4567" ].
Proof.
  apply (presidio_postcall_without_blocking (rt := reference_runtime)
           (sample_presidio_postcall false) (payload []) sample_user
           [ Choices (VStr "My name is Sarah Johnson");
             Choices (VStr "Call me at 555-123-4567") ] initial_world).
  reflexivity.
Defined.

(** ** Payloads that are not as expected *)

Lemma iterate_not_list v w :
  truthy v = true -> is_list v = false ->
  (exists e, e = iteration_error v /\ iterate v w = (Raise e, w))
  \/ exists x xs, iterate v w = (Ok (VStr x :: xs), w) /\ iteration_error v = AttributeError.
Proof.
  intros Htruthy Hlist. destruct v as [|b|z|q|s|l|d]; try discriminate;
    try (left; eexists; split; reflexivity).
  - right. destruct s as [|c s]; [discriminate|].
    eexists _, _. split; reflexivity.
  - right. simpl.
    destruct (map_to_list d) as [|[k v] rest] eqn:E.
    + apply map_to_list_empty_iff in E. subst d. discriminate.
    + eexists _, _. split; reflexivity.
Qed.

(** X15. When [messages] holds a value that is true and is not a list, both
    pre-call hooks raise before any detection: [AttributeError] for a
    non-empty string or dictionary, whose elements have no [get], and
    [TypeError] for a number or [True], which cannot be iterated. *)
Theorem messages_not_a_list {rt : PyRuntime}
    (regex_guardrail : PIIRegexPreCallGuardrail.t)
    (presidio_guardrail : PIIPresidioPreCallGuardrail.t)
    (user : UserAPIKeyAuth) (cache : DualCache) (data : gmap string pyval)
    (ct : call_type) (w : world) :
  truthy (dict_get data "messages") = true ->
  is_list (dict_get data "messages") = false ->
  PIIRegexPreCallGuardrail.async_pre_call_hook regex_guardrail user cache data ct w
  = (Raise (iteration_error (dict_get data "messages")), w)
  /\ PIIPresidioPreCallGuardrail.async_pre_call_hook presidio_guardrail user cache data ct w
     = (Raise (iteration_error (dict_get data "messages")),
        logged (Log DEBUG "Presidio pre-call guardrail: Starting PII analysis") w).
Proof.
  intros Htruthy Hlist. split.
  - unfold PIIRegexPreCallGuardrail.async_pre_call_hook. rewrite Htruthy.
    destruct (iterate_not_list _ w Htruthy Hlist)
      as [(e & -> & Hit)|(x & xs & Hit & ->)].
    + erewrite bind_raise; [reflexivity|]. erewrite bind_raise; [reflexivity|exact Hit].
    + erewrite bind_raise; [reflexivity|]. erewrite bind_ok by exact Hit.
      simpl. erewrite bind_raise; reflexivity.
  - unfold PIIPresidioPreCallGuardrail.async_pre_call_hook.
    erewrite bind_ok by apply emit_logged. rewrite Htruthy. simpl.
    destruct (iterate_not_list _
                (logged (Log DEBUG "Presidio pre-call guardrail: Starting PII analysis") w)
                Htruthy Hlist)
      as [(e & -> & Hit)|(x & xs & Hit & ->)].
    + erewrite bind_raise; [reflexivity|exact Hit].
    + erewrite bind_ok by exact Hit.
      erewrite bind_raise; [reflexivity|].
      simpl. erewrite bind_raise; reflexivity.
Qed.

Lemma messages_not_a_list_witness :
  let data : gmap string pyval := <["messages" := VStr "Call me at 555-123-4567"]> ∅ in
  result_of (PIIRegexPreCallGuardrail.async_pre_call_hook
               (PIIRegexPreCallGuardrail.init Kwargs.empty) sample_user sample_cache
               data completion) initial_world
  = Raise AttributeError
  /\ result_of (PIIPresidioPreCallGuardrail.async_pre_call_hook (rt := reference_runtime)
                  (sample_presidio_precall true) sample_user sample_cache
                  data completion) initial_world
     = Raise AttributeError.
Proof.
  intros data.
  destruct (messages_not_a_list (rt := reference_runtime)
              (PIIRegexPreCallGuardrail.init Kwargs.empty) (sample_presidio_precall true)
              sample_user sample_cache data completion initial_world) as [Hregex Hpresidio].
  - reflexivity.
  - reflexivity.
  - unfold result_of. rewrite Hregex, Hpresidio. split; reflexivity.
Defined.

(** X16. A message that is not a dictionary makes both pre-call hooks raise
    [AttributeError] when the loop reaches it, whatever its text and
    whatever follows it. *)
Theorem message_not_a_dictionary {rt : PyRuntime} :
  (forall (self : PIIRegexPreCallGuardrail.t) user cache data ct w pre m rest w1,
      data !! "messages" = Some (VList (pre ++ m :: rest)) ->
      is_dict m = false ->
      for_each (fun _ => PIIRegexPreCallGuardrail.check_message self) 0 pre w = (Ok tt, w1) ->
      PIIRegexPreCallGuardrail.async_pre_call_hook self user cache data ct w
      = (Raise AttributeError, w1))
  /\ (forall (self : PIIPresidioPreCallGuardrail.t) user cache data ct w pre m rest w1,
      data !! "messages" = Some (VList (pre ++ m :: rest)) ->
      is_dict m = false ->
      for_each (PIIPresidioPreCallGuardrail.check_message self) 0 pre
        (logged (Log DEBUG "Presidio pre-call guardrail: Starting PII analysis") w)
      = (Ok tt, w1) ->
      PIIPresidioPreCallGuardrail.async_pre_call_hook self user cache data ct w
      = (Raise AttributeError, w1)).
Proof.
  split.
  - intros self user cache data ct w pre m rest w1 Hdata Hm Hpre.
    unfold PIIRegexPreCallGuardrail.async_pre_call_hook, dict_get. rewrite Hdata.
    change (default VNone (Some ?v)) with v. rewrite truthy_list_middle.
    erewrite bind_raise; [reflexivity|].
    erewrite bind_ok by reflexivity.
    eapply for_each_stops; [exact Hpre|].
    destruct m; try discriminate; reflexivity.
  - intros self user cache data ct w pre m rest w1 Hdata Hm Hpre.
    unfold PIIPresidioPreCallGuardrail.async_pre_call_hook, dict_get. rewrite Hdata.
    change (default VNone (Some ?v)) with v.
    erewrite bind_ok by apply emit_logged.
    rewrite truthy_list_middle. cbv beta iota delta [negb].
    erewrite bind_ok by reflexivity.
    erewrite bind_raise; [reflexivity|].
    eapply for_each_stops; [exact Hpre|].
    destruct m; try discriminate; reflexivity.
Qed.

Lemma message_not_a_dictionary_witness :
  let data := payload [ user_message (VStr "Hello there");
                        VStr "My SSN is 123-45-6789" ] in
  result_of (PIIRegexPreCallGuardrail.async_pre_call_hook
               (PIIRegexPreCallGuardrail.init Kwargs.empty) sample_user sample_cache
               data completion) initial_world
  = Raise AttributeError.
Proof.
  intros data. unfold result_of.
  erewrite (proj1 (message_not_a_dictionary (rt := reference_runtime))
              (PIIRegexPreCallGuardrail.init Kwargs.empty) sample_user sample_cache data
              completion initial_world [ user_message (VStr "Hello there") ]
              (VStr "My SSN is 123-45-6789") []).
  - reflexivity.
  - reflexivity.
  - reflexivity.
  - vm_compute. reflexivity.
Defined.

(** ** The payload is handed back as it came *)

Lemma bind_ok_inv {A B} (m : M A) (f : A -> M B) w w' b :
  bind m f w = (Ok b, w') -> exists a w1, m w = (Ok a, w1) /\ f a w1 = (Ok b, w').
Proof.
  unfold bind. destruct (m w) as [[a|e] w1]; [|discriminate].
  intros H. exists a, w1. auto.
Qed.

(** X17. A pre-call hook never rewrites the request: whatever the payload
    is, when the hook returns instead of raising, what it returns is the
    payload it was given. *)
Theorem precall_returns_payload {rt : PyRuntime} :
  (forall (self : PIIRegexPreCallGuardrail.t) user cache data ct w returned w',
      PIIRegexPreCallGuardrail.async_pre_call_hook self user cache data ct w
      = (Ok returned, w') ->
      returned = data)
  /\ (forall (self : PIIPresidioPreCallGuardrail.t) user cache data ct w returned w',
      PIIPresidioPreCallGuardrail.async_pre_call_hook self user cache data ct w
      = (Ok returned, w') ->
      returned = data).
Proof.
  split.
  - intros self user cache data ct w returned w' Hrun.
    unfold PIIRegexPreCallGuardrail.async_pre_call_hook in Hrun.
    apply bind_ok_inv in Hrun as (? & w1 & _ & Hrun).
    apply bind_ok_inv in Hrun as (? & w2 & _ & Hrun).
    unfold ret in Hrun. congruence.
  - intros self user cache data ct w returned w' Hrun.
    unfold PIIPresidioPreCallGuardrail.async_pre_call_hook in Hrun.
    apply bind_ok_inv in Hrun as (? & w1 & _ & Hrun).
    destruct (negb (truthy (dict_get data "messages"))).
    + apply bind_ok_inv in Hrun as (? & w2 & _ & Hrun). unfold ret in Hrun. congruence.
    + apply bind_ok_inv in Hrun as (? & w2 & _ & Hrun).
      apply bind_ok_inv in Hrun as (? & w3 & _ & Hrun).
      apply bind_ok_inv in Hrun as (? & w4 & _ & Hrun).
      unfold ret in Hrun. congruence.
Qed.

Lemma precall_returns_payload_witness :
  let data := payload [ user_message (VStr "What is 2+2?") ] in
  result_of (PIIRegexPreCallGuardrail.async_pre_call_hook
               (PIIRegexPreCallGuardrail.init Kwargs.empty) sample_user sample_cache
               data completion) initial_world
  = Ok data.
Proof.
  intros data. unfold result_of.
  destruct (PIIRegexPreCallGuardrail.async_pre_call_hook
              (PIIRegexPreCallGuardrail.init Kwargs.empty) sample_user sample_cache
              data completion initial_world) as [[returned|e] w'] eqn:Hrun.
  - simpl. f_equal.
    exact (proj1 (precall_returns_payload (rt := reference_runtime)) _ _ _ _ _ _ _ _ Hrun).
  - vm_compute in Hrun. discriminate.
Defined.

(** ** Building a contextual guardrail *)

(** X18. The constructor of a contextual guardrail succeeds as soon as one
    of the two engines can be built: the detector gets the spaCy engine, or
    the default engine after a printed warning, one INFO entry is logged, and
    [get_guardrail_info] of the new guardrail reports the keyword arguments
    given and the defaults for the others (language en, threshold 0.7, the 17
    default entity types, blocking on).  The constructor of the base class,
    which is not part of the repository, is left out. *)
Theorem guardrail_configuration {rt : PyRuntime}
    (kwargs : Kwargs.t) (spacy_engine default_engine : string + AnalyzerEngine)
    (engine : AnalyzerEngine) (w : world) :
  available spacy_engine default_engine = Some engine ->
  (exists guardrail entry,
      PIIPresidioPreCallGuardrail.init kwargs spacy_engine default_engine w
      = (Ok guardrail,
         World (trace w ++ spacy_warning spacy_engine ++ [Log INFO entry]) (analyses w))
      /\ PIIPresidioDetection.analyzer (PIIPresidioPreCallGuardrail.detector guardrail)
         = engine
      /\ PIIPresidioDetection.language (PIIPresidioPreCallGuardrail.detector guardrail)
         = PIIPresidioPreCallGuardrail.language guardrail
      /\ PIIPresidioPreCallGuardrail.get_guardrail_info guardrail
         = configured "presidio_precall" kwargs)
  /\ (exists guardrail entry,
      PIIPresidioPostCallGuardrail.init kwargs spacy_engine default_engine w
      = (Ok guardrail,
         World (trace w ++ spacy_warning spacy_engine ++ [Log INFO entry]) (analyses w))
      /\ PIIPresidioDetection.analyzer (PIIPresidioPostCallGuardrail.detector guardrail)
         = engine
      /\ PIIPresidioDetection.language (PIIPresidioPostCallGuardrail.detector guardrail)
         = PIIPresidioPostCallGuardrail.language guardrail
      /\ PIIPresidioPostCallGuardrail.get_guardrail_info guardrail
         = configured "presidio_postcall" kwargs).
Proof.
  intros Havailable.
  unfold PIIPresidioPreCallGuardrail.init, PIIPresidioPostCallGuardrail.init,
    PIIPresidioDetection.init, try_except, bind, emit, ret, raise.
  destruct spacy_engine as [e|spacy]; [destruct default_engine as [e'|fallback]|];
    simpl in Havailable; try discriminate; injection Havailable as <-; simpl;
    rewrite <- ?app_assoc; simpl;
    (split; eexists _, _; (split; [reflexivity|]); repeat split).
Qed.

Lemma guardrail_configuration_witness :
  exists guardrail final,
    PIIPresidioPreCallGuardrail.init (rt := reference_runtime)
      (Kwargs.Build None (Some (1 # 2)) None None)
      (inl "Can't find model 'en_core_web_sm'") (inr sample_engine) initial_world
    = (Ok guardrail, final)
    /\ PIIPresidioPreCallGuardrail.get_guardrail_info guardrail
       = GuardrailInfo.Build "presidio_precall" "en" (1 # 2) 17
           PIIPresidioDetection.default_entities true.
Proof.
  destruct (guardrail_configuration (rt := reference_runtime)
              (Kwargs.Build None (Some (1 # 2)) None None)
              (inl "Can't find model 'en_core_web_sm'") (inr sample_engine)
              sample_engine initial_world eq_refl)
    as [(guardrail & entry & Hrun & _ & _ & Hinfo) _].
  exists guardrail. eexists. split; [exact Hrun|]. rewrite Hinfo. reflexivity.
Defined.

(** X19. When neither engine can be built, the constructor of a contextual
    guardrail builds nothing: after the printed warning about the spaCy
    model it logs the error of the default engine at ERROR level and raises
    that error again. *)
Theorem guardrail_construction_fails {rt : PyRuntime}
    (kwargs : Kwargs.t) (spacy_engine default_engine : string + AnalyzerEngine)
    (w : world) :
  available spacy_engine default_engine = None ->
  exists e e',
    spacy_engine = inl e /\ default_engine = inl e'
    /\ let final :=
         World (trace w
                ++ [ Print ("Warning: Could not load spaCy model, using default: " +:+ e);
                     Log ERROR ("Failed to initialize Presidio detector: " +:+ e') ])
               (analyses w) in
       PIIPresidioPreCallGuardrail.init kwargs spacy_engine default_engine w
       = (Raise (Exception e'), final)
       /\ PIIPresidioPostCallGuardrail.init kwargs spacy_engine default_engine w
          = (Raise (Exception e'), final).
Proof.
  intros Hnone.
  destruct spacy_engine as [e|spacy]; [destruct default_engine as [e'|fallback]|];
    try discriminate.
  exists e, e'. split; [reflexivity|]. split; [reflexivity|].
  unfold PIIPresidioPreCallGuardrail.init, PIIPresidioPostCallGuardrail.init,
    PIIPresidioDetection.init, try_except, bind, emit, ret, raise. simpl.
  rewrite <- !app_assoc. split; reflexivity.
Qed.

Lemma guardrail_construction_fails_witness :
  result_of (PIIPresidioPostCallGuardrail.init (rt := reference_runtime) Kwargs.empty
               (inl "Can't find model 'en_core_web_sm'")
               (inl "No module named 'spacy'")) initial_world
  = Raise (Exception "No module named 'spacy'").
Proof.
  destruct (guardrail_construction_fails (rt := reference_runtime) Kwargs.empty
              (inl "Can't find model 'en_core_web_sm'")
              (inl "No module named 'spacy'") initial_world eq_refl)
    as (e & e' & He & He' & _ & Hpost).
  injection He' as <-. unfold result_of. rewrite Hpost. reflexivity.
Defined.

(** ** Payment card numbers *)

Lemma matches_optional_run p n l prev rest :
  optional_run p n l ->
  matches (Opt (exactly p n)) prev (l ++ rest) (last_seen prev l) rest.
Proof.
  intros [->|Hrun].
  - apply matches_Opt_none.
  - apply matches_Opt_some, matches_run, Hrun.
Qed.

Lemma matches_optional_run_inv p n prev rest prev' rest' :
  matches (Opt (exactly p n)) prev rest prev' rest' ->
  exists l, optional_run p n l /\ rest = l ++ rest'.
Proof.
  intros H. inversion H as [| | | | | |? ? ? ? ? H1|? ? ?|]; subst.
  - apply matches_run_inv in H1 as (l & Hl & E & _).
    exists l. split; [right; exact Hl|exact E].
  - exists []. split; [left; reflexivity|reflexivity].
Qed.

Lemma matches_lit c prev rest : matches (lit c) prev (c :: rest) (Some c) rest.
Proof. apply matches_Cls, Ascii.eqb_refl. Qed.

Lemma matches_lit_inv c prev rest prev' rest' :
  matches (lit c) prev rest prev' rest' -> rest = c :: rest'.
Proof.
  intros H. inversion H as [|? ? x ? Hx| | | | | | |]; subst.
  apply Ascii.eqb_eq in Hx. subst. reflexivity.
Qed.

Lemma matches_Cls_inv p prev rest prev' rest' :
  matches (Cls p) prev rest prev' rest' -> exists x, p x = true /\ rest = x :: rest'.
Proof. intros H. inversion H; subst. eauto. Qed.

Lemma visa_matches l prev after :
  visa_number l ->
  matches PIIRegexDetection.visa_re prev (l ++ after) (last_seen prev l) after.
Proof.
  intros (a & s1 & b & s2 & c & s3 & d & e & -> & Ha & Hs1 & Hb & Hs2 & Hc & Hs3 & Hd & He).
  unfold PIIRegexDetection.visa_re, seqs. simpl.
  rewrite last_seen_cons, !last_seen_app, <- !app_assoc.
  eapply matches_Seq; [apply matches_lit|].
  eapply matches_Seq; [apply matches_run, Ha|].
  eapply matches_Seq; [apply matches_optional, Hs1|].
  eapply matches_Seq; [apply matches_run, Hb|].
  eapply matches_Seq; [apply matches_optional, Hs2|].
  eapply matches_Seq; [apply matches_run, Hc|].
  eapply matches_Seq; [apply matches_optional, Hs3|].
  eapply matches_Seq; [apply matches_run, Hd|].
  eapply matches_Seq; [apply matches_optional_run, He|apply matches_Eps].
Qed.

Lemma mastercard_matches l prev after :
  mastercard_number l ->
  matches PIIRegexDetection.mastercard_re prev (l ++ after) (last_seen prev l) after.
Proof.
  intros (x & a & s1 & b & s2 & c & s3 & d & -> & Hx & Ha & Hs1 & Hb & Hs2 & Hc & Hs3 & Hd).
  unfold PIIRegexDetection.mastercard_re, seqs. simpl.
  rewrite !last_seen_cons, !last_seen_app, <- !app_assoc.
  eapply matches_Seq; [apply matches_lit|].
  eapply matches_Seq; [apply matches_Cls, Hx|].
  eapply matches_Seq; [apply matches_run, Ha|].
  eapply matches_Seq; [apply matches_optional, Hs1|].
  eapply matches_Seq; [apply matches_run, Hb|].
  eapply matches_Seq; [apply matches_optional, Hs2|].
  eapply matches_Seq; [apply matches_run, Hc|].
  eapply matches_Seq; [apply matches_optional, Hs3|].
  eapply matches_Seq; [apply matches_run, Hd|apply matches_Eps].
Qed.

Lemma amex_matches l prev after :
  amex_number l ->
  matches PIIRegexDetection.amex_re prev (l ++ after) (last_seen prev l) after.
Proof.
  intros (x & a & s1 & b & s2 & c & -> & Hx & Ha & Hs1 & Hb & Hs2 & Hc).
  unfold PIIRegexDetection.amex_re, seqs. simpl.
  rewrite !last_seen_cons, !last_seen_app, <- !app_assoc.
  eapply matches_Seq; [apply matches_lit|].
  eapply matches_Seq; [apply matches_Cls, Hx|].
  eapply matches_Seq; [apply matches_run, Ha|].
  eapply matches_Seq; [apply matches_optional, Hs1|].
  eapply matches_Seq; [apply matches_run, Hb|].
  eapply matches_Seq; [apply matches_optional, Hs2|].
  eapply matches_Seq; [apply matches_run, Hc|apply matches_Eps].
Qed.

Lemma discover_issuer_matches issuer prev rest :
  discover_issuer issuer ->
  matches (Alt (seqs [ lit "0"; lit "1"; lit "1" ]) (seqs [ lit "5"; exactly is_09 2 ]))
          prev (issuer ++ rest) (last_seen prev issuer) rest.
Proof.
  intros [->|(a & -> & Ha)]; unfold seqs; simpl.
  - apply matches_Alt_l.
    eapply matches_Seq; [apply matches_lit|].
    eapply matches_Seq; [apply matches_lit|].
    eapply matches_Seq; [apply matches_lit|apply matches_Eps].
  - apply matches_Alt_r. rewrite last_seen_cons.
    eapply matches_Seq; [apply matches_lit|].
    eapply matches_Seq; [apply matches_run, Ha|apply matches_Eps].
Qed.

Lemma discover_matches l prev after :
  discover_number l ->
  matches PIIRegexDetection.discover_re prev (l ++ after) (last_seen prev l) after.
Proof.
  intros (issuer & s1 & b & s2 & c & s3 & d & -> & Hi & Hs1 & Hb & Hs2 & Hc & Hs3 & Hd).
  unfold PIIRegexDetection.discover_re. unfold seqs at 1. simpl.
  rewrite !last_seen_cons, !last_seen_app, <- !app_assoc.
  eapply matches_Seq; [apply matches_lit|].
  eapply matches_Seq; [apply discover_issuer_matches, Hi|].
  eapply matches_Seq; [apply matches_optional, Hs1|].
  eapply matches_Seq; [apply matches_run, Hb|].
  eapply matches_Seq; [apply matches_optional, Hs2|].
  eapply matches_Seq; [apply matches_run, Hc|].
  eapply matches_Seq; [apply matches_optional, Hs3|].
  eapply matches_Seq; [apply matches_run, Hd|apply matches_Eps].
Qed.

Lemma card_matches l prev after :
  card_number l ->
  matches card_issuers_re prev (l ++ after) (last_seen prev l) after.
Proof.
  unfold card_issuers_re, alts. simpl.
  intros [H|[H|[H|H]]].
  - apply matches_Alt_l, matches_Alt_l, matches_Alt_l, visa_matches, H.
  - apply matches_Alt_l, matches_Alt_l, matches_Alt_r, mastercard_matches, H.
  - apply matches_Alt_l, matches_Alt_r, amex_matches, H.
  - apply matches_Alt_r, discover_matches, H.
Qed.

Lemma visa_matches_inv l prev prev' after :
  matches PIIRegexDetection.visa_re prev (l ++ after) prev' after -> visa_number l.
Proof.
  unfold PIIRegexDetection.visa_re, seqs. simpl. intros H.
  split_seq H H4 H1. split_seq H1 Ha H2. split_seq H2 Hs1 H3. split_seq H3 Hb H5.
  split_seq H5 Hs2 H6. split_seq H6 Hc H7. split_seq H7 Hs3 H8. split_seq H8 Hd H9.
  split_seq H9 He H10. inversion H10; subst; clear H10.
  apply matches_lit_inv in H4.
  apply matches_run_inv in Ha as (a & Ha & -> & _).
  apply matches_optional_inv in Hs1 as (s1 & Hs1 & -> & _).
  apply matches_run_inv in Hb as (b & Hb & -> & _).
  apply matches_optional_inv in Hs2 as (s2 & Hs2 & -> & _).
  apply matches_run_inv in Hc as (c & Hc & -> & _).
  apply matches_optional_inv in Hs3 as (s3 & Hs3 & -> & _).
  apply matches_run_inv in Hd as (d & Hd & -> & _).
  apply matches_optional_run_inv in He as (e & He & ->).
  exists a, s1, b, s2, c, s3, d, e. split; [|auto 12].
  apply (app_inv_tail after). rewrite H4. simpl. rewrite <- !app_assoc. reflexivity.
Qed.

Lemma mastercard_matches_inv l prev prev' after :
  matches PIIRegexDetection.mastercard_re prev (l ++ after) prev' after ->
  mastercard_number l.
Proof.
  unfold PIIRegexDetection.mastercard_re, seqs. simpl. intros H.
  split_seq H H5 H1. split_seq H1 Hx H2. split_seq H2 Ha H3. split_seq H3 Hs1 H4.
  split_seq H4 Hb H6. split_seq H6 Hs2 H7. split_seq H7 Hc H8. split_seq H8 Hs3 H9.
  split_seq H9 Hd H10. inversion H10; subst; clear H10.
  apply matches_lit_inv in H5.
  apply matches_Cls_inv in Hx as (x & Hx & ->).
  apply matches_run_inv in Ha as (a & Ha & -> & _).
  apply matches_optional_inv in Hs1 as (s1 & Hs1 & -> & _).
  apply matches_run_inv in Hb as (b & Hb & -> & _).
  apply matches_optional_inv in Hs2 as (s2 & Hs2 & -> & _).
  apply matches_run_inv in Hc as (c & Hc & -> & _).
  apply matches_optional_inv in Hs3 as (s3 & Hs3 & -> & _).
  apply matches_run_inv in Hd as (d & Hd & E & _).
  subst. exists x, a, s1, b, s2, c, s3, d. split; [|auto 12].
  apply (app_inv_tail after). rewrite H5. simpl. rewrite <- !app_assoc. reflexivity.
Qed.

Lemma amex_matches_inv l prev prev' after :
  matches PIIRegexDetection.amex_re prev (l ++ after) prev' after -> amex_number l.
Proof.
  unfold PIIRegexDetection.amex_re, seqs. simpl. intros H.
  split_seq H H3 H1. split_seq H1 Hx H2. split_seq H2 Ha H4. split_seq H4 Hs1 H5.
  split_seq H5 Hb H6. split_seq H6 Hs2 H7. split_seq H7 Hc H8.
  inversion H8; subst; clear H8.
  apply matches_lit_inv in H3.
  apply matches_Cls_inv in Hx as (x & Hx & ->).
  apply matches_run_inv in Ha as (a & Ha & -> & _).
  apply matches_optional_inv in Hs1 as (s1 & Hs1 & -> & _).
  apply matches_run_inv in Hb as (b & Hb & -> & _).
  apply matches_optional_inv in Hs2 as (s2 & Hs2 & -> & _).
  apply matches_run_inv in Hc as (c & Hc & E & _).
  subst. exists x, a, s1, b, s2, c. split; [|auto 12].
  apply (app_inv_tail after). rewrite H3. simpl. rewrite <- !app_assoc. reflexivity.
Qed.

Lemma discover_issuer_matches_inv prev rest prev' rest' :
  matches (Alt (seqs [ lit "0"; lit "1"; lit "1" ]) (seqs [ lit "5"; exactly is_09 2 ]))
          prev rest prev' rest' ->
  exists issuer, discover_issuer issuer /\ rest = issuer ++ rest'.
Proof.
  unfold seqs. simpl. intros H.
  inversion H as [| | |? ? ? ? ? ? H1|? ? ? ? ? ? H1| | | |]; subst; clear H.
  - split_seq H1 H0 H2. split_seq H2 H1' H3. split_seq H3 H1'' H4.
    inversion H4; subst; clear H4.
    apply matches_lit_inv in H0, H1', H1''. subst.
    exists [ "0"; "1"; "1" ]%char. split; [left; reflexivity|reflexivity].
  - split_seq H1 H5 H2. split_seq H2 Ha H3. inversion H3; subst; clear H3.
    apply matches_lit_inv in H5.
    apply matches_run_inv in Ha as (a & Ha & E & _). subst.
    exists ("5"%char :: a). split; [right; eauto|reflexivity].
Qed.

Lemma discover_matches_inv l prev prev' after :
  matches PIIRegexDetection.discover_re prev (l ++ after) prev' after ->
  discover_number l.
Proof.
  unfold PIIRegexDetection.discover_re. unfold seqs at 1. simpl. intros H.
  split_seq H H6 H1. split_seq H1 Hi H2. split_seq H2 Hs1 H3. split_seq H3 Hb H4.
  split_seq H4 Hs2 H5. split_seq H5 Hc H7. split_seq H7 Hs3 H8. split_seq H8 Hd H9.
  inversion H9; subst; clear H9.
  apply matches_lit_inv in H6.
  apply discover_issuer_matches_inv in Hi as (issuer & Hi & ->).
  apply matches_optional_inv in Hs1 as (s1 & Hs1 & -> & _).
  apply matches_run_inv in Hb as (b & Hb & -> & _).
  apply matches_optional_inv in Hs2 as (s2 & Hs2 & -> & _).
  apply matches_run_inv in Hc as (c & Hc & -> & _).
  apply matches_optional_inv in Hs3 as (s3 & Hs3 & -> & _).
  apply matches_run_inv in Hd as (d & Hd & E & _).
  subst. exists issuer, s1, b, s2, c, s3, d. split; [|auto 12].
  apply (app_inv_tail after). rewrite H6. simpl. rewrite <- !app_assoc. reflexivity.
Qed.

Lemma card_matches_inv l prev prev' after :
  matches card_issuers_re prev (l ++ after) prev' after -> card_number l.
Proof.
  unfold card_issuers_re, alts. simpl. intros H.
  inversion H as [| | |? ? ? ? ? ? H1|? ? ? ? ? ? H1| | | |]; subst; clear H.
  - inversion H1 as [| | |? ? ? ? ? ? H2|? ? ? ? ? ? H2| | | |]; subst; clear H1.
    + inversion H2 as [| | |? ? ? ? ? ? H3|? ? ? ? ? ? H3| | | |]; subst; clear H2.
      * left. eapply visa_matches_inv, H3.
      * right. left. eapply mastercard_matches_inv, H3.
    + right. right. left. eapply amex_matches_inv, H2.
  - right. right. right. eapply discover_matches_inv, H1.
Qed.

(** X20. [get_detected_types] reports "credit_card" exactly for the texts in
    which a number of one of the four shapes read by the card pattern (Visa,
    Mastercard, American Express, Discover) stands between two word
    boundaries.  The digits are not checked any further. *)
Theorem card_reported_iff (text : string) :
  "credit_card" ∈ PIIRegexDetection.get_detected_types PIIRegexDetection.init text <->
  exists number, card_number number /\ stands_in text number.
Proof.
  split.
  - intros Hin. destruct (String.eqb_spec text "") as [->|Hne].
    { vm_compute in Hin. apply elem_of_nil in Hin. contradiction. }
    apply (regex_type_reported _ _ _ Hne) in Hin
      as [[? _]|[[? _]|[[? _]|[_ Hs]]]]; try discriminate.
    apply search_occurs in Hs as (before & matched & after & Hocc).
    apply (occurrence_stands_in card_issuers_re) in Hocc as [Hstands Hm].
    exists matched. split; [|exact Hstands].
    eapply card_matches_inv, Hm.
  - intros (number & Hnum & Hstands).
    assert (Hocc : occurs PIIRegexDetection.credit_card_re text).
    { apply (stands_in_occurrence card_issuers_re _ _ Hstands).
      intros prev after. apply card_matches, Hnum. }
    assert (Hne : text <> "").
    { intros ->. apply search_occurs in Hocc. vm_compute in Hocc. discriminate. }
    apply (regex_type_reported _ _ _ Hne). right. right. right. split; [reflexivity|].
    apply search_occurs, Hocc.
Qed.

Lemma card_reported_iff_witness :
  "credit_card" ∈ PIIRegexDetection.get_detected_types PIIRegexDetection.init
                    "Pay with 3782-822463-10005 today".
Proof.
  apply (proj2 (card_reported_iff "Pay with 3782-822463-10005 today")).
  exists (list_ascii_of_string "3782-822463-10005"). split.
  - right. right. left.
    exists "7"%char, (list_ascii_of_string "82"), (list_ascii_of_string "-"),
      (list_ascii_of_string "822463"), (list_ascii_of_string "-"),
      (list_ascii_of_string "10005").
    split; [reflexivity|]. split; [reflexivity|].
    split; [apply run_check; reflexivity|]. split; [apply optional_one; reflexivity|].
    split; [apply run_check; reflexivity|]. split; [apply optional_one; reflexivity|].
    apply run_check; reflexivity.
  - exists (list_ascii_of_string "Pay with "), (list_ascii_of_string " today").
    repeat split; reflexivity.
Defined.

(** ** What [has_pii] of the pattern detector decides *)

Lemma email_address_nonempty addr : email_address addr -> addr <> [].
Proof.
  intros (l & d & f & -> & _) E. destruct l; discriminate.
Qed.

Lemma email_occurs_iff text :
  occurs PIIRegexDetection.email_re text
  <-> exists addr, email_address addr /\ stands_in text addr.
Proof.
  split.
  - intros (before & addr & after & Hocc).
    pose proof (email_occurrence_inv _ _ _ _ Hocc) as (Haddr & Hb1 & Hb2).
    exists addr. split; [exact Haddr|]. exists before, after.
    split; [apply Hocc|]. split; [exact Hb1|].
    rewrite last_seen_nonempty by (apply email_address_nonempty, Haddr). exact Hb2.
  - intros (addr & Haddr & before & after & E & Hb1 & Hb2).
    rewrite last_seen_nonempty in Hb2 by (apply email_address_nonempty, Haddr).
    apply (email_occurs _ _ _ _ E Haddr Hb1 Hb2).
Qed.

Lemma ssn_occurs_iff text :
  occurs PIIRegexDetection.ssn_re text
  <-> exists number, ssn_number number /\ stands_in text number.
Proof.
  split.
  - intros (before & matched & after & Hocc).
    apply occurrence_stands_in in Hocc as [Hstands Hm].
    exists matched. split; [|exact Hstands]. eapply ssn_matches_inv, Hm.
  - intros (number & Hnum & Hstands).
    apply (stands_in_occurrence _ _ _ Hstands).
    intros prev after. apply ssn_matches, Hnum.
Qed.

Lemma phone_occurs_iff text :
  occurs PIIRegexDetection.phone_re text
  <-> exists number, phone_number number /\ stands_in text number.
Proof.
  split.
  - intros (before & matched & after & Hocc).
    exists matched. apply (phone_occurrence_inv _ _ _ _ Hocc).
  - intros (number & Hnum & Hstands). apply (phone_occurs _ _ Hnum Hstands).
Qed.

Lemma card_occurs_iff text :
  occurs PIIRegexDetection.credit_card_re text
  <-> exists number, card_number number /\ stands_in text number.
Proof.
  split.
  - intros (before & matched & after & Hocc).
    apply (occurrence_stands_in card_issuers_re) in Hocc as [Hstands Hm].
    exists matched. split; [|exact Hstands]. eapply card_matches_inv, Hm.
  - intros (number & Hnum & Hstands).
    apply (stands_in_occurrence card_issuers_re _ _ Hstands).
    intros prev after. apply card_matches, Hnum.
Qed.

Lemma regex_has_pii_occurs text :
  PIIRegexDetection.has_pii PIIRegexDetection.init text = true
  <-> occurs PIIRegexDetection.email_re text \/ occurs PIIRegexDetection.ssn_re text
      \/ occurs PIIRegexDetection.phone_re text
      \/ occurs PIIRegexDetection.credit_card_re text.
Proof.
  rewrite <- !search_occurs.
  destruct text as [|c text].
  - split; [discriminate|]. vm_compute. intuition discriminate.
  - unfold PIIRegexDetection.has_pii, PIIRegexDetection.init. simpl.
    rewrite !orb_true_iff. tauto.
Qed.

(** X21. [has_pii] of the pattern detector is true exactly for the texts in
    which an email address, a social security number, a phone number or a
    card number, of the shapes the four patterns read, stands between two
    word boundaries. *)
Theorem regex_has_pii_iff (text : string) :
  PIIRegexDetection.has_pii PIIRegexDetection.init text = true <->
  exists piece, pii_piece piece /\ stands_in text piece.
Proof.
  rewrite regex_has_pii_occurs, email_occurs_iff, ssn_occurs_iff, phone_occurs_iff,
    card_occurs_iff.
  unfold pii_piece. split.
  - intros [(l & H & Hs)|[(l & H & Hs)|[(l & H & Hs)|(l & H & Hs)]]];
      exists l; tauto.
  - intros (l & [H|[H|[H|H]]] & Hs); eauto 6.
Qed.

Lemma regex_has_pii_iff_witness :
  PIIRegexDetection.has_pii PIIRegexDetection.init "Reach me: john.doe@company.com." = true.
Proof.
  apply (proj2 (regex_has_pii_iff "Reach me: john.doe@company.com.")).
  exists (list_ascii_of_string "john.doe@company.com"). split.
  - left. apply sample_email_address.
  - exists (list_ascii_of_string "Reach me: "), (list_ascii_of_string ".").
    repeat split; reflexivity.
Defined.

(** ** What reaches the log *)














(** ** Raising the threshold *)

Lemma presidio_precall_result_loop {rt : PyRuntime} self user cache data ct w ms :
  data !! "messages" = Some (VList ms) ->
  result_of (PIIPresidioPreCallGuardrail.async_pre_call_hook self user cache data ct) w
  = match fst (for_each (PIIPresidioPreCallGuardrail.check_message self) 0 ms
                 (logged (Log DEBUG "Presidio pre-call guardrail: Starting PII analysis")
                         w)) with
    | Ok _ => Ok data
    | Raise e => Raise e
    end.
Proof.
  intros Hdata.
  unfold result_of, PIIPresidioPreCallGuardrail.async_pre_call_hook, dict_get.
  rewrite Hdata. change (default VNone (Some ?v)) with v.
  erewrite bind_ok by apply emit_logged.
  destruct ms as [|m ms']; [reflexivity|].
  change (truthy (VList (m :: ms'))) with true. cbv beta iota delta [negb].
  erewrite bind_ok by reflexivity.
  unfold bind at 1.
  destruct (for_each _ 0 (m :: ms') _) as [[[]|e] w1]; reflexivity.
Qed.

Lemma presidio_postcall_result_loop {rt : PyRuntime} self data user choices w :
  result_of (PIIPresidioPostCallGuardrail.async_post_call_success_hook self data user
               (ModelResponse choices)) w
  = fst (for_each (PIIPresidioPostCallGuardrail.check_choice self) 0 choices
           (logged (Log DEBUG
                      "Presidio post-call guardrail: Starting PII analysis on response")
                   w)).
Proof.
  unfold result_of, PIIPresidioPostCallGuardrail.async_post_call_success_hook.
  erewrite bind_ok by apply emit_logged.
  unfold bind at 1.
  destruct (for_each _ 0 choices _) as [[[]|e] w1]; reflexivity.
Qed.

Lemma flagged_mono self (t1 t2 : Q) text :
  (t1 <= t2)%Q -> flagged self t2 text = true -> flagged self t1 text = true.
Proof.
  intros Hle. unfold flagged, findings.
  destruct (PIIPresidioDetection.blank text); [discriminate|].
  destruct (PIIPresidioDetection.analyzer self 0 text _ _) as [results|what];
    [|discriminate].
  pose proof (detected_mono text t1 t2 results Hle) as Hsub.
  destruct (PIIPresidioDetection.detected text t2 results) as [|e2 l2]; [discriminate|].
  destruct (PIIPresidioDetection.detected text t1 results) as [|e1 l1]; [|reflexivity].
  apply sublist_nil_r in Hsub. discriminate.
Qed.

Lemma find_none_mono {A} (p q : A -> bool) (l : list A) :
  (forall x, q x = true -> p x = true) ->
  List.find p l = None -> List.find q l = None.
Proof.
  intros Hqp. induction l as [|x l IH]; [reflexivity|]. simpl.
  destruct (p x) eqn:Hp; [discriminate|].
  destruct (q x) eqn:Hq; [|exact IH].
  apply Hqp in Hq. congruence.
Qed.

Lemma passes_at_higher_threshold {X} (texts : X -> option string) self (t1 t2 : Q)
    (block : bool) (xs : list X) (refuse1 refuse2 : string -> exn) :
  (t1 <= t2)%Q ->
  match refuse1 <$> (if block then List.find (flagged self t1) (omap texts xs) else None)
  with Some e => Raise e | None => Ok tt end = Ok tt ->
  match refuse2 <$> (if block then List.find (flagged self t2) (omap texts xs) else None)
  with Some e => Raise e | None => Ok tt end = Ok tt.
Proof.
  intros Hle. destruct block; [|reflexivity].
  destruct (List.find (flagged self t1) _) eqn:Hfind; [discriminate|]. intros _.
  rewrite (find_none_mono _ (flagged self t2) _ (fun x => flagged_mono self t1 t2 x Hle)
             Hfind).
  reflexivity.
Qed.

(** X23. With a recognizer that answers the same every time, raising the
    threshold of a contextual guardrail never turns a pass into a block: a
    payload whose messages are dictionaries and that passes the pre-call
    hook, and a response that passes the post-call hook, still pass with the
    same detector and any higher threshold. *)
Theorem raising_threshold_keeps_passing {rt : PyRuntime} :
  (forall (low high : PIIPresidioPreCallGuardrail.t) user cache data ct w w' ms,
      stable (PIIPresidioDetection.analyzer (PIIPresidioPreCallGuardrail.detector low)) ->
      PIIPresidioPreCallGuardrail.detector high = PIIPresidioPreCallGuardrail.detector low ->
      PIIPresidioPreCallGuardrail.block_on_detection high
      = PIIPresidioPreCallGuardrail.block_on_detection low ->
      (PIIPresidioPreCallGuardrail.threshold low
       <= PIIPresidioPreCallGuardrail.threshold high)%Q ->
      data !! "messages" = Some (VList ms) ->
      Forall (fun m => is_dict m = true) ms ->
      result_of (PIIPresidioPreCallGuardrail.async_pre_call_hook low user cache data ct) w
      = Ok data ->
      result_of (PIIPresidioPreCallGuardrail.async_pre_call_hook high user cache data ct) w'
      = Ok data)
  /\ (forall (low high : PIIPresidioPostCallGuardrail.t) data user resp w w',
      stable (PIIPresidioDetection.analyzer (PIIPresidioPostCallGuardrail.detector low)) ->
      PIIPresidioPostCallGuardrail.detector high
      = PIIPresidioPostCallGuardrail.detector low ->
      PIIPresidioPostCallGuardrail.block_on_detection high
      = PIIPresidioPostCallGuardrail.block_on_detection low ->
      (PIIPresidioPostCallGuardrail.threshold low
       <= PIIPresidioPostCallGuardrail.threshold high)%Q ->
      result_of (PIIPresidioPostCallGuardrail.async_post_call_success_hook
                   low data user resp) w = Ok tt ->
      result_of (PIIPresidioPostCallGuardrail.async_post_call_success_hook
                   high data user resp) w' = Ok tt).
Proof.
  split.
  - intros low high user cache data ct w w' ms Hstable Hdetector Hblock Hle Hdata Hdicts.
    assert (Hstable' : stable (PIIPresidioDetection.analyzer
                                 (PIIPresidioPreCallGuardrail.detector high)))
      by (rewrite Hdetector; exact Hstable).
    rewrite !(presidio_precall_result_loop _ _ _ _ _ _ ms Hdata).
    rewrite (for_each_verdict (PIIPresidioPreCallGuardrail.check_message low) _ ms
               (Forall_impl _ _ _ Hdicts
                  (fun m Hm i w0 =>
                     presidio_precall_check_verdict low i m w0 Hstable Hm))).
    rewrite (for_each_verdict (PIIPresidioPreCallGuardrail.check_message high) _ ms
               (Forall_impl _ _ _ Hdicts
                  (fun m Hm i w0 =>
                     presidio_precall_check_verdict high i m w0 Hstable' Hm))).
    rewrite !head_omap_find, !find_flagged_blocking, Hdetector, Hblock.
    intros Hlow.
    pose proof (passes_at_higher_threshold text_content
                  (PIIPresidioPreCallGuardrail.detector low) _ _
                  (PIIPresidioPreCallGuardrail.block_on_detection low) ms
                  (fun text => PIIPresidioPreCallGuardrail.violation low
                     (set_list (map Entity.entity_type
                        (findings (PIIPresidioPreCallGuardrail.detector low) text
                           (PIIPresidioPreCallGuardrail.threshold low)))))
                  (fun text => PIIPresidioPreCallGuardrail.violation high
                     (set_list (map Entity.entity_type
                        (findings (PIIPresidioPreCallGuardrail.detector low) text
                           (PIIPresidioPreCallGuardrail.threshold high)))))
                  Hle) as Hhigh.
    destruct (fmap _ (if PIIPresidioPreCallGuardrail.block_on_detection low
                      then List.find (flagged _ (PIIPresidioPreCallGuardrail.threshold low)) _
                      else None)); [discriminate|].
    rewrite Hhigh; reflexivity.
  - intros low high data user resp w w' Hstable Hdetector Hblock Hle.
    assert (Hstable' : stable (PIIPresidioDetection.analyzer
                                 (PIIPresidioPostCallGuardrail.detector high)))
      by (rewrite Hdetector; exact Hstable).
    destruct resp as [choices|body]; [|intros _; reflexivity].
    rewrite !presidio_postcall_result_loop.
    rewrite (for_each_verdict (PIIPresidioPostCallGuardrail.check_choice low) _ choices
               (proj2 (Forall_forall _ _)
                  (fun c _ i w0 => presidio_postcall_check_verdict low i c w0 Hstable))).
    rewrite (for_each_verdict (PIIPresidioPostCallGuardrail.check_choice high) _ choices
               (proj2 (Forall_forall _ _)
                  (fun c _ i w0 => presidio_postcall_check_verdict high i c w0 Hstable'))).
    rewrite !head_omap_find, !find_flagged_blocking, Hdetector, Hblock.
    apply passes_at_higher_threshold, Hle.
Qed.

Lemma raising_threshold_keeps_passing_witness :
  let data := payload [ user_message (VStr "Call me at 555-123-4567") ] in
  result_of (PIIPresidioPreCallGuardrail.async_pre_call_hook (rt := reference_runtime)
               (PIIPresidioPreCallGuardrail.Build Kwargs.empty "en" (9 # 10) None true
                  sample_detector)
               sample_user sample_cache data completion) initial_world
  = Ok data.
Proof.
  intros data.
  apply (proj1 (raising_threshold_keeps_passing (rt := reference_runtime))
           (PIIPresidioPreCallGuardrail.Build Kwargs.empty "en" (8 # 10) None true
              sample_detector)
           (PIIPresidioPreCallGuardrail.Build Kwargs.empty "en" (9 # 10) None true
              sample_detector)
           sample_user sample_cache data completion initial_world initial_world
           [ user_message (VStr "Call me at 555-123-4567") ]).
  - apply sample_engine_stable.
  - reflexivity.
  - reflexivity.
  - unfold Qle. simpl. lia.
  - reflexivity.
  - repeat constructor.
  - vm_compute. reflexivity.
Defined.

(** ** The trace of a pattern hook that passes *)

Lemma world_eta w : w = World (trace w ++ []) (analyses w).
Proof. destruct w. simpl. rewrite app_nil_r. reflexivity. Qed.

Lemma for_each_trace {X} (body : nat -> X -> M unit) (events_of : X -> list event) :
  (forall i x w w',
      body i x w = (Ok tt, w') -> w' = World (trace w ++ events_of x) (analyses w)) ->
  forall xs i w w',
    for_each body i xs w = (Ok tt, w') ->
    w' = World (trace w ++ flat_map events_of xs) (analyses w).
Proof.
  intros Hbody. induction xs as [|x xs IH]; intros i w w' Hrun; simpl in Hrun.
  - injection Hrun as <-. apply world_eta.
  - apply bind_ok_inv in Hrun as ([] & w1 & Hx & Hrest).
    apply Hbody in Hx. apply IH in Hrest. subst. simpl.
    rewrite <- app_assoc. reflexivity.
Qed.

Lemma regex_precall_check_pass self m w w' :
  PIIRegexPreCallGuardrail.check_message self m w = (Ok tt, w') ->
  w' = World (trace w ++ regex_precall_events m) (analyses w).
Proof.
  unfold PIIRegexPreCallGuardrail.check_message, regex_precall_events, text_content,
    get_method.
  destruct m as [| | | | |l|d]; try discriminate.
  erewrite bind_ok by reflexivity.
  destruct (dict_get d "content") as [| | | |c| |];
    try (intros H; injection H as <-; apply world_eta).
  unfold called, bind, emit, ret, raise.
  destruct (PIIRegexDetection.has_pii _ c); [discriminate|].
  intros H. injection H as <-. reflexivity.
Qed.

Lemma regex_postcall_check_pass self c w w' :
  PIIRegexPostCallGuardrail.check_choice self c w = (Ok tt, w') ->
  w' = World (trace w ++ regex_postcall_events c) (analyses w).
Proof.
  unfold PIIRegexPostCallGuardrail.check_choice, regex_postcall_events, choice_text.
  destruct c as [content|delta]; [|intros H; injection H as <-; apply world_eta].
  erewrite bind_ok by apply emit_logged.
  destruct content as [| | | |text| |];
    try (intros H; injection H as <-; reflexivity).
  destruct (truthy (VStr text)); [|intros H; injection H as <-; reflexivity].
  unfold called, bind, emit, ret, raise.
  destruct (PIIRegexDetection.has_pii _ text); [discriminate|].
  intros H. injection H as <-. simpl. rewrite <- app_assoc. reflexivity.
Qed.

(** X24. When a pattern hook passes, its trace is known exactly.  The
    pre-call hook has called [has_pii] once on each message text, in order,
    and then logged the messages; the post-call hook has logged the
    response, then each [Choices] element followed by one call of [has_pii]
    on its text.  [get_detected_types] was not called, and the count of
    recognizer calls is as it was. *)
Theorem regex_hooks_trace_on_pass :
  (forall (self : PIIRegexPreCallGuardrail.t) user cache data ct w ms returned final,
      data !! "messages" = Some (VList ms) ->
      PIIRegexPreCallGuardrail.async_pre_call_hook self user cache data ct w
      = (Ok returned, final) ->
      final = World (trace w ++ flat_map regex_precall_events ms
                     ++ [ LogArgs DEBUG "Pre-call PII check passed for messages %s"
                            [ArgValue (VList ms)] ])
                    (analyses w))
  /\ (forall (self : PIIRegexPostCallGuardrail.t) data user choices w final,
      PIIRegexPostCallGuardrail.async_post_call_success_hook self data user
        (ModelResponse choices) w
      = (Ok tt, final) ->
      final = World (trace w
                     ++ LogArgs DEBUG "Post-call PII check response: %s"
                          [ArgResponse (ModelResponse choices)]
                        :: flat_map regex_postcall_events choices)
                    (analyses w)).
Proof.
  split.
  - intros self user cache data ct w ms returned final Hdata Hrun.
    unfold PIIRegexPreCallGuardrail.async_pre_call_hook, dict_get in Hrun.
    rewrite Hdata in Hrun. change (default VNone (Some ?v)) with v in Hrun.
    apply bind_ok_inv in Hrun as ([] & w1 & Hscan & Hlog).
    rewrite (bind_ok _ _ _ _ _ (emit_logged _ _)) in Hlog.
    injection Hlog as _ <-.
    assert (Hw1 : w1 = World (trace w ++ flat_map regex_precall_events ms) (analyses w)).
    { destruct ms as [|m ms'].
      - injection Hscan as <-. apply world_eta.
      - change (truthy (VList (m :: ms'))) with true in Hscan. cbv iota in Hscan.
        rewrite (bind_ok _ _ _ _ _ (eq_refl : iterate (VList (m :: ms')) w = (Ok _, w)))
          in Hscan.
        eapply for_each_trace; [|exact Hscan].
        intros i x w0 w0'. apply regex_precall_check_pass. }
    subst w1. unfold logged. simpl. rewrite <- app_assoc. reflexivity.
  - intros self data user choices w final Hrun.
    unfold PIIRegexPostCallGuardrail.async_post_call_success_hook in Hrun.
    rewrite (bind_ok _ _ _ _ _ (emit_logged _ _)) in Hrun.
    eapply for_each_trace in Hrun;
      [|intros i x w0 w0'; apply regex_postcall_check_pass].
    subst final. unfold logged. simpl. rewrite <- app_assoc. reflexivity.
Qed.

Lemma regex_hooks_trace_on_pass_witness :
  PIIRegexPostCallGuardrail.async_post_call_success_hook
    (PIIRegexPostCallGuardrail.init Kwargs.empty) (payload []) sample_user
    (ModelResponse [ Choices (VStr "It is 4."); StreamingChoices VNone ]) initial_world
  = (Ok tt,
     World [ LogArgs DEBUG "Post-call PII check response: %s"
               [ArgResponse (ModelResponse [ Choices (VStr "It is 4.");
                                             StreamingChoices VNone ])];
             LogArgs DEBUG "Post-call PII check choice: %s"
               [ArgChoice (Choices (VStr "It is 4."))];
             DetectorCall m_has_pii "It is 4." ] 0).
Proof.
  destruct (PIIRegexPostCallGuardrail.async_post_call_success_hook
              (PIIRegexPostCallGuardrail.init Kwargs.empty) (payload []) sample_user
              (ModelResponse [ Choices (VStr "It is 4."); StreamingChoices VNone ])
              initial_world) as [[[]|e] final] eqn:Hrun.
  - f_equal.
    exact (proj2 regex_hooks_trace_on_pass _ _ _ _ _ _ Hrun).
  - vm_compute in Hrun. discriminate.
Defined.
